(** * q2mm: the data dispatch engine (calculate.py) and the loop
      interpreter (loop.py), embedded and checked against their
      specification.

    Conventions of the embedding.
    - Python floats are read as exact rationals ([Q]); every comparison the
      statements below depend on is decided with a wide margin.  Infinities
      and NaN are not numbers of the model: where one would arise the model
      has no answer, and no statement covers it.
    - A Python call either returns, raises, or (for the [while] loop of
      [opt_loop]) may run forever: the type [result] has one constructor for
      each, and looping functions take a [fuel] argument.
    - A dict that is only looked up and inserted into is a [gmap]; a dict
      that is iterated over is the list of pairs its iteration yields.
    - Collaborators that live outside the two source files (filetypes,
      datatypes, compare, optimizer, parameters, the file system) are the
      fields of a class, so that every statement holds for all of them. *)

From Stdlib Require Import ZArith QArith String Ascii List Lia.
From stdpp Require Import base option list strings gmap sorting.

Local Open Scope string_scope.
Local Open Scope list_scope.

(** ** Python values and control *)

Module Py.

Inductive exn : Type :=
| NameError            (* also UnboundLocalError, its subclass *)
| TypeError
| ZeroDivisionError
| IndexError
| KeyError
| AttributeError
| ValueError
| StopIteration
| ExternalError.       (* raised inside a collaborator *)

(** What a piece of the program does in the model: it returns a value, it
    raises, or the model has no answer ([OutOfFuel]): the fuel of a loop
    ran out, or a value arose that the model does not represent (a float
    that is not a finite number).  Nothing is said about the program
    there. *)
Inductive result (A : Type) : Type :=
| Ok (a : A)
| Raise (e : exn)
| OutOfFuel.
Arguments Ok {A} a.
Arguments Raise {A} e.
Arguments OutOfFuel {A}.

Definition bind {A B} (r : result A) (k : A -> result B) : result B :=
  match r with
  | Ok a => k a
  | Raise e => Raise e
  | OutOfFuel => OutOfFuel
  end.

(** A result on which the model has an answer. *)
Definition definite {A} (r : result A) : Prop := r <> OutOfFuel.

Definition of_option {A} (e : exn) (o : option A) : result A :=
  match o with Some a => Ok a | None => Raise e end.

(** [l[i]] for a non-negative index. *)
Definition getitem {A} (l : list A) (i : nat) : result A :=
  of_option IndexError (nth_error l i).

(** [l[z]] for any integer index: a negative one counts from the end. *)
Definition getitem_Z {A} (l : list A) (z : Z) : result A :=
  if (0 <=? z)%Z then getitem l (Z.to_nat z)
  else if (0 <=? Z.of_nat (length l) + z)%Z
       then getitem l (Z.to_nat (Z.of_nat (length l) + z))
       else Raise IndexError.

Definition is_space (c : ascii) : bool :=
  let n := nat_of_ascii c in
  (Nat.eqb n 32 || (Nat.leb 9 n && Nat.leb n 13))%bool.

(** [s.split()]: the maximal runs of non-blank characters.  The auxiliary
    function returns the word that starts at the head of [s] (empty when
    [s] starts with a blank) and the words after it. *)
Fixpoint words_from (s : string) : string * list string :=
  match s with
  | EmptyString => (EmptyString, [])
  | String c s' =>
      let '(w, ws) := words_from s' in
      if is_space c
      then (EmptyString, match w with EmptyString => ws | _ => w :: ws end)
      else (String c w, ws)
  end.

Definition split (s : string) : list string :=
  let '(w, ws) := words_from s in
  match w with EmptyString => ws | _ => w :: ws end.

(** [s.split(sep)] for a one-character separator: never empty, and
    adjacent separators delimit empty strings. *)
Fixpoint split_on (sep : ascii) (s : string) : list string :=
  match s with
  | EmptyString => [EmptyString]
  | String c s' =>
      if Ascii.eqb c sep then EmptyString :: split_on sep s'
      else match split_on sep s' with
           | w :: ws => String c w :: ws
           | [] => [String c EmptyString]
           end
  end.

(** [s.partition(sep)[0]]: the text before the first [sep]. *)
Fixpoint before (sep : ascii) (s : string) : string :=
  match s with
  | EmptyString => EmptyString
  | String c s' => if Ascii.eqb c sep then EmptyString else String c (before sep s')
  end.

Definition startswith (c : ascii) (s : string) : bool :=
  match s with
  | String c' _ => Ascii.eqb c c'
  | EmptyString => false
  end.

(** [sep.join(l)] *)
Fixpoint join (sep : string) (l : list string) : string :=
  match l with
  | [] => EmptyString
  | [x] => x
  | x :: l' => x ++ sep ++ join sep l'
  end.

Definition digit (c : ascii) : option Z :=
  let n := nat_of_ascii c in
  if (Nat.leb 48 n && Nat.leb n 57)%bool then Some (Z.of_nat (n - 48)) else None.

(** The value of a run of decimal digits read after the prefix [acc]. *)
Fixpoint digits (acc : Z) (s : string) : option Z :=
  match s with
  | EmptyString => Some acc
  | String c s' =>
      match digit c with
      | Some d => digits (10 * acc + d) s'
      | None => None
      end
  end.

Definition unsigned (s : string) : option Z :=
  match s with
  | EmptyString => None
  | _ => digits 0 s
  end.

Definition signed {A} (neg : A -> A) (body : string -> option A) (s : string)
  : option A :=
  match s with
  | String "-" s' => option_map neg (body s')
  | String "+" s' => body s'
  | _ => body s
  end.

(** [int(s)] on a token without blanks: an optional sign and at least
    one decimal digit; anything else is a ValueError. *)
Definition int (s : string) : result Z :=
  of_option ValueError (signed Z.opp unsigned s).

(** Splits [s] at the first character satisfying [p]; the flag tells
    whether such a character was found (it is dropped). *)
Fixpoint break (p : ascii -> bool) (s : string) : string * bool * string :=
  match s with
  | EmptyString => (EmptyString, false, EmptyString)
  | String c s' =>
      if p c then (EmptyString, true, s')
      else let '(a, found, b) := break p s' in (String c a, found, b)
  end.

Definition is_e (c : ascii) : bool := (Ascii.eqb c "e" || Ascii.eqb c "E")%bool.
Definition is_dot (c : ascii) : bool := Ascii.eqb c ".".

Definition digits_or_zero (s : string) : option Z :=
  match s with EmptyString => Some 0%Z | _ => digits 0 s end.

Definition pow10 (e : Z) : Q :=
  if (0 <=? e)%Z then inject_Z (10 ^ e) else / inject_Z (10 ^ (- e)).

(** The mantissa [ddd.ddd]: at least one digit on one side of the dot. *)
Definition mantissa (s : string) : option Q :=
  let '(ip, _, fp) := break is_dot s in
  match ip, fp with
  | EmptyString, EmptyString => None
  | _, _ =>
      match digits_or_zero ip, digits_or_zero fp with
      | Some i, Some f =>
          Some (inject_Z i + inject_Z f * pow10 (- Z.of_nat (String.length fp)))%Q
      | _, _ => None
      end
  end.

Definition unsigned_float (s : string) : option Q :=
  let '(m, has_e, e) := break is_e s in
  match mantissa m with
  | None => None
  | Some q =>
      if has_e then option_map (fun k => (q * pow10 k)%Q) (signed Z.opp unsigned e)
      else Some q
  end.

(** ASCII lower case. *)
Definition lower (c : ascii) : ascii :=
  let n := nat_of_ascii c in
  if (Nat.leb 65 n && Nat.leb n 90)%bool then ascii_of_nat (n + 32) else c.

Fixpoint lowercase (s : string) : string :=
  match s with
  | EmptyString => EmptyString
  | String c s' => String (lower c) (lowercase s')
  end.

(** The tokens that [float] turns into an infinity or a NaN: [inf],
    [infinity] and [nan] in any case, after an optional sign. *)
Definition not_finite (s : string) : bool :=
  let body := match s with
              | String "-" s' => s'
              | String "+" s' => s'
              | _ => s
              end in
  existsb (String.eqb (lowercase body)) ["inf"; "infinity"; "nan"].

(** [float(s)] on a token without blanks.  The decimal forms ([12],
    [0.02], [.5], [1e-3]) give the number they denote, as an exact
    rational.  On the tokens of [not_finite] Python returns a float that
    is not a number of the model: there the model has no answer.  Any
    other text is a ValueError. *)
Definition float (s : string) : result Q :=
  if not_finite s then OutOfFuel
  else of_option ValueError (signed Qopp unsigned_float s).

(** Truth value of an optional float: [None] and [0.0] are false. *)
Definition truthy (o : option Q) : bool :=
  match o with
  | None => false
  | Some q => negb (Qeq_bool q 0)
  end.

(** [s.lstrip(c)], [s.rstrip(c)] and [s.strip(c)] for one character. *)
Fixpoint lstrip (c : ascii) (s : string) : string :=
  match s with
  | EmptyString => EmptyString
  | String a s' => if Ascii.eqb a c then lstrip c s' else s
  end.

Fixpoint rstrip (c : ascii) (s : string) : string :=
  match s with
  | EmptyString => EmptyString
  | String a s' =>
      match rstrip c s' with
      | EmptyString => if Ascii.eqb a c then EmptyString else String a EmptyString
      | r => String a r
      end
  end.

Definition strip (c : ascii) (s : string) : string := rstrip c (lstrip c s).

End Py.

Import Py.

Notation "x <- e ;; k" := (Py.bind e (fun x => k))
  (at level 100, e at next level, right associativity, only parsing).

(** ** datatypes.Datum *)

Module Datatypes.

(** Modelled from the spec: the class [Datum] of datatypes.py is not among
    the sources.  Its attributes are the keyword arguments the two source
    files construct it with (section 3 of the specification lists the same
    ones); every attribute defaults to [None].  The numbered atom
    attributes [atm_1], [atm_2], ... are set by name with [setattr], so
    they are kept as a map from the number to the value. *)
Record Datum : Type := mkDatum {
  val : option Q;
  wht : option Q;
  lbl : option string;
  com : option string;
  typ : option string;
  src_1 : option string;
  src_2 : option string;
  idx_1 : option Z;
  idx_2 : option Z;
  atm : gmap nat Z
}.

(** [Datum()] *)
Definition Datum_init : Datum :=
  mkDatum None None None None None None None None None ∅.

Definition with_typ (t : string) (d : Datum) : Datum :=
  mkDatum (val d) (wht d) (lbl d) (com d) (Some t) (src_1 d) (src_2 d)
          (idx_1 d) (idx_2 d) (atm d).
Definition with_idx_1 (i : Z) (d : Datum) : Datum :=
  mkDatum (val d) (wht d) (lbl d) (com d) (typ d) (src_1 d) (src_2 d)
          (Some i) (idx_2 d) (atm d).
(** [setattr(datum, 'atm_{}'.format(k), n)] *)
Definition setattr_atm (k : nat) (n : Z) (d : Datum) : Datum :=
  mkDatum (val d) (wht d) (lbl d) (com d) (typ d) (src_1 d) (src_2 d)
          (idx_1 d) (idx_2 d) (<[k := n]> (atm d)).

Definition atm_1 (d : Datum) : option Z := atm d !! 1.
Definition atm_2 (d : Datum) : option Z := atm d !! 2.

End Datatypes.

Import Datatypes.

(** ** calculate.py *)

Module Calculate.

(** The classes of filetypes.py whose constructor [collect_data] calls. *)
Inductive Kind : Type :=
| Mae | MacroModel | GaussLog | GaussFormChk | MacroModelLog
| JaguarIn | JaguarOut.

Definition Matrix : Type := list (list Q).

(** Modelled from the spec: the atom objects of filetypes.py are not among
    the sources.  An atom exposes its index, partial charge, bonded-atom
    indices and a property dict (section 6); [oid] is the identity of the
    object, which is what [atom in aliph_hyds] compares. *)
Record Atom : Type := mkAtom {
  oid : nat;
  index : Z;
  partial_charge : Q;
  bonded_atom_indices : list Z;
  atom_props : gmap string Z
}.

(** Modelled from the spec: the structure objects of filetypes.py are not
    among the sources.  [aliph_hyds] is what the method [get_aliph_hyds]
    returns. *)
Record Structure : Type := mkStructure {
  props : gmap string Q;
  atoms : list Atom;
  aliph_hyds : list Atom
}.

(** Modelled from the spec: an object built by one of the constructors of
    filetypes.py, with the attributes [collect_data] reads.  An attribute
    the object does not have is [None] here and an AttributeError when
    read. *)
Record Adapter : Type := mkAdapter {
  structures : option (list Structure);
  mmo_filename : option string;    (* .filename *)
  evals : option (list Q);
  evecs : option Matrix;
  fchk_hess : option Matrix;       (* .hess *)
  fchk_atoms : option (list Atom); (* .atoms *)
  hessian : option Matrix
}.

(** The attributes of a value of [inps] that [collect_data] reads. *)
Record Inp (Index : Type) : Type := mkInp {
  name_mae : string;
  name_mmo : string;
  name_log : string;
  directory : string;
  _index_output_mae : Index;
  _index_output_mmo : Index
}.
Arguments mkInp {Index}.
Arguments name_mae {Index}.
Arguments name_mmo {Index}.
Arguments name_log {Index}.
Arguments directory {Index}.
Arguments _index_output_mae {Index}.
Arguments _index_output_mmo {Index}.

(** datatypes.Hessian: the three attributes that are assigned. *)
Record Hessian : Type := mkHessian {
  hess : option Matrix;
  h_evecs : option Matrix;
  h_atoms : option (list Atom)
}.

(** What calculate.py calls but does not define. *)
Class Collaborators : Type := {
  Index : Type;
  (* constants.py *)
  HARTREE_TO_KJMOL : Q;
  HESSIAN_CONVERSION : Q;
  (* filetypes.<Kind>(path) *)
  parse : Kind -> string -> result Adapter;
  (* the lines of open(path, 'r') *)
  open_lines : string -> result (list string);
  (* filetypes.select_structures(structures, index, label) *)
  select_structures :
    list Structure -> Index -> string -> result (list (nat * Structure));
  (* struct.select_stuff(typ, com=, com_match=, src_1=, idx_1=) *)
  select_stuff :
    Structure -> string -> string -> list string -> option string -> Z ->
    result (list Datum);
  (* datatypes.Hessian(other, out) and the in-place transforms *)
  Hessian_of : Adapter -> Adapter -> result Hessian;
  mass_weight_hessian : Hessian -> result Hessian;
  mass_weight_eigenvectors : Hessian -> result Hessian;
  diagonalize : Hessian -> result Hessian
}.

(** *** Small pieces of Python and numpy *)

Definition attr {A} (a : option A) : result A := of_option AttributeError a.

(** [d[k]] on a dict *)
Definition item {A} (d : gmap string A) (k : string) : result A :=
  of_option KeyError (d !! k).

Definition is_in (x : string) (l : list string) : bool :=
  existsb (String.eqb x) l.

Fixpoint enumerate_from {A} (n : nat) (l : list A) : list (nat * A) :=
  match l with
  | [] => []
  | x :: l' => (n, x) :: enumerate_from (S n) l'
  end.
Definition enumerate {A} (l : list A) : list (nat * A) := enumerate_from 0 l.

(** [for x in l: body], the body acting on the state [s]. *)
Fixpoint for_each {A S} (l : list A) (body : A -> S -> result S) (s : S)
  : result S :=
  match l with
  | [] => Ok s
  | x :: l' => s' <- body x s ;; for_each l' body s'
  end.

Fixpoint map_result {A B} (f : A -> result B) (l : list A) : result (list B) :=
  match l with
  | [] => Ok []
  | x :: l' => y <- f x ;; ys <- map_result f l' ;; Ok (y :: ys)
  end.

Definition endswith_slash (s : string) : bool :=
  match String.length s with
  | O => false
  | S n => match String.get n s with
           | Some c => Ascii.eqb c "/"
           | None => false
           end
  end.

(** os.path.join(a, b) of posixpath *)
Definition path_join (a b : string) : string :=
  if startswith "/" b then b
  else if String.eqb a "" then b
  else if endswith_slash a then a ++ b
  else a ++ "/" ++ b.

(** np.diag of a vector: the square matrix with it on the diagonal. *)
Definition diag_of_vector (v : list Q) : Matrix :=
  map (fun i => map (fun j => if Nat.eqb i j then nth i v 0%Q else 0%Q)
                    (seq 0 (length v)))
      (seq 0 (length v)).

Definition ncols (M : Matrix) : nat :=
  match M with [] => 0 | r :: _ => length r end.

Definition entry (M : Matrix) (ij : nat * nat) : result Q :=
  r <- getitem M (fst ij) ;; getitem r (snd ij).

(** np.diag of a matrix: its diagonal. *)
Definition vector_of_diag (M : Matrix) : result (list Q) :=
  map_result (fun i => entry M (i, i)) (seq 0 (min (length M) (ncols M))).

(** np.tril_indices(n, 0, m): the positions (row, column) of the lower
    triangle, row by row; the k-th pair is (low_tri_idx[0][k],
    low_tri_idx[1][k]). *)
Definition tril_indices (n m : nat) : list (nat * nat) :=
  flat_map (fun i => map (fun j => (i, j)) (seq 0 (min (S i) m))) (seq 0 n).

Definition tril_indices_from (M : Matrix) : list (nat * nat) :=
  tril_indices (length M) (ncols M).

(** *** Reference files *)

(** The loop over the atom numbers of a four-part label. *)
Fixpoint set_atm_nums (i : nat) (atm_nums : list string) (datum : Datum)
  : result Datum :=
  match atm_nums with
  | [] => Ok datum
  | atm_num :: rest =>
      n <- int atm_num ;;
      set_atm_nums (S i) rest (setattr_atm (i + 1) n datum)
  end.

(** lbl_to_data_attrs(datum, lbl); the datum it returns is the one the
    Python function has modified in place.  The last statement compares
    ([==]) [datum.idx_2] with the second index and drops the outcome:
    the second index is converted and nothing is assigned. *)
Definition lbl_to_data_attrs (datum : Datum) (lbl : string) : result Datum :=
  let parts := split_on "_" lbl in
  p0 <- getitem parts 0 ;;
  let datum := with_typ p0 datum in
  idxs <- (if Nat.eqb (length parts) 3 then
             x <- getitem_Z parts (-1) ;; Ok (Some x)
           else Ok None) ;;
  r <- (if Nat.eqb (length parts) 4 then
          x <- getitem_Z parts (-2) ;;
          atm_nums <- getitem_Z parts (-1) ;;
          datum <- set_atm_nums 0 (split_on "-" atm_nums) datum ;;
          Ok (Some x, datum)
        else Ok (idxs, datum)) ;;
  let (idxs, datum) := (r : option string * Datum) in
  idxs <- of_option NameError idxs ;;
  let idxs := split_on "-" idxs in
  i0 <- getitem idxs 0 ;;
  n0 <- int i0 ;;
  let datum := with_idx_1 n0 datum in
  if Nat.eqb (length idxs) 2 then
    i1 <- getitem idxs 1 ;;
    _ <- int i1 ;;
    Ok datum
  else Ok datum.

(** The body of the loop of [read_reference] for one line. *)
Definition read_reference_line (line : string) (data : list Datum)
  : result (list Datum) :=
  if startswith "-" line then Ok data
  else
    let line := before "#" line in
    match split line with
    | [lbl; wht; val] =>
        w <- float wht ;;
        v <- float val ;;
        let datum :=
          mkDatum (Some v) (Some w) (Some lbl) None None None None None None ∅ in
        datum <- lbl_to_data_attrs datum lbl ;;
        Ok (data ++ [datum])
    | _ => Ok data
    end.

(** *** The command-to-file router *)

(** sort_commands_by_filename(commands); [commands] is the sequence of
    (command, groups) pairs that iterating over the dict yields. *)
Definition sort_commands_by_filename
           (commands : list (string * list (list string)))
  : gmap string (list string) :=
  foldl (fun sorted_commands (entry : string * list (list string)) =>
    let (command, groups_filenames) := entry in
    foldl (fun sorted_commands comma_separated =>
      foldl (fun sorted_commands filename =>
        match sorted_commands !! filename with
        | Some cs => <[filename := cs ++ [command]]> sorted_commands
        | None => <[filename := [command]]> sorted_commands
        end)
        sorted_commands (split_on "," comma_separated))
      sorted_commands (concat groups_filenames))
    ∅ commands.

(** *** The dispatch engine *)

Section Dispatch.
Context `{C : Collaborators}.

(** read_reference(filename) *)
Definition read_reference (filename : string) : result (list Datum) :=
  lines <- open_lines filename ;;
  for_each lines read_reference_line [].

(** The local variables of [collect_data] that outlive one pass of its
    outer loop: the cache [outs], the list [data], and [typ] and [ind],
    which a pass may read without having assigned them.  [parsed]
    is not a variable of the program: it records, in order, every call
    of a constructor of filetypes.py. *)
Record Frame : Type := mkFrame {
  outs : gmap string Adapter;
  data : list Datum;
  v_typ : option string;
  v_ind : option string;
  parsed : list (Kind * string)
}.

Definition Frame_init : Frame := mkFrame ∅ [] None None [].

(** data.append(d), data.extend(ds) *)
Definition append (d : Datum) (fr : Frame) : Frame :=
  mkFrame (outs fr) (data fr ++ [d]) (v_typ fr) (v_ind fr) (parsed fr).
Definition extend (ds : list Datum) (fr : Frame) : Frame :=
  mkFrame (outs fr) (data fr ++ ds) (v_typ fr) (v_ind fr) (parsed fr).
Definition set_typ (t : string) (fr : Frame) : Frame :=
  mkFrame (outs fr) (data fr) (Some t) (v_ind fr) (parsed fr).
Definition set_ind (i : string) (fr : Frame) : Frame :=
  mkFrame (outs fr) (data fr) (v_typ fr) (Some i) (parsed fr).

(** [if test_key not in outs: outs[store_key] = filetypes.<k>(path)];
    evaluating [path] may itself raise. *)
Definition parse_unless_cached (test_key store_key : string) (k : Kind)
           (path : result string) (fr : Frame) : result Frame :=
  match outs fr !! test_key with
  | Some _ => Ok fr
  | None =>
      p <- path ;;
      a <- parse k p ;;
      Ok (mkFrame (<[store_key := a]> (outs fr)) (data fr) (v_typ fr)
                  (v_ind fr) (parsed fr ++ [(k, p)]))
  end.

(** [os.path.join(directory, name)]: [directory] is not a parameter, a
    local or a global of calculate.py (the parameter is [direc]), so
    evaluating the argument raises NameError. *)
Definition join_unbound_directory (name : string) : result string :=
  Raise NameError.

(** [data_list.append(...)]: [data_list] is bound nowhere. *)
Definition data_list_append (d : Datum) (fr : Frame) : result Frame :=
  Raise NameError.

Definition local {A} (v : option A) : result A := of_option NameError v.

(** [inps[filename].<attribute>] *)
Definition inp (inps : gmap string (option (Inp Index))) (filename : string)
  : result (Inp Index) :=
  o <- item inps filename ;; attr o.

(** [a, b = s.split(',')] *)
Definition unpack2 (l : list string) : result (string * string) :=
  match l with
  | [a; b] => Ok (a, b)
  | _ => Raise ValueError
  end.

Definition succ (n : nat) : Z := Z.of_nat n + 1.

(** REFERENCE FILE *)
Definition reference_file (direc com : string)
           (groups_filenames : list (list string)) (fr : Frame)
  : result Frame :=
  if String.eqb com "r" then
    for_each groups_filenames (fun group_filenames =>
      for_each group_filenames (fun filename fr =>
        ds <- read_reference (path_join direc filename) ;;
        Ok (extend ds fr))) fr
  else Ok fr.

(** JAGUAR ENERGIES *)
Definition jaguar_energies (direc com : string)
           (groups_filenames : list (list string)) (fr : Frame)
  : result Frame :=
  if is_in com ["je"; "je2"; "jeo"] then
    let fr := if String.eqb com "je" then set_typ "e" fr
              else if String.eqb com "jeo" then set_typ "eo" fr
              else fr in
    for_each (enumerate groups_filenames) (fun '(grp_num, group_filenames) =>
      for_each group_filenames (fun filename fr =>
        fr <- parse_unless_cached filename filename Mae
                (Ok (path_join direc filename)) fr ;;
        mae <- item (outs fr) filename ;;
        ss <- attr (structures mae) ;;
        for_each (enumerate ss) (fun '(str_num, struct) fr =>
          p <- item (props struct) "r_j_Gas_Phase_Energy" ;;
          let e := (p * HARTREE_TO_KJMOL)%Q in
          t <- local (v_typ fr) ;;
          Ok (append (mkDatum (Some e) None None (Some com) (Some t)
                              (Some filename) None (Some (succ grp_num))
                              (Some (succ str_num)) ∅) fr)) fr)) fr
  else Ok fr.

(** The test on [b_q_use_charge]: an atom without the property is
    used, one with it is used when the property is not zero. *)
Definition use_charge (atom : Atom) : bool :=
  match atom_props atom !! "b_q_use_charge" with
  | None => true
  | Some v => negb (Z.eqb v 0)
  end.

(** [atom in l], on the identity of the objects. *)
Definition atom_in (atom : Atom) (l : list Atom) : bool :=
  existsb (fun x => Nat.eqb (oid x) (oid atom)) l.

(** The loop over [atom.bonded_atom_indices] that sums hydrogens into
    [q]. *)
Definition sum_hydrogens (structure : Structure) (aliph_hyds_inds : list Z)
           (bonded : list Z) (q : Q) : result Q :=
  for_each bonded (fun bonded_atom_ind q =>
    if existsb (Z.eqb bonded_atom_ind) aliph_hyds_inds then
      a <- getitem_Z (atoms structure) (bonded_atom_ind - 1) ;;
      Ok (q + partial_charge a)%Q
    else Ok q) q.

(** The body of [for atom in structure.atoms] of the Jaguar charges. *)
Definition jaguar_charge (com filename : string) (i : nat)
           (structure : Structure) (atom : Atom) (fr : Frame)
  : result Frame :=
  if use_charge atom then
    q <- (if String.eqb com "jqh" then
            sum_hydrogens structure (map index (aliph_hyds structure))
                          (bonded_atom_indices atom) (partial_charge atom)
          else Ok (partial_charge atom)) ;;
    if (String.eqb com "jq" || negb (atom_in atom (aliph_hyds structure)))%bool
    then Ok (append (mkDatum (Some q) None None (Some com) (Some "q")
                             (Some filename) None (Some (succ i)) None
                             {[ 1 := index atom ]}) fr)
    else Ok fr
  else Ok fr.

(** The body of [for i, structure in enumerate(mae.structures)]. *)
Definition jaguar_charges_of (com filename : string)
           (entry : nat * Structure) (fr : Frame) : result Frame :=
  let (i, structure) := entry in
  for_each (atoms structure) (jaguar_charge com filename i structure) fr.

(** JAGUAR CHARGES *)
Definition jaguar_charges (com : string)
           (groups_filenames : list (list string)) (fr : Frame)
  : result Frame :=
  if is_in com ["jq"; "jqh"] then
    for_each groups_filenames (fun group_filenames =>
      for_each group_filenames (fun filename fr =>
        fr <- parse_unless_cached filename filename Mae
                (join_unbound_directory filename) fr ;;
        mae <- item (outs fr) filename ;;
        ss <- attr (structures mae) ;;
        for_each (enumerate ss) (jaguar_charges_of com filename) fr)) fr
  else Ok fr.

(** MACROMODEL CHARGES *)
Definition macromodel_charges (inps : gmap string (option (Inp Index)))
           (com : string) (groups_filenames : list (list string))
           (fr : Frame) : result Frame :=
  if is_in com ["mq"; "mqh"] then
    for_each groups_filenames (fun group_filenames =>
      for_each group_filenames (fun filename fr =>
        i <- inp inps filename ;;
        let mae := name_mae i in
        fr <- parse_unless_cached mae mae Mae
                (Ok (path_join (directory i) mae)) fr ;;
        mae <- item (outs fr) mae ;;
        ss <- attr (structures mae) ;;
        sel <- select_structures ss (_index_output_mae i) "pre" ;;
        for_each sel (fun '(str_num, structure) =>
          for_each (atoms structure) (fun atom fr =>
            if use_charge atom then
              if (String.eqb com "mq"
                  || negb (atom_in atom (aliph_hyds structure)))%bool
              then Ok (append (mkDatum (Some (partial_charge atom)) None None
                                       (Some com) (Some "q") (Some filename)
                                       None (Some (succ str_num)) None
                                       {[ 1 := index atom ]}) fr)
              else Ok fr
            else Ok fr)) fr)) fr
  else Ok fr.

(** MACROMODEL ENERGIES *)
Definition macromodel_energies (inps : gmap string (option (Inp Index)))
           (com : string) (groups_filenames : list (list string))
           (fr : Frame) : result Frame :=
  if is_in com ["me"; "me2"; "meo"] then
    let fr := if String.eqb com "me" then set_ind "pre" (set_typ "e" fr)
              else if String.eqb com "meo" then set_ind "opt" (set_typ "eo" fr)
              else fr in
    for_each (enumerate groups_filenames) (fun '(grp_num, group_filenames) =>
      for_each group_filenames (fun filename fr =>
        i <- inp inps filename ;;
        fr <- parse_unless_cached (name_mae i) (name_mae i) Mae
                (Ok (path_join (directory i) (name_mae i))) fr ;;
        mae <- item (outs fr) (name_mae i) ;;
        ss <- attr (structures mae) ;;
        label <- local (v_ind fr) ;;
        sel <- select_structures ss (_index_output_mae i) label ;;
        for_each sel (fun '(str_num, struct) fr =>
          v <- item (props struct) "r_mmod_Potential_Energy-MM3*" ;;
          t <- local (v_typ fr) ;;
          Ok (append (mkDatum (Some v) None None (Some com) (Some t)
                              (Some (name_mae i)) None (Some (succ grp_num))
                              (Some (succ str_num)) ∅) fr)) fr)) fr
  else Ok fr.

(** SCHRODINGER STRUCTURES *)
Definition schrodinger_structures
           (inps : gmap string (option (Inp Index)))
           (sub_names : list string) (com : string)
           (groups_filenames : list (list string)) (fr : Frame)
  : result Frame :=
  if is_in com ["ja"; "jb"; "jt"; "ma"; "mb"; "mt"] then
    let label := if is_in com ["ja"; "jb"; "jt"] then "pre" else "opt" in
    let fr := if is_in com ["ja"; "ma"] then set_typ "angles" fr
              else if is_in com ["jb"; "mb"] then set_typ "bonds" fr
              else if is_in com ["jt"; "mt"] then set_typ "torsions" fr
              else fr in
    for_each groups_filenames (fun group_filenames =>
      for_each group_filenames (fun filename fr =>
        i <- inp inps filename ;;
        fr <- parse_unless_cached (name_mmo i) (name_mmo i) MacroModel
                (Ok (path_join (directory i) (name_mmo i))) fr ;;
        mmo <- item (outs fr) (name_mmo i) ;;
        ss <- attr (structures mmo) ;;
        sel <- select_structures ss (_index_output_mmo i) label ;;
        for_each sel (fun '(str_num, struct) fr =>
          t <- local (v_typ fr) ;;
          src <- attr (mmo_filename mmo) ;;
          ds <- select_stuff struct t com sub_names (Some src) (succ str_num) ;;
          Ok (extend ds fr)) fr)) fr
  else Ok fr.

(** GAUSSIAN ENERGIES *)
Definition gaussian_energies (com : string)
           (groups_filenames : list (list string)) (fr : Frame)
  : result Frame :=
  if is_in com ["ge"; "geo"] then
    let fr := if String.eqb com "ge" then set_typ "e" fr
              else if String.eqb com "geo" then set_typ "eo" fr
              else fr in
    for_each (enumerate groups_filenames) (fun '(grp_num, group_filenames) =>
      for_each group_filenames (fun name_log fr =>
        fr <- parse_unless_cached name_log name_log GaussLog
                (join_unbound_directory name_log) fr ;;
        log <- item (outs fr) name_log ;;
        ss <- attr (structures log) ;;
        s0 <- getitem ss 0 ;;
        hf <- item (props s0) "hf" ;;
        s0 <- getitem ss 0 ;;
        zp <- item (props s0) "zp" ;;
        let energy := ((hf + zp) * HARTREE_TO_KJMOL)%Q in
        t <- local (v_typ fr) ;;
        data_list_append
          (mkDatum (Some energy) None None (Some com) (Some t)
                   (Some name_log) None (Some (succ grp_num)) None ∅) fr)) fr
  else Ok fr.

(** The list comprehension that ends every eigenmatrix block: one
    datum per position of the lower triangle of [M], in the order of
    [np.tril_indices_from]. *)
Definition eig_data (com src_1 : string) (src_2 : option string)
           (M : Matrix) : result (list Datum) :=
  let low_tri_idx := tril_indices_from M in
  lower_tri <- map_result (entry M) low_tri_idx ;;
  Ok (map (fun '(e, (x, y)) =>
             mkDatum (Some e) None None (Some com) (Some "eig") (Some src_1)
                     src_2 (Some (succ x)) (Some (succ y)) ∅)
          (combine lower_tri low_tri_idx)).

(** GAUSSIAN EIGENMATRIX *)
Definition gaussian_eigenmatrix (com : string)
           (groups_filenames : list (list string)) (fr : Frame)
  : result Frame :=
  if String.eqb com "geigz" then
    for_each groups_filenames (fun group_filenames =>
      for_each group_filenames (fun name_log fr =>
        fr <- parse_unless_cached name_log name_log GaussLog
                (join_unbound_directory name_log) fr ;;
        log <- item (outs fr) name_log ;;
        ev <- attr (evals log) ;;
        let evals := map (fun e => (e * HESSIAN_CONVERSION)%Q) ev in
        let evals_matrix := diag_of_vector evals in
        ds <- eig_data com name_log None evals_matrix ;;
        Ok (extend ds fr))) fr
  else Ok fr.

(** The block kept for legacy, [geigz2]. *)
Definition gaussian_eigenmatrix_2 (com : string)
           (groups_filenames : list (list string)) (fr : Frame)
  : result Frame :=
  if String.eqb com "geigz2" then
    for_each groups_filenames (fun group_filenames =>
      for_each group_filenames (fun comma_filenames fr =>
        names <- unpack2 (split_on "," comma_filenames) ;;
        let (name_log, name_fchk) := (names : string * string) in
        fr <- parse_unless_cached name_log name_log GaussLog
                (join_unbound_directory name_log) fr ;;
        log <- item (outs fr) name_log ;;
        fr <- parse_unless_cached name_fchk name_fchk GaussFormChk
                (join_unbound_directory name_fchk) fr ;;
        fchk <- item (outs fr) name_fchk ;;
        h <- attr (fchk_hess fchk) ;;
        v <- attr (evecs log) ;;
        a <- attr (fchk_atoms fchk) ;;
        hs <- mass_weight_hessian (mkHessian (Some h) (Some v) (Some a)) ;;
        hs <- diagonalize hs ;;
        M <- attr (hess hs) ;;
        d <- vector_of_diag M ;;
        let diagonal_matrix := diag_of_vector d in
        ds <- eig_data com name_log (Some name_fchk) diagonal_matrix ;;
        Ok (extend ds fr))) fr
  else Ok fr.

(** MacroModel eigenmatrix for Gaussian QM data. *)
Definition macromodel_gaussian_eigenmatrix
           (inps : gmap string (option (Inp Index))) (com : string)
           (groups_filenames : list (list string)) (fr : Frame)
  : result Frame :=
  if String.eqb com "mgeig" then
    for_each groups_filenames (fun group_filenames =>
      for_each group_filenames (fun comma_filenames fr =>
        names <- unpack2 (split_on "," comma_filenames) ;;
        let (name_mae, name_gau_log) := (names : string * string) in
        i <- inp inps name_mae ;;
        let name_macro_log := name_log i in
        fr <- parse_unless_cached name_macro_log name_macro_log MacroModelLog
                (Ok (path_join (directory i) (name_log i))) fr ;;
        macro_log <- item (outs fr) name_macro_log ;;
        fr <- parse_unless_cached name_gau_log name_gau_log GaussLog
                (join_unbound_directory name_gau_log) fr ;;
        gau_log <- item (outs fr) name_gau_log ;;
        h <- attr (hessian macro_log) ;;
        v <- attr (evecs gau_log) ;;
        hs <- diagonalize (mkHessian (Some h) (Some v) None) ;;
        M <- attr (hess hs) ;;
        ds <- eig_data com name_macro_log (Some name_gau_log) M ;;
        Ok (extend ds fr))) fr
  else Ok fr.

(** Schrodinger eigenmatrix.  Under [mjeig] the cache is asked for
    [name_other], the .mae, and filled under [name_log]. *)
Definition schrodinger_eigenmatrix
           (inps : gmap string (option (Inp Index))) (direc com : string)
           (groups_filenames : list (list string)) (fr : Frame)
  : result Frame :=
  if is_in com ["jeigz"; "mjeig"] then
    for_each groups_filenames (fun group_filenames =>
      for_each group_filenames (fun comma_filenames fr =>
        names <- unpack2 (split_on "," comma_filenames) ;;
        let (name_other, name_out) := (names : string * string) in
        r <- (if String.eqb com "mjeig" then
                i <- inp inps name_other ;;
                let log_name := name_log i in
                fr <- parse_unless_cached name_other log_name MacroModelLog
                        (Ok (path_join (directory i) (name_log i))) fr ;;
                other <- item (outs fr) log_name ;;
                Ok (fr, other)
              else if String.eqb com "jeigz" then
                fr <- parse_unless_cached name_other name_other JaguarIn
                        (Ok (path_join direc name_other)) fr ;;
                other <- item (outs fr) name_other ;;
                Ok (fr, other)
              else Raise NameError) ;;
        let (fr, other) := (r : Frame * Adapter) in
        fr <- parse_unless_cached name_out name_out JaguarOut
                (Ok (path_join direc name_out)) fr ;;
        out <- item (outs fr) name_out ;;
        hs <- Hessian_of other out ;;
        hs <- (if String.eqb com "jeigz" then mass_weight_hessian hs
               else Ok hs) ;;
        hs <- mass_weight_eigenvectors hs ;;
        hs <- diagonalize hs ;;
        diagonal_matrix <-
          (if String.eqb com "jeigz" then
             M <- attr (hess hs) ;;
             d <- vector_of_diag M ;;
             Ok (diag_of_vector d)
           else attr (hess hs)) ;;
        ds <- eig_data com name_other (Some name_out) diagonal_matrix ;;
        Ok (extend ds fr))) fr
  else Ok fr.

(** One pass of the outer loop of [collect_data]: the [if] blocks in
    the order of the source. *)
Definition collect_command (inps : gmap string (option (Inp Index)))
           (direc : string) (sub_names : list string)
           (entry : string * list (list string)) (fr : Frame)
  : result Frame :=
  let (com, groups_filenames) := entry in
  fr <- reference_file direc com groups_filenames fr ;;
  fr <- jaguar_energies direc com groups_filenames fr ;;
  fr <- jaguar_charges com groups_filenames fr ;;
  fr <- macromodel_charges inps com groups_filenames fr ;;
  fr <- macromodel_energies inps com groups_filenames fr ;;
  fr <- schrodinger_structures inps sub_names com groups_filenames fr ;;
  fr <- gaussian_energies com groups_filenames fr ;;
  fr <- gaussian_eigenmatrix com groups_filenames fr ;;
  fr <- gaussian_eigenmatrix_2 com groups_filenames fr ;;
  fr <- macromodel_gaussian_eigenmatrix inps com groups_filenames fr ;;
  schrodinger_eigenmatrix inps direc com groups_filenames fr.

(** The frame [collect_data] ends with; [coms] is the sequence of
    (command, groups) pairs that iterating over the dict yields. *)
Definition collect_frame (coms : list (string * list (list string)))
           (inps : gmap string (option (Inp Index)))
           (direc : string) (sub_names : list string) : result Frame :=
  for_each coms (collect_command inps direc sub_names) Frame_init.

(** collect_data(coms, inps, direc, sub_names) *)
Definition collect_data (coms : list (string * list (list string)))
           (inps : gmap string (option (Inp Index)))
           (direc : string) (sub_names : list string)
  : result (list Datum) :=
  fr <- collect_frame coms inps direc sub_names ;;
  Ok (data fr).

End Dispatch.

End Calculate.

(** ** loop.py *)

Module LoopPy.

(** What loop.py calls but does not define.  [World] is everything the
    collaborators read and write outside the interpreter (the files on
    disk, the programs that are run); [FF] is the value of one
    force-field object, with its attributes [params] and [score].  Scores
    are floats that are finite numbers, held as exact rationals; a
    collaborator that would hand back an infinity or a NaN has no answer
    here ([OutOfFuel]). *)
Class Collaborators : Type := {
  World : Type;
  FF : Type;
  Params : Type;
  params : FF -> Params;
  with_params : Params -> FF -> FF;
  ff_score : FF -> option Q;
  (* datatypes.import_ff(path), open(path).readlines() *)
  import_ff : World -> string -> result FF;
  readlines : World -> string -> result (list string);
  (* datatypes.export_ff(path, params, lines=...) *)
  export_ff : World -> string -> Params -> option (list string) -> result World;
  (* parameters.trim_params_by_file(params, path) *)
  trim_params_by_file : World -> Params -> string -> result Params;
  (* calculate.main(args), seen from the interpreter *)
  calculate_main : World -> list string -> result (World * list Datum);
  (* compare.compare_data(ref, cal) and its pretty=True form *)
  compare_data : list Datum -> list Datum -> result Q;
  compare_data_pretty : list Datum -> list Datum -> result (Q * list string);
  (* with open(path, 'w') as f: f.write(line + '\n') for each line *)
  write_lines : World -> string -> list string -> result World;
  (* optimizer.Gradient(ff=, ff_args=, ff_lines=, ref_conn=).run() *)
  Gradient_run : World -> option FF -> option (list string) ->
                 option (list string) -> list Datum -> result (World * FF)
}.

Section Interpreter.
Context `{C : Collaborators}.

(** The store: the world, and the force-field objects created so far.
    A force field is referred to by its position in [ffs], so that two
    loops holding the same position hold the same object. *)
Record Mem : Type := mkMem {
  world : World;
  ffs : list FF
}.

Definition with_world (w : World) (m : Mem) : Mem := mkMem w (ffs m).

(** A new object: its reference is the next free position. *)
Definition alloc (f : FF) (m : Mem) : Mem * nat :=
  (mkMem (world m) (ffs m ++ [f]), length (ffs m)).

(** [self.ff.<attribute>]: an AttributeError when [self.ff] is None. *)
Definition deref (m : Mem) (r : option nat) : result FF :=
  match r with
  | None => Raise AttributeError
  | Some a => of_option AttributeError (ffs m !! a)
  end.

Definition store (a : nat) (f : FF) (m : Mem) : Mem :=
  mkMem (world m) (<[a := f]> (ffs m)).

(** class Loop *)
Record Loop : Type := mkLoop {
  convergence : Q;
  current_cycle_num : nat;
  ff : option nat;
  ff_args : option (list string);
  ff_lines : option (list string);
  loop_lines : option (list string);
  ref_args : option (list string);
  score : option Q;
  score_init : option Q;
  score_prev : option Q
}.

(** Loop.__init__ *)
Definition Loop_init : Loop :=
  mkLoop 0.01 0 None None None None None None None None.

Definition with_convergence (x : Q) (l : Loop) : Loop :=
  mkLoop x (current_cycle_num l) (ff l) (ff_args l) (ff_lines l)
         (loop_lines l) (ref_args l) (score l) (score_init l) (score_prev l).
Definition with_current_cycle_num (x : nat) (l : Loop) : Loop :=
  mkLoop (convergence l) x (ff l) (ff_args l) (ff_lines l)
         (loop_lines l) (ref_args l) (score l) (score_init l) (score_prev l).
Definition with_ff (x : option nat) (l : Loop) : Loop :=
  mkLoop (convergence l) (current_cycle_num l) x (ff_args l) (ff_lines l)
         (loop_lines l) (ref_args l) (score l) (score_init l) (score_prev l).
Definition with_ff_args (x : option (list string)) (l : Loop) : Loop :=
  mkLoop (convergence l) (current_cycle_num l) (ff l) x (ff_lines l)
         (loop_lines l) (ref_args l) (score l) (score_init l) (score_prev l).
Definition with_ff_lines (x : option (list string)) (l : Loop) : Loop :=
  mkLoop (convergence l) (current_cycle_num l) (ff l) (ff_args l) x
         (loop_lines l) (ref_args l) (score l) (score_init l) (score_prev l).
Definition with_loop_lines (x : option (list string)) (l : Loop) : Loop :=
  mkLoop (convergence l) (current_cycle_num l) (ff l) (ff_args l) (ff_lines l)
         x (ref_args l) (score l) (score_init l) (score_prev l).
Definition with_ref_args (x : option (list string)) (l : Loop) : Loop :=
  mkLoop (convergence l) (current_cycle_num l) (ff l) (ff_args l) (ff_lines l)
         (loop_lines l) x (score l) (score_init l) (score_prev l).
Definition with_score (x : option Q) (l : Loop) : Loop :=
  mkLoop (convergence l) (current_cycle_num l) (ff l) (ff_args l) (ff_lines l)
         (loop_lines l) (ref_args l) x (score_init l) (score_prev l).
Definition with_score_prev (x : option Q) (l : Loop) : Loop :=
  mkLoop (convergence l) (current_cycle_num l) (ff l) (ff_args l) (ff_lines l)
         (loop_lines l) (ref_args l) (score l) (score_init l) x.

(** The local variables of one call of [run_loop_input] that a later
    directive of the same call reads: unbound ([None]) until assigned. *)
Record Locals : Type := mkLocals {
  ref_conn : option (list Datum);
  cal_conn : option (list Datum)
}.

Definition no_locals : Locals := mkLocals None None.

(** Reading a local variable: UnboundLocalError while it is unbound. *)
Definition local {A} (v : option A) : result A := of_option NameError v.

(** [' '.join(cols[1:]).split()] *)
Definition args_of (cols : list string) : list string :=
  split (join " " (tl cols)).

(** Position of the first ['-o'] in [cols]. *)
Fixpoint index_o (cols : list string) : option nat :=
  match cols with
  | [] => None
  | c :: cols' => if String.eqb c "-o" then Some 0 else option_map S (index_o cols')
  end.

(** The block under [if cols[0] == 'FFLD']. *)
Definition FFLD (m : Mem) (self : Loop) (cols : list string)
  : result (Mem * Loop) :=
  c1 <- getitem cols 1 ;;
  r <- (if String.eqb c1 "read" then
          c2 <- getitem cols 2 ;;
          f <- import_ff (world m) c2 ;;
          let (m1, a) := alloc f m in
          ls <- readlines (world m1) c2 ;;
          Ok (m1, with_ff_lines (Some ls) (with_ff (Some a) self))
        else Ok (m, self)) ;;
  let (m, self) := (r : Mem * Loop) in
  c1 <- getitem cols 1 ;;
  if String.eqb c1 "write" then
    c2 <- getitem cols 2 ;;
    f <- deref m (ff self) ;;
    w <- export_ff (world m) c2 (params f) (ff_lines self) ;;
    Ok (with_world w m, self)
  else Ok (m, self).

(** The block under [if cols[0] == 'PARM']: the parameters of the
    object [self.ff] refers to are replaced in place. *)
Definition PARM (m : Mem) (self : Loop) (cols : list string)
  : result (Mem * Loop) :=
  f <- deref m (ff self) ;;
  c1 <- getitem cols 1 ;;
  p <- trim_params_by_file (world m) (params f) c1 ;;
  match ff self with
  | Some a => Ok (store a (with_params p f) m, self)
  | None => Raise AttributeError
  end.

Definition RDAT (m : Mem) (self : Loop) (loc : Locals) (cols : list string)
  : result (Mem * Loop * Locals) :=
  let self := with_ref_args (Some (args_of cols)) self in
  r <- calculate_main (world m) (args_of cols) ;;
  Ok (with_world (fst r) m, self, mkLocals (Some (snd r)) (cal_conn loc)).

Definition CDAT (m : Mem) (self : Loop) (loc : Locals) (cols : list string)
  : result (Mem * Loop * Locals) :=
  let self := with_ff_args (Some (args_of cols)) self in
  r <- calculate_main (world m) (args_of cols) ;;
  Ok (with_world (fst r) m, self, mkLocals (ref_conn loc) (Some (snd r))).

Definition COMP (m : Mem) (self : Loop) (loc : Locals) (cols : list string)
  : result (Mem * Loop) :=
  match index_o cols with
  | Some i =>
      output_filename <- getitem cols (i + 1) ;;
      ref <- local (ref_conn loc) ;;
      cal <- local (cal_conn loc) ;;
      r <- compare_data_pretty ref cal ;;
      let self := with_score (Some (fst r)) self in
      w <- write_lines (world m) output_filename (snd r) ;;
      Ok (with_world w m, self)
  | None =>
      ref <- local (ref_conn loc) ;;
      cal <- local (cal_conn loc) ;;
      s <- compare_data ref cal ;;
      Ok (m, with_score (Some s) self)
  end.

(** The block under [if cols[0] == 'GRAD']: [self.ff] is rebound to the
    object [run] returns. *)
Definition GRAD (m : Mem) (self : Loop) (loc : Locals)
  : result (Mem * Loop) :=
  ref <- local (ref_conn loc) ;;
  f0 <- match ff self with
        | None => Ok None
        | Some a => f <- of_option AttributeError (ffs m !! a) ;; Ok (Some f)
        end ;;
  r <- Gradient_run (world m) f0 (ff_args self) (ff_lines self) ref ;;
  let (m1, a) := alloc (snd r) (with_world (fst r) m) in
  Ok (m1, with_score (ff_score (snd r)) (with_ff (Some a) self)).

(** The lines a LOOP directive takes from the iterator: those before
    the first line whose first word is END, and what is left after that
    line.  The iterator running dry raises StopIteration. *)
Fixpoint read_loop_lines (rest : list string)
  : result (list string * list string) :=
  match rest with
  | [] => Raise StopIteration
  | line :: rest' =>
      w <- getitem (split line) 0 ;;
      if String.eqb w "END" then Ok ([], rest')
      else r <- read_loop_lines rest' ;; Ok (line :: fst r, snd r)
  end.

(** [if score: self.score = score], the first statement of
    [run_loop_input]. *)
Definition take_score (sc : option Q) (self : Loop) : Loop :=
  if truthy sc then with_score sc self else self.

(** [(self.score_prev - self.score) / self.score_prev] *)
Definition relative_change (prev cur : option Q) : result Q :=
  match prev, cur with
  | Some p, Some s =>
      if Qeq_bool p 0 then Raise ZeroDivisionError else Ok ((p - s) / p)%Q
  | _, _ => Raise TypeError
  end.

(** The condition of the [while] of [opt_loop]. *)
Definition keep_going (self : Loop) (change : option Q) : bool :=
  match score_prev self, change with
  | None, _ => true
  | _, None => true
  | Some _, Some ch => negb (Qle_bool ch (convergence self))
  end.

(** The statements of one cycle before the script is run. *)
Definition begin_cycle (self : Loop) : Loop :=
  let self := with_current_cycle_num (current_cycle_num self + 1) self in
  with_score_prev (score self) self.

(** The statements "Make loop object and populate" of the LOOP block:
    a new Loop that is given the threshold, the lines and the score of
    the enclosing one, and nothing else. *)
Definition make_loop (self : Loop) (conv : Q) (lines : list string) : Loop :=
  with_score (score self)
    (with_loop_lines (Some lines) (with_convergence conv Loop_init)).

(** The block under [if cols[0] == 'LOOP'], given what [loop.opt_loop()]
    does; it returns what is left of the iterator as well. *)
Definition LOOP (nested : Mem -> Loop -> result (Mem * Loop))
           (m : Mem) (self : Loop) (cols rest : list string)
  : result (Mem * Loop * list string) :=
  b <- read_loop_lines rest ;;
  c1 <- getitem cols 1 ;;
  conv <- float c1 ;;
  r <- nested m (make_loop self conv (fst b)) ;;
  Ok (fst r, with_score (score (snd r)) self, snd b).

(** One pass of the [while True] of [run_loop_input] for the line
    [line], with [rest] left in the iterator.  The source tests
    [cols[0]] in a row of [if] statements; no two of the tests hold
    for the same line. *)
Definition directive (nested : Mem -> Loop -> result (Mem * Loop))
           (m : Mem) (self : Loop) (loc : Locals)
           (line : string) (rest : list string)
  : result (Mem * Loop * Locals * list string) :=
  let cols := split line in
  c0 <- getitem cols 0 ;;
  if String.eqb c0 "FFLD" then
    r <- FFLD m self cols ;; Ok (fst r, snd r, loc, rest)
  else if String.eqb c0 "PARM" then
    r <- PARM m self cols ;; Ok (fst r, snd r, loc, rest)
  else if String.eqb c0 "LOOP" then
    r <- LOOP nested m self cols rest ;;
    Ok (fst (fst r), snd (fst r), loc, snd r)
  else if String.eqb c0 "RDAT" then
    r <- RDAT m self loc cols ;; Ok (fst (fst r), snd (fst r), snd r, rest)
  else if String.eqb c0 "CDAT" then
    r <- CDAT m self loc cols ;; Ok (fst (fst r), snd (fst r), snd r, rest)
  else if String.eqb c0 "COMP" then
    r <- COMP m self loc cols ;; Ok (fst r, snd r, loc, rest)
  else if String.eqb c0 "GRAD" then
    r <- GRAD m self loc ;; Ok (fst r, snd r, loc, rest)
  else Ok (m, self, loc, rest).

(** [run_lines] is the [while True] of [run_loop_input] from the
    current position of the iterator; [opt_while] is the [while] of
    [opt_loop] with the current value of [change], its call of
    [run_loop_input] written out (see [cycle] below).  One unit of fuel is
    spent per directive and per cycle. *)
Fixpoint run_lines (fuel : nat) (m : Mem) (self : Loop) (loc : Locals)
         (lines : list string) {struct fuel} : result (Mem * Loop) :=
  match fuel with
  | O => OutOfFuel
  | S fuel' =>
      match lines with
      | [] => Ok (m, self)
      | line :: rest =>
          r <- directive (fun m loop => opt_while fuel' m loop None)
                 m self loc line rest ;;
          run_lines fuel' (fst (fst (fst r))) (snd (fst (fst r)))
                    (snd (fst r)) (snd r)
      end
  end
with opt_while (fuel : nat) (m : Mem) (self : Loop) (change : option Q)
       {struct fuel} : result (Mem * Loop) :=
  match fuel with
  | O => OutOfFuel
  | S fuel' =>
      if keep_going self change then
        let self := begin_cycle self in
        r <- (let entered := take_score (score self) self in
              ls <- of_option TypeError (loop_lines self) ;;
              run_lines fuel' m entered no_locals ls) ;;
        let self := with_score (score (snd r)) (snd r) in
        ch <- relative_change (score_prev self) (score self) ;;
        opt_while fuel' (fst r) self (Some ch)
      else Ok (m, self)
  end.

(** Loop.run_loop_input(lines, score); the value it returns is the
    [score] of the loop it leaves. *)
Definition run_loop_input (fuel : nat) (m : Mem) (self : Loop)
           (lines : option (list string)) (sc : option Q)
  : result (Mem * Loop) :=
  let self := take_score sc self in
  ls <- of_option TypeError lines ;;
  run_lines fuel m self no_locals ls.

(** The call [self.run_loop_input(self.loop_lines, score=self.score)] of
    one cycle of [opt_loop], after the two statements that open the
    cycle. *)
Definition cycle (fuel : nat) (m : Mem) (self : Loop) : result (Mem * Loop) :=
  let self := begin_cycle self in
  run_loop_input fuel m self (loop_lines self) (score self).

(** Loop.opt_loop(); the value it returns is the [score] of the loop it
    leaves. *)
Definition opt_loop (fuel : nat) (m : Mem) (self : Loop)
  : result (Mem * Loop) :=
  opt_while fuel m self None.

(** The text [read_loop_input] keeps of a line [x] of the file:
    [x.partition('#')[0].strip('\n')]. *)
Definition command_text (x : string) : string :=
  strip "010" (before "#" x).

(** read_loop_input(filename): the list comprehension over the lines of
    the file (the logging left out). *)
Definition read_loop_input (w : World) (filename : string)
  : result (list string) :=
  lines <- readlines w filename ;;
  Ok (map command_text
          (List.filter (fun x => negb (String.eqb (command_text x) "")) lines)).

(** main(args), from the value of the [input] argument on: the lines of the
    file are run by a new Loop. *)
Definition main (fuel : nat) (m : Mem) (input : string) : result (Mem * Loop) :=
  lines <- read_loop_input (world m) input ;;
  run_loop_input fuel m Loop_init (Some lines) None.

End Interpreter.

End LoopPy.

(** ** Vocabulary of the statements *)

Module Notions.
Import Calculate.

(** Row-major order on positions (row, column). *)
Definition row_major (p q : nat * nat) : Prop :=
  fst p < fst q \/ (fst p = fst q /\ snd p < snd q).

(** The lower triangle of the first [k] rows, row by row. *)
Definition rows_below (k : nat) : list (nat * nat) :=
  flat_map (fun i => map (fun j => (i, j)) (seq 0 (S i))) (seq 0 k).

(** A matrix with [n] rows of [n] entries. *)
Definition square (n : nat) (M : Matrix) : Prop :=
  length M = n /\ Forall (fun r => length r = n) M.

(** The entry that [M[i][j]] reads when it is there. *)
Definition at_ (M : Matrix) (ij : nat * nat) : Q :=
  nth (snd ij) (nth (fst ij) M []) 0%Q.

(** The record an eigenmatrix block emits for the position [ij] of [M]. *)
Definition eig_datum (com src_1 : string) (src_2 : option string)
           (M : Matrix) (ij : nat * nat) : Datum :=
  mkDatum (Some (at_ M ij)) None None (Some com) (Some "eig") (Some src_1)
          src_2 (Some (Z.of_nat (fst ij) + 1)%Z)
          (Some (Z.of_nat (snd ij) + 1)%Z) ∅.

(** [filename] is a constituent of a token listed in some group of
    [command] in the table [commands]. *)
Definition listed (commands : list (string * list (list string)))
           (command filename : string) : Prop :=
  exists groups group token,
    In (command, groups) commands /\ In group groups /\ In token group /\
    In filename (split_on "," token).

(** The inverted map sends [filename] to [command]. *)
Definition maps_to (sorted : gmap string (list string))
           (filename command : string) : Prop :=
  exists cs, sorted !! filename = Some cs /\ In command cs.

(** Re-grouping an inverted map by command: the set of the filenames
    whose command list holds [command]. *)
Definition regroup (sorted : gmap string (list string)) (command : string)
  : gset string :=
  dom (filter (fun kv : string * list string => command ∈ kv.2) sorted).

(** The record a charge block emits for [atom] of structure number [i]
    (counted from 0) of [filename], with the value [q]. *)
Definition charge_datum (com filename : string) (i : nat) (atom : Atom)
           (q : Q) : Datum :=
  mkDatum (Some q) None None (Some com) (Some "q") (Some filename) None
          (Some (Z.of_nat i + 1)%Z) None {[ 1 := index atom ]}.

End Notions.

(** ** Vocabulary of the statements about loop.py *)

Module LoopNotions.
Import LoopPy.

Section WithCollaborators.
Context `{C : LoopPy.Collaborators}.

(** [b] has the attributes of [a] that only [opt_loop] and the LOOP block
    assign: the threshold, the cycle count, the lines and the previous
    score. *)
Definition same_cycle_state (a b : Loop) : Prop :=
  convergence b = convergence a /\
  current_cycle_num b = current_cycle_num a /\
  loop_lines b = loop_lines a /\
  score_init b = score_init a /\
  score_prev b = score_prev a.

(** The first [n] force-field objects of [m] are in [m'] as they were,
    and no object has gone. *)
Definition keeps_objects (n : nat) (m m' : Mem) : Prop :=
  take n (ffs m') = take n (ffs m) /\ length (ffs m) <= length (ffs m').

End WithCollaborators.

(** The reference [r] is to no object that existed when there were [n]. *)
Definition fresh_from (n : nat) (r : option nat) : Prop :=
  match r with
  | None => True
  | Some a => n <= a
  end.

Section Objects.
Context `{C : LoopPy.Collaborators}.

(** Started on a loop that refers to none of the first [n] objects, [run]
    leaves these objects as they were and the loop still referring to none
    of them. *)
Definition stays_off (run : Mem -> Loop -> result (Mem * Loop)) : Prop :=
  forall m l m' l' n,
    run m l = Ok (m', l') ->
    n <= length (ffs m) -> fresh_from n (ff l) ->
    keeps_objects n m m' /\ fresh_from n (ff l').

End Objects.

(** The first word of a line, if it has one. *)
Definition first_word (line : string) : option string := head (split line).

(** A COMP directive: the first word is COMP and an [-o] is followed by
    a path. *)
Definition is_COMP (line : string) : bool :=
  match split line with
  | c0 :: _ =>
      (String.eqb c0 "COMP" &&
       match index_o (split line) with
       | None => true
       | Some i => match nth_error (split line) (i + 1) with
                   | Some _ => true
                   | None => false
                   end
       end)%bool
  | [] => false
  end.

Section Runs.
Context `{C : LoopPy.Collaborators}.

(** Where one call of [run_loop_input] stands: the store, the loop, the
    local data sets and what is left of the iterator. *)
Definition Config : Type := Mem * Loop * Locals * list string.

(** [runs_to tok c c']: from [c] the call gets to [c'] by running
    directives in turn (a LOOP directive with all of its cycles counting as
    one), none of which has [tok] as its first word. *)
Inductive runs_to (tok : string) : Config -> Config -> Prop :=
| runs_to_here (c : Config) : runs_to tok c c
| runs_to_step (fuel : nat) (m : Mem) (self : Loop) (loc : Locals)
               (line : string) (rest : list string) (c c' : Config) :
    first_word line <> Some tok ->
    directive (opt_loop fuel) m self loc line rest = Ok c ->
    runs_to tok c c' ->
    runs_to tok (m, self, loc, line :: rest) c'.

End Runs.

End LoopNotions.

(** ** Collaborators to run the two programs on *)

Module Fixtures.

(** *** For loop.py *)

Import LoopPy.

(** A world that is the list of scores the optimizer has yet to return:
    each GRAD takes the first one and returns a force field carrying it.
    Nothing else reads or writes the world; the comparator scores 0. *)
#[export] Instance scripted : LoopPy.Collaborators := {|
  World := list Q;
  FF := option Q;
  Params := unit;
  params := fun _ => tt;
  with_params := fun _ f => f;
  ff_score := fun f => f;
  import_ff := fun _ _ => Ok None;
  readlines := fun _ _ => Ok [];
  export_ff := fun w _ _ _ => Ok w;
  trim_params_by_file := fun _ p _ => Ok p;
  calculate_main := fun w _ => Ok (w, []);
  compare_data := fun _ _ => Ok 0%Q;
  compare_data_pretty := fun _ _ => Ok (0%Q, []);
  write_lines := fun w _ _ => Ok w;
  Gradient_run := fun w _ _ _ _ =>
    match w with
    | s :: w' => Ok (w', Some s)
    | [] => Raise ExternalError
    end
|}.

(** A script whose every run yields the next score of the world. *)
Definition script : list string := ["RDAT -r ref.txt"; "GRAD"].

Definition four_scores : list Q := [10.0; 9.0; 8.91; 8.90]%Q.

(** A loop over [script] with threshold 0.02, handed the score [s]. *)
Definition loop_002 (s : option Q) : Loop :=
  with_score s (with_loop_lines (Some script) (with_convergence 0.02 Loop_init)).

(** The store with the scores [scores] still to come and the force fields
    [fields] created so far. *)
Definition mem (scores : list Q) (fields : list (option Q)) : Mem :=
  mkMem scores fields.

Definition start (scores : list Q) : Mem := mem scores [].

(** [loop_002] after [n] cycles, the last of which took the score from
    [prev] to [s]. *)
Definition after_cycles (n : nat) (s prev : Q) : Loop :=
  mkLoop 0.02 n (Some (n - 1)) None None (Some script)
         (Some ["-r"; "ref.txt"]) (Some s) None (Some prev).

(** *** For calculate.py *)

Import Calculate.

Definition log_adapter : Adapter :=
  mkAdapter None None None None None None (Some [[1; 0]; [0; 2]]%Q).
Definition out_adapter : Adapter :=
  mkAdapter None None None (Some [[1; 0]; [0; 1]]%Q) None None None.
Definition gauss_adapter : Adapter :=
  mkAdapter (Some [mkStructure {[ "hf" := (-1)%Q; "zp" := 0.5%Q ]} [] []])
            None None None None None None.

(** A disk on which every MacroModel log and every Jaguar output parses,
    and nothing else does; the Hessian transforms change nothing. *)
#[export] Instance disk : Calculate.Collaborators := {|
  Index := unit;
  HARTREE_TO_KJMOL := 2625.5%Q;
  HESSIAN_CONVERSION := 1%Q;
  parse := fun k p =>
    match k with
    | MacroModelLog => Ok log_adapter
    | JaguarOut => Ok out_adapter
    | _ => Raise ExternalError
    end;
  open_lines := fun p => Ok [];
  select_structures := fun ss _ _ => Ok (enumerate ss);
  select_stuff := fun _ _ _ _ _ _ => Ok [];
  Hessian_of := fun other out => Ok (mkHessian (hessian other) (evecs out) None);
  mass_weight_hessian := fun h => Ok h;
  mass_weight_eigenvectors := fun h => Ok h;
  diagonalize := fun h => Ok h
|}.

Definition a_mae : Inp unit := mkInp "a.mae" "a.mmo" "a.log" "." tt tt.
Definition inps_a : gmap string (option (Inp unit)) :=
  {[ "a.mae" := Some a_mae ]}.

(** The structure of the charge example: a heavy atom and its two
    aliphatic hydrogens. *)
Definition heavy : Atom := mkAtom 0 1 (-0.30)%Q [2; 3]%Z ∅.
Definition hyd_1 : Atom := mkAtom 1 2 0.05%Q [1]%Z ∅.
Definition hyd_2 : Atom := mkAtom 2 3 0.07%Q [1]%Z ∅.
Definition methylene : Structure :=
  mkStructure ∅ [heavy; hyd_1; hyd_2] [hyd_1; hyd_2].

End Fixtures.

(** ** Vocabulary and collaborators of the further statements *)

Module LoopWords.
Import LoopPy LoopNotions.

(** The first words [run_loop_input] acts on. *)
Definition recognized (w : string) : bool :=
  existsb (String.eqb w) ["FFLD"; "PARM"; "LOOP"; "RDAT"; "CDAT"; "COMP"; "GRAD"].

(** A line that a LOOP directive takes into its body: it has a first word,
    and that word is not END. *)
Definition goes_in_body (line : string) : Prop :=
  exists w, first_word line = Some w /\ w <> "END".

(** A word as [split] yields them: not empty, no blank in it. *)
Definition is_word (w : string) : Prop :=
  w <> "" /\ forall k c, String.get k w = Some c -> is_space c = false.

(** Files as lists of lines, by name.  Force fields are their lines;
    computing data for the arguments [args] gives one record per argument,
    labelled with it; comparing scores the number of records on both sides;
    the optimizer is not available. *)
#[export] Instance on_disk : LoopPy.Collaborators := {|
  World := gmap string (list string);
  FF := list string;
  Params := list string;
  params := fun f => f;
  with_params := fun p _ => p;
  ff_score := fun _ => None;
  import_ff := fun w path => of_option ExternalError (w !! path);
  readlines := fun w path => of_option ExternalError (w !! path);
  export_ff := fun w path ps _ => Ok (<[path := ps]> w);
  trim_params_by_file := fun w ps path =>
    match w !! path with
    | Some keep => Ok (List.filter (fun x => existsb (String.eqb x) keep) ps)
    | None => Raise ExternalError
    end;
  calculate_main := fun w args =>
    Ok (w, map (fun a => mkDatum None None (Some a) None None None None None None ∅)
               args);
  compare_data := fun ref cal => Ok (inject_Z (Z.of_nat (length ref + length cal)));
  compare_data_pretty := fun ref cal =>
    Ok (inject_Z (Z.of_nat (length ref + length cal)), ["report"]);
  write_lines := fun w path ls => Ok (<[path := ls]> w);
  Gradient_run := fun _ _ _ _ _ => Raise ExternalError
|}.

(** A script file: a comment, two data directives, a blank line, a
    comparison. *)
Definition nl : string := String "010" "".

Definition loop_in : list string :=
  [ ("# start" ++ nl)%string;
    ("RDAT -r ref.txt # reference" ++ nl)%string;
    nl;
    ("CDAT -me a.mae -mb a.mae" ++ nl)%string;
    ("COMP" ++ nl)%string ].

Definition disk_with (name : string) (lines : list string) : Mem :=
  mkMem ({[ name := lines ]} : gmap string (list string)) [].

End LoopWords.

Module CalcWords.
Import Calculate Notions.

(** A line of a reference file that gives no record: it starts with [-],
    or what is before its first [#] does not have three columns. *)
Definition skipped (line : string) : Prop :=
  startswith "-" line = true \/ length (split (before "#" line)) <> 3.

(** The occurrences of [filename] among the names of the groups [groups],
    comma-joined tokens taken apart. *)
Definition occurrences (filename : string) (groups : list (list string))
  : list string :=
  List.filter (String.eqb filename) (flat_map (split_on ",") (concat groups)).

(** The commands of the table, in its order, each as many times as
    [filename] occurs under it. *)
Definition commands_for (commands : list (string * list (list string)))
           (filename : string) : list string :=
  flat_map (fun entry : string * list (list string) =>
              map (fun _ => fst entry) (occurrences filename (snd entry)))
           commands.

(** The commands that some block of [collect_data] tests for. *)
Definition handled (com : string) : bool :=
  is_in com ["r"; "je"; "je2"; "jeo"; "jq"; "jqh"; "mq"; "mqh"; "me"; "me2";
             "meo"; "ja"; "jb"; "jt"; "ma"; "mb"; "mt"; "ge"; "geo"; "geigz";
             "geigz2"; "mgeig"; "jeigz"; "mjeig"].

(** The commands whose block looks its file up in [inps] first. *)
Definition needs_inps (com : string) : bool :=
  is_in com ["mq"; "mqh"; "me"; "me2"; "meo"; "ja"; "jb"; "jt"; "ma"; "mb"; "mt"].

(** The commands whose block takes a pair of files joined by a comma. *)
Definition takes_pair (com : string) : bool :=
  is_in com ["geigz2"; "mgeig"; "jeigz"; "mjeig"].

(** The commands whose block builds the path of a file that is not in the
    cache from [directory] before anything else. *)
Definition joins_directory (com : string) : bool :=
  is_in com ["jq"; "jqh"; "geigz"].

Section Frames.
Context `{C : Calculate.Collaborators}.

(** If [r] is a frame, it is related to [fr] by [R]. *)
Definition reaches (R : Frame -> Frame -> Prop) (fr : Frame)
           (r : result Frame) : Prop :=
  forall fr', r = Ok fr' -> R fr fr'.

(** [fr'] has the records and the constructor calls of [fr], in order,
    and possibly more after them. *)
Definition appends (fr fr' : Frame) : Prop :=
  (exists ds, data fr' = data fr ++ ds) /\
  (exists ps, parsed fr' = parsed fr ++ ps).

(** From [fr] to [fr']: every object of the cache is still there under
    its name, as it was, and the constructors were called as many times
    as names were added to the cache. *)
Definition fills_cache (fr fr' : Frame) : Prop :=
  outs fr ⊆ outs fr' /\
  exists ps, parsed fr' = parsed fr ++ ps /\
             size (outs fr') = size (outs fr) + length ps.

(** The value [jqh] gives to the atom [atom] of [structure] when every
    aliphatic hydrogen it is bonded to is an atom of the structure: its
    charge and, for each bonded index that is the index of an aliphatic
    hydrogen, the charge of the atom at that position. *)
Definition folded (structure : Structure) (atom : Atom) : Q :=
  fold_left (fun q b =>
               if existsb (Z.eqb b) (map index (aliph_hyds structure))
               then (q + partial_charge
                           (nth (Z.to_nat (b - 1)) (atoms structure) atom))%Q
               else q)
            (bonded_atom_indices atom) (partial_charge atom).

(** The record a Jaguar energy block emits. *)
Definition energy_datum (com typ filename : string) (grp_num str_num : nat)
           (e : Q) : Datum :=
  mkDatum (Some e) None None (Some com) (Some typ) (Some filename) None
          (Some (Z.of_nat grp_num + 1)%Z) (Some (Z.of_nat str_num + 1)%Z) ∅.

(** The object a block has for [filename] once it has looked in the cache
    under the key [filename]: the cached one or, on a miss, what the
    constructor [k] returns for the file joined to [direc]. *)
Definition found (k : Kind) (direc : string) (fr : Frame) (filename : string)
  : result Adapter :=
  match outs fr !! filename with
  | Some a => Ok a
  | None => parse k (path_join direc filename)
  end.

(** The records a Jaguar energy command emits for the groups [groups],
    numbered from [g], when the structures of a file [f] have the energies
    [energies f] (in Hartree). *)
Definition energy_data (com typ : string) (energies : string -> list Q)
           (g : nat) (groups : list (list string)) : list Datum :=
  flat_map (fun '(grp_num, group) =>
              flat_map (fun f =>
                          map (fun '(str_num, e) =>
                                 energy_datum com typ f grp_num str_num
                                              (e * HARTREE_TO_KJMOL)%Q)
                              (enumerate (energies f)))
                       group)
           (enumerate_from g groups).

(** The atoms of [s] that a charge command gives a record: those that are
    used for charges and, under the commands that sum or skip hydrogens,
    are not aliphatic hydrogens. *)
Definition charged (skip_hydrogens : bool) (s : Structure) : list Atom :=
  List.filter (fun a => use_charge a &&
                        (negb skip_hydrogens || negb (atom_in a (aliph_hyds s))))
              (atoms s).

End Frames.

(** A disk for the Jaguar energies and the reference files: every .mae
    holds two structures with gas-phase energies 1 and 2 Hartree; the file
    ./bonds.txt holds the lines of [bonds_txt], every other reference file
    the lines of [ref_txt]. *)
Definition two_structures : Adapter :=
  mkAdapter
    (Some [mkStructure {[ "r_j_Gas_Phase_Energy" := 1%Q ]} [] [];
           mkStructure {[ "r_j_Gas_Phase_Energy" := 2%Q ]} [] []])
    None None None None None None.

Definition ref_txt : list string :=
  [ "- a line that is skipped"; "# a comment"; ""; "only two" ].

Definition bonds_txt : list string :=
  [ "b_1_1-2 1.0 1.534"; "# angles"; "a_1_1-2-3 2.0 109.5" ].

(** The records of [bonds_txt]. *)
Definition bonds : list Datum :=
  [ mkDatum (Some 1.534%Q) (Some 1.0%Q) (Some "b_1_1-2") None (Some "b")
            None None (Some 1%Z) None ∅;
    mkDatum (Some 109.5%Q) (Some 2.0%Q) (Some "a_1_1-2-3") None (Some "a")
            None None (Some 1%Z) None ∅ ].

#[export] Instance jaguar_disk : Calculate.Collaborators := {|
  Index := unit;
  HARTREE_TO_KJMOL := 2625.5%Q;
  HESSIAN_CONVERSION := 1%Q;
  parse := fun k p =>
    match k with
    | Mae => Ok two_structures
    | _ => Raise ExternalError
    end;
  open_lines := fun p =>
    if String.eqb p "./bonds.txt" then Ok bonds_txt else Ok ref_txt;
  select_structures := fun ss _ _ => Ok (enumerate ss);
  select_stuff := fun _ _ _ _ _ _ => Ok [];
  Hessian_of := fun _ _ => Raise ExternalError;
  mass_weight_hessian := fun h => Ok h;
  mass_weight_eigenvectors := fun h => Ok h;
  diagonalize := fun h => Ok h
|}.

(** The frame after [je] on the files a.mae, b.mae and a.mae again of one
    group, on [jaguar_disk]. *)
Definition je_frame : Frame :=
  mkFrame {[ "a.mae" := two_structures; "b.mae" := two_structures ]}
          [ energy_datum "je" "e" "a.mae" 0 0 2625.5%Q;
            energy_datum "je" "e" "a.mae" 0 1 5251.0%Q;
            energy_datum "je" "e" "b.mae" 0 0 2625.5%Q;
            energy_datum "je" "e" "b.mae" 0 1 5251.0%Q;
            energy_datum "je" "e" "a.mae" 0 0 2625.5%Q;
            energy_datum "je" "e" "a.mae" 0 1 5251.0%Q ]
          (Some "e") None [(Mae, "./a.mae"); (Mae, "./b.mae")].

(** A frame whose cache holds a.mae, a file with the structure of the
    charge example. *)
Definition methylene_frame : Frame :=
  mkFrame {[ "a.mae" := mkAdapter (Some [Fixtures.methylene]) None None None
                                  None None None ]}
          [] None None [].

End CalcWords.

(** ** Proof steps shared below *)

(** Takes apart a hypothesis saying that a sequence of calls returned:
    every call of the sequence returned, and every test went one way. *)
Ltac returned :=
  repeat match goal with
  | H : Ok _ = Ok _ |- _ => inversion H; subst; clear H
  | H : Raise _ = Ok _ |- _ => discriminate H
  | H : OutOfFuel = Ok _ |- _ => discriminate H
  | H : Py.bind (Ok _) _ = Ok _ |- _ => cbn [Py.bind] in H
  | H : Py.bind ?e _ = Ok _ |- _ =>
      let E := fresh "E" in destruct e eqn:E; cbn [Py.bind] in H
  | H : (if ?b then _ else _) = Ok _ |- _ => destruct b eqn:?
  | H : (let (_, _) := ?p in _) = Ok _ |- _ => destruct p eqn:?
  end.

(** ** calculate.py: reference labels *)

Section Labels.
Import Calculate.

Lemma set_atm_nums_idx (atm_nums : list string) :
  forall i datum d,
    set_atm_nums i atm_nums datum = Ok d ->
    idx_1 d = idx_1 datum /\ idx_2 d = idx_2 datum /\ typ d = typ datum.
Proof.
  induction atm_nums as [|a rest IH]; simpl; intros i datum d H.
  - inversion H; subst; auto.
  - destruct (int a) as [n| |]; simpl in H; try discriminate.
    apply IH in H. simpl in H. exact H.
Qed.

(** Whatever the label, [lbl_to_data_attrs] leaves [idx_2] as it found
    it. *)
Lemma lbl_to_data_attrs_idx_2 (datum : Datum) (lbl : string) (d : Datum) :
  lbl_to_data_attrs datum lbl = Ok d -> idx_2 d = idx_2 datum.
Proof.
  unfold lbl_to_data_attrs. intros H. returned; simpl;
    try match goal with
        | E : set_atm_nums _ _ _ = Ok _ |- _ =>
            apply set_atm_nums_idx in E; simpl in E; apply E
        end; reflexivity.
Qed.

(** C7.  On the label [b_1_3-5], which encodes the two hyphen-joined
    indices 3 and 5, the code sets [typ] to [b] and [idx_1] to 3 and
    leaves [idx_2] unset, both when the label is parsed alone and when the
    line carrying it is read from a reference file; on the four-part label
    [q_1_1_6] it sets [typ] to [q], [idx_1] to 1 and [atm_1] to 6. *)
Theorem lbl_to_data_attrs_loses_second_index :
  (exists d, lbl_to_data_attrs Datum_init "b_1_3-5" = Ok d /\
             typ d = Some "b" /\ idx_1 d = Some 3%Z /\ idx_2 d = None) /\
  (exists d, read_reference_line "b_1_3-5 1.0 1.534" [] = Ok [d] /\
             lbl d = Some "b_1_3-5" /\ idx_1 d = Some 3%Z /\ idx_2 d = None) /\
  (exists d, lbl_to_data_attrs Datum_init "q_1_1_6" = Ok d /\
             typ d = Some "q" /\ idx_1 d = Some 1%Z /\ atm_1 d = Some 6%Z).
Proof.
  split; [|split]; eexists; (split; [vm_compute; reflexivity|]);
    repeat split; vm_compute; reflexivity.
Qed.

End Labels.

(** ** calculate.py: what the dispatch engine parses and raises *)

Section GaussianEnergies.
Import Calculate.
Context `{C : Calculate.Collaborators}.

Lemma parse_unless_cached_miss (test_key store_key : string) (k : Kind)
      (e : exn) (fr : Frame) :
  outs fr !! test_key = None ->
  parse_unless_cached test_key store_key k (Raise e) fr = Raise e.
Proof. intros H. unfold parse_unless_cached. rewrite H. reflexivity. Qed.

(** On its first file the Gaussian energy block finds the cache empty
    and evaluates the unbound [directory]. *)
Lemma gaussian_energies_first_file (com name_log : string)
      (group : list string) (groups : list (list string)) :
  is_in com ["ge"; "geo"] = true ->
  gaussian_energies com ((name_log :: group) :: groups) Frame_init
  = Raise NameError.
Proof.
  intros Hcom. unfold gaussian_energies. rewrite Hcom.
  assert (Hmiss : forall fr, outs fr = ∅ ->
            parse_unless_cached name_log name_log GaussLog
              (join_unbound_directory name_log) fr = Raise NameError).
  { intros fr Hfr. apply parse_unless_cached_miss. rewrite Hfr.
    apply lookup_empty. }
  destruct (String.eqb com "ge"); [|destruct (String.eqb com "geo")];
    cbn [enumerate enumerate_from for_each Py.bind];
    rewrite Hmiss by reflexivity; reflexivity.
Qed.

(** C4.  A command table whose only command is [ge] (or [geo]) and whose
    first group lists at least one file makes [collect_data] raise
    NameError, whatever the files hold: no record is returned. *)
Theorem collect_data_gaussian_energies_raises
        (inps : gmap string (option (Inp Index))) (direc : string)
        (sub_names : list string) (name_log : string)
        (group : list string) (groups : list (list string)) :
  collect_data [("ge", (name_log :: group) :: groups)] inps direc sub_names
  = Raise NameError /\
  collect_data [("geo", (name_log :: group) :: groups)] inps direc sub_names
  = Raise NameError.
Proof.
  split; unfold collect_data, collect_frame, collect_command;
    cbn [for_each];
    unfold reference_file, jaguar_energies, jaguar_charges,
      macromodel_charges, macromodel_energies, schrodinger_structures;
    cbn [String.eqb Ascii.eqb Bool.eqb is_in existsb orb Py.bind];
    rewrite gaussian_energies_first_file by reflexivity; reflexivity.
Qed.

End GaussianEnergies.

Section ParseCache.
Import Calculate Fixtures.

(** With the log already in the cache, and the two energies in it, the
    Gaussian energy block still raises: the datum goes to the unbound
    [data_list]. *)
Lemma gaussian_energies_cached_raises :
  gaussian_energies "ge" [["a.log"]]
    (mkFrame {[ "a.log" := gauss_adapter ]} [] None None [])
  = Raise NameError.
Proof. vm_compute. reflexivity. Qed.

(** C2.  One [mjeig] group naming the pair [a.mae,a.out] twice: the
    MacroModel log of [a.mae] goes through the parser twice, the Jaguar
    output once. *)
Theorem mjeig_parses_the_log_twice :
  exists fr,
    collect_frame [("mjeig", [["a.mae,a.out"; "a.mae,a.out"]])]
                  inps_a "." ["OPT"] = Ok fr /\
    parsed fr = [(MacroModelLog, "./a.log"); (JaguarOut, "./a.out");
                 (MacroModelLog, "./a.log")].
Proof. eexists. split; vm_compute; reflexivity. Qed.

End ParseCache.

(** ** calculate.py: the layout of the eigenmatrix records *)

Section LowerTriangle.
Import Calculate Notions.

Lemma tril_indices_square (n m : nat) :
  n <= m -> tril_indices n m = rows_below n.
Proof.
  intros Hnm. unfold tril_indices, rows_below.
  assert (H : forall l, (forall i, In i l -> i < n) ->
            flat_map (fun i => map (fun j => (i, j)) (seq 0 (min (S i) m))) l
            = flat_map (fun i => map (fun j => (i, j)) (seq 0 (S i))) l).
  { induction l as [|i l IH]; intros Hl; cbn [flat_map]; [reflexivity|].
    rewrite IH by (intros k Hk; apply Hl; right; exact Hk).
    replace (min (S i) m) with (S i); [reflexivity|].
    specialize (Hl i (or_introl eq_refl)). lia. }
  apply H. intros i Hi. apply in_seq in Hi. lia.
Qed.

Lemma rows_below_S (k : nat) :
  rows_below (S k) = rows_below k ++ map (fun j => (k, j)) (seq 0 (S k)).
Proof.
  assert (H : forall f : nat -> list (nat * nat),
            flat_map f (seq 0 (S k)) = flat_map f (seq 0 k) ++ f k).
  { intros f. rewrite seq_S, flat_map_app. simpl.
    rewrite app_nil_r. reflexivity. }
  unfold rows_below. apply H.
Qed.

Lemma rows_below_length (k : nat) : 2 * length (rows_below k) = k * (k + 1).
Proof.
  induction k as [|k IH]; [reflexivity|].
  rewrite rows_below_S, length_app, length_map, length_seq. lia.
Qed.

Lemma rows_below_In (k i j : nat) : In (i, j) (rows_below k) <-> j <= i < k.
Proof.
  unfold rows_below. rewrite in_flat_map. split.
  - intros (x & Hx & Hin). apply in_seq in Hx. apply in_map_iff in Hin.
    destruct Hin as (y & Heq & Hy). apply in_seq in Hy.
    inversion Heq; subst. lia.
  - intros H. exists i. split; [apply in_seq; lia|].
    apply in_map_iff. exists j. split; [reflexivity|apply in_seq; lia].
Qed.

Lemma row_sorted (k : nat) (l : list nat) :
  StronglySorted lt l -> StronglySorted row_major (map (fun j => (k, j)) l).
Proof.
  induction 1 as [|j l Hs IH Hall]; simpl; constructor; [exact IH|].
  apply List.Forall_forall. intros p Hp.
  apply in_map_iff in Hp. destruct Hp as (j' & <- & Hj').
  right. simpl. split; [reflexivity|].
  apply (proj1 (List.Forall_forall _ _) Hall), Hj'.
Qed.

Lemma seq_sorted (a n : nat) : StronglySorted lt (seq a n).
Proof.
  revert a. induction n as [|n IH]; intros a; simpl; constructor; [apply IH|].
  apply List.Forall_forall. intros x Hx. apply in_seq in Hx. lia.
Qed.

Lemma rows_below_sorted (k : nat) : StronglySorted row_major (rows_below k).
Proof.
  induction k as [|k IH]; [constructor|].
  rewrite rows_below_S. apply sorting.StronglySorted_app_2.
  - intros [i j] [i' j'] H1 H2.
    apply list_elem_of_In, rows_below_In in H1.
    apply list_elem_of_In, in_map_iff in H2. destruct H2 as (y & Heq & _).
    inversion Heq; subst. left. simpl. lia.
  - exact IH.
  - apply row_sorted, seq_sorted.
Qed.

Lemma entry_square (n : nat) (M : Matrix) (i j : nat) :
  square n M -> i < n -> j < n -> entry M (i, j) = Ok (at_ M (i, j)).
Proof.
  intros [Hlen Hrows] Hi Hj. unfold entry, getitem, at_. simpl.
  rewrite (nth_error_nth' M [] (n := i)) by lia. simpl.
  assert (Hr : length (nth i M []) = n).
  { apply (proj1 (List.Forall_forall _ _) Hrows), nth_In. lia. }
  rewrite (nth_error_nth' _ 0%Q (n := j)) by lia. reflexivity.
Qed.

Lemma map_result_total {A B} (f : A -> result B) (g : A -> B) (l : list A) :
  (forall x, In x l -> f x = Ok (g x)) -> map_result f l = Ok (map g l).
Proof.
  induction l as [|x l IH]; intros H; simpl; [reflexivity|].
  rewrite (H x) by (left; reflexivity). simpl.
  rewrite IH by (intros y Hy; apply H; right; exact Hy). reflexivity.
Qed.

Lemma combine_map_self {A B} (g : A -> B) (l : list A) :
  combine (map g l) l = map (fun x => (g x, x)) l.
Proof. induction l as [|x l IH]; simpl; [|rewrite IH]; reflexivity. Qed.

Context `{C : Calculate.Collaborators}.

Lemma eig_data_square (com src_1 : string) (src_2 : option string)
      (n : nat) (M : Matrix) :
  square n M ->
  eig_data com src_1 src_2 M = Ok (map (eig_datum com src_1 src_2 M) (rows_below n)).
Proof.
  intros HM. unfold eig_data, tril_indices_from.
  assert (Hidx : tril_indices (length M) (ncols M) = rows_below n).
  { destruct HM as [Hlen Hrows]. destruct M as [|r M'].
    - simpl in Hlen. subst n. reflexivity.
    - simpl. inversion Hrows; subst. simpl in *.
      rewrite tril_indices_square by lia. congruence. }
  rewrite Hidx.
  rewrite (map_result_total (entry M) (at_ M)).
  - cbn [Py.bind]. rewrite combine_map_self, map_map. f_equal.
    apply map_ext. intros [i j]. reflexivity.
  - intros [i j] Hin. apply rows_below_In in Hin.
    apply (entry_square n); [exact HM|lia|lia].
Qed.

(** The list comprehension that ends the eigenmatrix blocks.  For an
    N x N matrix it gives exactly
    N(N+1)/2 records: one for each position (row, column) with column <=
    row < N and none for any other, in row-major order, the record for
    (row, column) carrying the matrix entry there, [idx_1] = row + 1 and
    [idx_2] = column + 1, so that 1 <= idx_2 <= idx_1 <= N. *)
Theorem eig_data_lower_triangle (com src_1 : string) (src_2 : option string)
        (N : nat) (M : Matrix) :
  square N M ->
  exists positions : list (nat * nat),
    eig_data com src_1 src_2 M
    = Ok (map (eig_datum com src_1 src_2 M) positions) /\
    length (map (eig_datum com src_1 src_2 M) positions) = N * (N + 1) / 2 /\
    (forall i j, In (i, j) positions <-> j <= i < N) /\
    StronglySorted row_major positions /\
    Forall (fun d => exists r c, idx_1 d = Some r /\ idx_2 d = Some c /\
                                 (1 <= c <= r)%Z /\ (r <= Z.of_nat N)%Z)
           (map (eig_datum com src_1 src_2 M) positions).
Proof.
  intros HM. exists (rows_below N). split; [|split; [|split; [|split]]].
  - apply eig_data_square, HM.
  - rewrite length_map. pose proof (rows_below_length N) as Hlen.
    apply Nat.div_unique_exact; lia.
  - intros i j. apply rows_below_In.
  - apply rows_below_sorted.
  - apply List.Forall_forall. intros d Hd. apply in_map_iff in Hd.
    destruct Hd as ([i j] & <- & Hin). apply rows_below_In in Hin.
    eexists _, _. split; [reflexivity|]. split; [reflexivity|]. simpl. lia.
Qed.

End LowerTriangle.


Lemma eig_data_lower_triangle_witness :
  Notions.square 2 [[1; 0]; [0; 2]]%Q /\
  exists positions : list (nat * nat),
    Calculate.eig_data "jeigz" "a.in" (Some "a.out") [[1; 0]; [0; 2]]%Q
    = Ok (map (Notions.eig_datum "jeigz" "a.in" (Some "a.out") [[1; 0]; [0; 2]]%Q)
              positions) /\
    length (map (Notions.eig_datum "jeigz" "a.in" (Some "a.out") [[1; 0]; [0; 2]]%Q)
                positions) = 2 * (2 + 1) / 2 /\
    (forall i j, In (i, j) positions <-> j <= i < 2) /\
    StronglySorted Notions.row_major positions /\
    Forall (fun d => exists r c, idx_1 d = Some r /\ idx_2 d = Some c /\
                                 (1 <= c <= r)%Z /\ (r <= Z.of_nat 2)%Z)
           (map (Notions.eig_datum "jeigz" "a.in" (Some "a.out") [[1; 0]; [0; 2]]%Q)
                positions).
Proof.
  assert (H : Notions.square 2 [[1; 0]; [0; 2]]%Q).
  { split; [reflexivity|]. repeat constructor. }
  split; [exact H|].
  exact (eig_data_lower_triangle "jeigz" "a.in" (Some "a.out") 2 _ H).
Defined.

(** ** calculate.py: the command-to-file router *)

Section Router.
Import Calculate Notions.

(** The innermost statement of [sort_commands_by_filename]. *)
Let add (command : string) (sorted : gmap string (list string))
    (filename : string) : gmap string (list string) :=
  match sorted !! filename with
  | Some cs => <[filename := cs ++ [command]]> sorted
  | None => <[filename := [command]]> sorted
  end.

Lemma add_maps_to (command : string) (sorted : gmap string (list string))
      (filename f c : string) :
  maps_to (add command sorted filename) f c <->
  maps_to sorted f c \/ (c = command /\ f = filename).
Proof.
  unfold maps_to, add. destruct (sorted !! filename) as [cs0|] eqn:E.
  - destruct (decide (filename = f)) as [->|Hne].
    + rewrite lookup_insert_eq. split.
      * intros (cs & Hcs & Hin). inversion Hcs; subst.
        apply in_app_or in Hin. destruct Hin as [Hin|[<-|[]]]; eauto.
      * intros [(cs & Hcs & Hin)|[-> _]].
        -- rewrite E in Hcs. inversion Hcs; subst.
           eexists; split; [reflexivity|]. apply in_or_app; auto.
        -- eexists; split; [reflexivity|]. apply in_or_app; right; left; auto.
    + rewrite lookup_insert_ne by exact Hne. split.
      * intros H; left; exact H.
      * intros [H|[_ ->]]; [exact H|congruence].
  - destruct (decide (filename = f)) as [->|Hne].
    + rewrite lookup_insert_eq. split.
      * intros (cs & Hcs & Hin). inversion Hcs; subst.
        destruct Hin as [<-|[]]. right; auto.
      * intros [(cs & Hcs & Hin)|[-> _]].
        -- rewrite E in Hcs. discriminate.
        -- eexists; split; [reflexivity|]. left; reflexivity.
    + rewrite lookup_insert_ne by exact Hne. split.
      * intros H; left; exact H.
      * intros [H|[_ ->]]; [exact H|congruence].
Qed.

Lemma add_filenames (command : string) (filenames : list string) :
  forall (sorted : gmap string (list string)) (f c : string),
    maps_to (foldl (add command) sorted filenames) f c <->
    maps_to sorted f c \/ (c = command /\ In f filenames).
Proof.
  induction filenames as [|x l IH]; intros sorted f c; simpl.
  - tauto.
  - rewrite IH, add_maps_to. intuition (subst; auto).
Qed.

Lemma add_tokens (command : string) (tokens : list string) :
  forall (sorted : gmap string (list string)) (f c : string),
    maps_to (foldl (fun s token => foldl (add command) s (split_on "," token))
                   sorted tokens) f c <->
    maps_to sorted f c \/
    (c = command /\ exists token, In token tokens /\ In f (split_on "," token)).
Proof.
  induction tokens as [|t l IH]; intros sorted f c; simpl.
  - split; [auto|]. intros [H|(_ & t & [] & _)]. exact H.
  - rewrite IH, add_filenames. split.
    + intros [[H|[-> H]]|[-> (t' & Ht' & H)]]; eauto 7.
    + intros [H|[-> (t' & [<-|Ht'] & H)]]; eauto 7.
Qed.

Lemma sort_commands_by_filename_fold (commands : list (string * list (list string))) :
  forall (sorted : gmap string (list string)) (f c : string),
    maps_to
      (foldl (fun s (entry : string * list (list string)) =>
                let (command, groups_filenames) := entry in
                foldl (fun s token => foldl (add command) s (split_on "," token))
                      s (concat groups_filenames))
             sorted commands) f c <->
    maps_to sorted f c \/ listed commands c f.
Proof.
  induction commands as [|[command groups] l IH]; intros sorted f c; simpl.
  - split; [auto|]. intros [H|(g & gr & t & [] & _)]. exact H.
  - rewrite IH, add_tokens. unfold listed. split.
    + intros [[H|[-> (t & Ht & Hf)]]|(gs & g & t & Hin & Hg & Ht & Hf)].
      * left; exact H.
      * right. apply in_concat in Ht. destruct Ht as (g & Hg & Ht).
        exists groups, g, t. simpl. auto.
      * right. exists gs, g, t. simpl. auto.
    + intros [H|(gs & g & t & [Heq|Hin] & Hg & Ht & Hf)].
      * left; left; exact H.
      * inversion Heq; subst. left; right. split; [reflexivity|].
        exists t. split; [|exact Hf]. apply in_concat. eauto.
      * right. exists gs, g, t. auto.
Qed.

(** C9.  The inverted map sends a filename to a command exactly when
    the filename is a constituent of a token listed in some group of that
    command; hence re-grouping the inverted map by command gives, for each
    command, exactly the filenames listed under it in the table. *)
Theorem sort_commands_by_filename_membership
        (commands : list (string * list (list string)))
        (command filename : string) :
  (maps_to (sort_commands_by_filename commands) filename command <->
   listed commands command filename) /\
  (filename ∈ regroup (sort_commands_by_filename commands) command <->
   listed commands command filename).
Proof.
  assert (H : maps_to (sort_commands_by_filename commands) filename command <->
              listed commands command filename).
  { pose proof (sort_commands_by_filename_fold commands ∅ filename command)
      as Hfold.
    etransitivity; [exact Hfold|].
    split; [|auto]. intros [(cs & Hcs & _)|H]; [|exact H].
    rewrite lookup_empty in Hcs. discriminate. }
  split; [exact H|]. rewrite <- H. unfold regroup, maps_to.
  rewrite elem_of_dom. unfold is_Some. split.
  - intros (cs & Hcs). apply map_lookup_filter_Some in Hcs.
    destruct Hcs as [Hcs Hin]. simpl in Hin. exists cs. split; [exact Hcs|].
    apply list_elem_of_In, Hin.
  - intros (cs & Hcs & Hin). exists cs. apply map_lookup_filter_Some.
    split; [exact Hcs|]. simpl. apply list_elem_of_In, Hin.
Qed.

End Router.

(** ** calculate.py: charges and aliphatic hydrogens *)

Section Charges.
Import Calculate Notions.
Context `{C : Calculate.Collaborators}.

(** Summing hydrogens cannot fail when every aliphatic hydrogen index is a
    position of the structure. *)
Lemma sum_hydrogens_returns (s : Structure) (inds bonded : list Z) :
  (forall b, In b inds -> (1 <= b <= Z.of_nat (length (atoms s)))%Z) ->
  forall q, exists q', sum_hydrogens s inds bonded q = Ok q'.
Proof.
  intros Hinds. unfold sum_hydrogens.
  induction bonded as [|b l IH]; intros q; cbn [for_each]; [eauto|].
  destruct (existsb (Z.eqb b) inds) eqn:E.
  - apply existsb_exists in E. destruct E as (x & Hx & Heq).
    apply Z.eqb_eq in Heq. subst x. specialize (Hinds b Hx).
    unfold getitem_Z, getitem.
    replace (0 <=? b - 1)%Z with true by (symmetry; apply Z.leb_le; lia).
    destruct (nth_error (atoms s) (Z.to_nat (b - 1))) as [a|] eqn:En.
    + cbn [of_option Py.bind]. apply IH.
    + apply nth_error_None in En. lia.
  - cbn [Py.bind]. apply IH.
Qed.

(** The blocks of the Jaguar charges on a file that is in the cache and on
    one that is not. *)
Lemma jaguar_charges_cached (com filename : string) (fr : Frame)
      (mae : Adapter) (ss : list Structure) :
  is_in com ["jq"; "jqh"] = true ->
  outs fr !! filename = Some mae ->
  structures mae = Some ss ->
  jaguar_charges com [[filename]] fr
  = for_each (enumerate ss) (jaguar_charges_of com filename) fr.
Proof.
  intros Hcom Hout Hss. unfold jaguar_charges. rewrite Hcom.
  cbn [for_each Py.bind]. unfold parse_unless_cached. rewrite Hout.
  cbn [Py.bind]. unfold item. rewrite Hout. cbn [of_option Py.bind].
  rewrite Hss. cbn [attr of_option Py.bind].
  destruct (for_each (enumerate ss) (jaguar_charges_of com filename) fr);
    reflexivity.
Qed.

Lemma jaguar_charges_miss (com filename : string) (group : list string)
      (groups : list (list string)) (fr : Frame) :
  is_in com ["jq"; "jqh"] = true ->
  outs fr !! filename = None ->
  jaguar_charges com ((filename :: group) :: groups) fr = Raise NameError.
Proof.
  intros Hcom Hout. unfold jaguar_charges. rewrite Hcom.
  cbn [for_each Py.bind]. unfold parse_unless_cached. rewrite Hout.
  reflexivity.
Qed.

(** The loop over the atoms, which the block reaches on a file that is in
    the cache.  A structure made of a heavy atom of charge -0.30 and the two
    aliphatic hydrogens bonded to it, of charges 0.05 and 0.07, all three
    usable for charges: under [jqh] the loop over its atoms appends exactly
    one record, for the heavy atom, whose value equals -0.18; under [jq] it
    appends three records, one per atom, with the three charges. *)
Theorem jaguar_charges_fold_hydrogens
        (filename : string) (i : nat) (fr : Frame) (s : Structure)
        (heavy h1 h2 : Atom) :
  atoms s = [heavy; h1; h2] ->
  aliph_hyds s = [h1; h2] ->
  oid heavy <> oid h1 -> oid heavy <> oid h2 ->
  index h1 = 2%Z -> index h2 = 3%Z ->
  bonded_atom_indices heavy = [2; 3]%Z ->
  partial_charge heavy = (-0.30)%Q ->
  partial_charge h1 = 0.05%Q ->
  partial_charge h2 = 0.07%Q ->
  use_charge heavy = true -> use_charge h1 = true -> use_charge h2 = true ->
  (exists q,
     jaguar_charges_of "jqh" filename (i, s) fr
     = Ok (append (charge_datum "jqh" filename i heavy q) fr) /\
     (q == -0.18)%Q) /\
  jaguar_charges_of "jq" filename (i, s) fr
  = Ok (append (charge_datum "jq" filename i h2 0.07%Q)
          (append (charge_datum "jq" filename i h1 0.05%Q)
             (append (charge_datum "jq" filename i heavy (-0.30)%Q) fr))).
Proof.
  intros Hatoms Haliph Hne1 Hne2 Hi1 Hi2 Hbonded Hq Hq1 Hq2 Hu Hu1 Hu2.
  assert (Hinds : forall b, In b (map index (aliph_hyds s)) ->
                            (1 <= b <= Z.of_nat (length (atoms s)))%Z).
  { rewrite Haliph, Hatoms. simpl. rewrite Hi1, Hi2. intros b [<-|[<-|[]]]; lia. }
  assert (Hsum : sum_hydrogens s (map index (aliph_hyds s))
                   (bonded_atom_indices heavy) (partial_charge heavy)
                 = Ok (-0.30 + 0.05 + 0.07)%Q).
  { rewrite Hbonded, Haliph, Hq. unfold sum_hydrogens. rewrite Hatoms.
    cbn [map for_each]. rewrite Hi1, Hi2.
    replace (existsb (Z.eqb 2) [2; 3]%Z) with true by reflexivity.
    replace (existsb (Z.eqb 3) [2; 3]%Z) with true by reflexivity.
    replace (getitem_Z [heavy; h1; h2] (2 - 1)) with (Ok h1) by reflexivity.
    replace (getitem_Z [heavy; h1; h2] (3 - 1)) with (Ok h2) by reflexivity.
    cbn [Py.bind]. rewrite Hq1, Hq2. reflexivity. }
  destruct (sum_hydrogens_returns s (map index (aliph_hyds s))
              (bonded_atom_indices h1) Hinds (partial_charge h1)) as [q1 E1].
  destruct (sum_hydrogens_returns s (map index (aliph_hyds s))
              (bonded_atom_indices h2) Hinds (partial_charge h2)) as [q2 E2].
  assert (Hin0 : atom_in heavy (aliph_hyds s) = false).
  { rewrite Haliph. unfold atom_in. cbn [existsb].
    apply Nat.eqb_neq in Hne1, Hne2.
    rewrite (Nat.eqb_sym (oid h1)), (Nat.eqb_sym (oid h2)), Hne1, Hne2.
    reflexivity. }
  assert (Hin1 : atom_in h1 (aliph_hyds s) = true).
  { rewrite Haliph. unfold atom_in. cbn [existsb]. rewrite Nat.eqb_refl.
    reflexivity. }
  assert (Hin2 : atom_in h2 (aliph_hyds s) = true).
  { rewrite Haliph. unfold atom_in. cbn [existsb]. rewrite Nat.eqb_refl.
    apply Bool.orb_true_r. }
  split.
  - exists (-0.30 + 0.05 + 0.07)%Q. split; [|reflexivity].
    unfold jaguar_charges_of. rewrite Hatoms. cbn [for_each].
    unfold jaguar_charge. rewrite Hu, Hu1, Hu2.
    replace (String.eqb "jqh" "jqh") with true by reflexivity.
    replace (String.eqb "jqh" "jq") with false by reflexivity.
    rewrite Hsum, E1, E2, Hin0, Hin1, Hin2. reflexivity.
  - unfold jaguar_charges_of. rewrite Hatoms. cbn [for_each].
    unfold jaguar_charge. rewrite Hu, Hu1, Hu2, Hq, Hq1, Hq2.
    replace (String.eqb "jq" "jqh") with false by reflexivity.
    replace (String.eqb "jq" "jq") with true by reflexivity.
    reflexivity.
Qed.

End Charges.

Lemma jaguar_charges_fold_hydrogens_witness :
  (exists q,
     Calculate.jaguar_charges_of "jqh" "a.mae" (0, Fixtures.methylene)
                                 Calculate.Frame_init
     = Ok (Calculate.append
             (Notions.charge_datum "jqh" "a.mae" 0 Fixtures.heavy q)
             Calculate.Frame_init) /\
     (q == -0.18)%Q) /\
  Calculate.jaguar_charges_of "jq" "a.mae" (0, Fixtures.methylene)
                              Calculate.Frame_init
  = Ok (Calculate.append
          (Notions.charge_datum "jq" "a.mae" 0 Fixtures.hyd_2 0.07%Q)
          (Calculate.append
             (Notions.charge_datum "jq" "a.mae" 0 Fixtures.hyd_1 0.05%Q)
             (Calculate.append
                (Notions.charge_datum "jq" "a.mae" 0 Fixtures.heavy (-0.30)%Q)
                Calculate.Frame_init))).
Proof.
  apply (jaguar_charges_fold_hydrogens "a.mae" 0 Calculate.Frame_init
           Fixtures.methylene Fixtures.heavy Fixtures.hyd_1 Fixtures.hyd_2);
    solve [reflexivity | discriminate].
Defined.

(** ** calculate.py: the charge commands on a file that is not cached *)

Section ChargeCommands.
Import Calculate.
Context `{C : Calculate.Collaborators}.

(** C5.  A command table whose only command is [jqh] (or [jq]) and whose
    first group lists at least one file makes [collect_data] raise
    NameError, whatever the file holds: the file is not in the cache, and
    the path handed to the constructor is built from [directory], a name
    bound nowhere, where the Jaguar energy block builds it from the
    parameter [direc].  No charge record is returned, folded or not. *)
Theorem collect_data_jaguar_charges_raises
        (inps : gmap string (option (Inp Index))) (direc : string)
        (sub_names : list string) (filename : string)
        (group : list string) (groups : list (list string)) :
  collect_data [("jqh", (filename :: group) :: groups)] inps direc sub_names
  = Raise NameError /\
  collect_data [("jq", (filename :: group) :: groups)] inps direc sub_names
  = Raise NameError.
Proof.
  split; unfold collect_data, collect_frame, collect_command;
    cbn [for_each];
    unfold reference_file, jaguar_energies;
    cbn [String.eqb Ascii.eqb Bool.eqb is_in existsb orb Py.bind];
    rewrite jaguar_charges_miss by (reflexivity || apply lookup_empty);
    reflexivity.
Qed.

End ChargeCommands.

(** ** loop.py: fuel, and what a directive leaves alone *)

Section LoopFacts.
Import LoopPy.
Context `{C : LoopPy.Collaborators}.

Lemma opt_while_unfold (fuel : nat) (m : Mem) (self : Loop) (change : option Q) :
  opt_while (S fuel) m self change
  = if keep_going self change then
      r <- cycle fuel m self ;;
      let self' := with_score (score (snd r)) (snd r) in
      ch <- relative_change (score_prev self') (score self') ;;
      opt_while fuel (fst r) self' (Some ch)
    else Ok (m, self).
Proof. reflexivity. Qed.

Lemma run_lines_unfold (fuel : nat) (m : Mem) (self : Loop) (loc : Locals)
      (line : string) (rest : list string) :
  run_lines (S fuel) m self loc (line :: rest)
  = (r <- directive (opt_loop fuel) m self loc line rest ;;
     run_lines fuel (fst (fst (fst r))) (snd (fst (fst r))) (snd (fst r)) (snd r)).
Proof. reflexivity. Qed.

Lemma with_score_same (l : Loop) : with_score (score l) l = l.
Proof. destruct l; reflexivity. Qed.

Lemma directive_more_fuel
      (nested1 nested2 : Mem -> Loop -> result (Mem * Loop)) :
  (forall m l, definite (nested1 m l) -> nested2 m l = nested1 m l) ->
  forall m self loc line rest,
    definite (directive nested1 m self loc line rest) ->
    directive nested2 m self loc line rest = directive nested1 m self loc line rest.
Proof.
  intros Hn m self loc line rest. unfold directive, LOOP, definite.
  destruct (getitem (split line) 0) as [c0| |]; cbn [Py.bind]; try reflexivity.
  repeat (match goal with |- context [if ?b then _ else _] => destruct b end;
          try reflexivity).
  destruct (read_loop_lines rest) as [b| |]; cbn [Py.bind]; try reflexivity.
  destruct (getitem (split line) 1) as [c1| |]; cbn [Py.bind]; try reflexivity.
  destruct (float c1) as [conv| |]; cbn [Py.bind]; try reflexivity.
  intros Hd. rewrite Hn; [reflexivity|].
  unfold definite. intros E. rewrite E in Hd. apply Hd. reflexivity.
Qed.

Lemma more_fuel (fuel : nat) :
  (forall m self loc lines fuel',
      definite (run_lines fuel m self loc lines) -> fuel <= fuel' ->
      run_lines fuel' m self loc lines = run_lines fuel m self loc lines) /\
  (forall m self change fuel',
      definite (opt_while fuel m self change) -> fuel <= fuel' ->
      opt_while fuel' m self change = opt_while fuel m self change).
Proof.
  induction fuel as [|fuel [IHr IHo]].
  - split; intros; exfalso; match goal with H : definite _ |- _ => apply H end;
      reflexivity.
  - split.
    + intros m self loc lines fuel' Hd Hle.
      destruct fuel' as [|fuel']; [lia|]. apply Nat.succ_le_mono in Hle.
      destruct lines as [|line rest]; [reflexivity|].
      rewrite !run_lines_unfold in *.
      assert (Hdir : definite (directive (opt_loop fuel) m self loc line rest)).
      { intros E. apply Hd. rewrite E. reflexivity. }
      assert (Hn : forall m0 l0, definite (opt_loop fuel m0 l0) ->
                     opt_loop fuel' m0 l0 = opt_loop fuel m0 l0).
      { intros m0 l0 H0. apply IHo; [exact H0|exact Hle]. }
      rewrite (directive_more_fuel _ _ Hn _ _ _ _ _ Hdir).
      destruct (directive (opt_loop fuel) m self loc line rest) as [r| |];
        cbn [Py.bind] in *; try reflexivity.
      apply IHr; [exact Hd|exact Hle].
    + intros m self change fuel' Hd Hle.
      destruct fuel' as [|fuel']; [lia|]. apply Nat.succ_le_mono in Hle.
      rewrite !opt_while_unfold in *.
      destruct (keep_going self change); [|reflexivity].
      unfold cycle, run_loop_input in *.
      destruct (of_option TypeError (loop_lines (begin_cycle self))) as [ls| |];
        cbn [Py.bind] in *; try reflexivity.
      assert (Hrun : definite (run_lines fuel m
                       (take_score (score (begin_cycle self)) (begin_cycle self))
                       no_locals ls)).
      { intros E. apply Hd. rewrite E. reflexivity. }
      rewrite (IHr _ _ _ _ fuel' Hrun Hle).
      destruct (run_lines fuel m _ no_locals ls) as [r| |];
        cbn [Py.bind] in *; try reflexivity.
      destruct (relative_change _ _) as [ch| |]; cbn [Py.bind] in *;
        try reflexivity.
      apply IHo; [exact Hd|exact Hle].
Qed.

Lemma run_lines_more_fuel (fuel fuel' : nat) m self loc lines r :
  run_lines fuel m self loc lines = Ok r -> fuel <= fuel' ->
  run_lines fuel' m self loc lines = Ok r.
Proof.
  intros H Hle. rewrite <- H. apply (proj1 (more_fuel fuel)); [|exact Hle].
  unfold definite. rewrite H. discriminate.
Qed.

Lemma opt_while_more_fuel (fuel fuel' : nat) m self change r :
  opt_while fuel m self change = Ok r -> fuel <= fuel' ->
  opt_while fuel' m self change = Ok r.
Proof.
  intros H Hle. rewrite <- H. apply (proj2 (more_fuel fuel)); [|exact Hle].
  unfold definite. rewrite H. discriminate.
Qed.

Lemma cycle_more_fuel (fuel fuel' : nat) m self r :
  cycle fuel m self = Ok r -> fuel <= fuel' -> cycle fuel' m self = Ok r.
Proof.
  unfold cycle, run_loop_input. intros H Hle.
  destruct (of_option TypeError (loop_lines (begin_cycle self))) as [ls| |];
    cbn [Py.bind] in *; try discriminate.
  eapply run_lines_more_fuel; eassumption.
Qed.

Lemma keep_going_first (self : Loop) : keep_going self None = true.
Proof. unfold keep_going. destruct (score_prev self); reflexivity. Qed.

(** A result obtained with some fuel is the only one any fuel gives. *)
Lemma opt_loop_determined (fuel0 : nat) m self (res : result (Mem * Loop)) :
  opt_loop fuel0 m self = res -> definite res ->
  forall fuel r, opt_loop fuel m self = Ok r -> res = Ok r.
Proof.
  intros H0 Hd fuel r H. unfold opt_loop in *.
  destruct (Nat.le_ge_cases fuel fuel0) as [Hle|Hle].
  - rewrite <- H0. apply (opt_while_more_fuel fuel); assumption.
  - rewrite <- H, <- H0. symmetry.
    apply (proj2 (more_fuel fuel0)); [rewrite H0; exact Hd|exact Hle].
Qed.

Lemma run_loop_input_determined (fuel0 : nat) m self lines sc
      (res : result (Mem * Loop)) :
  run_loop_input fuel0 m self lines sc = res -> definite res ->
  forall fuel r, run_loop_input fuel m self lines sc = Ok r -> res = Ok r.
Proof.
  unfold run_loop_input. intros H0 Hd fuel r H.
  destruct (of_option TypeError lines) as [ls| |]; cbn [Py.bind] in *;
    try discriminate.
  destruct (Nat.le_ge_cases fuel fuel0) as [Hle|Hle].
  - rewrite <- H0. apply (run_lines_more_fuel fuel); assumption.
  - rewrite <- H, <- H0. symmetry.
    apply (proj1 (more_fuel fuel0)); [rewrite H0; exact Hd|exact Hle].
Qed.

End LoopFacts.

(** ** loop.py: the data sets are local to one call of run_loop_input *)

Section DataSets.
Import LoopPy LoopNotions.
Context `{C : LoopPy.Collaborators}.

(** A COMP directive with one of the two data sets unbound raises
    NameError, whatever the rest of the state. *)
Lemma COMP_unbound nested m self loc line rest :
  is_COMP line = true ->
  ref_conn loc = None \/ cal_conn loc = None ->
  directive nested m self loc line rest = Raise NameError.
Proof.
  unfold is_COMP, directive. intros Hcomp Hloc.
  destruct (split line) as [|c0 cols] eqn:Hs; [discriminate|].
  apply andb_prop in Hcomp. destruct Hcomp as [Hc0 Ho].
  apply String.eqb_eq in Hc0. subst c0.
  change (getitem ("COMP" :: cols) 0) with (Ok (A := string) "COMP").
  cbn [Py.bind].
  replace (String.eqb "COMP" "FFLD") with false by reflexivity.
  replace (String.eqb "COMP" "PARM") with false by reflexivity.
  replace (String.eqb "COMP" "LOOP") with false by reflexivity.
  replace (String.eqb "COMP" "RDAT") with false by reflexivity.
  replace (String.eqb "COMP" "CDAT") with false by reflexivity.
  replace (String.eqb "COMP" "COMP") with true by reflexivity.
  unfold COMP.
  destruct (index_o ("COMP" :: cols)) as [i|].
  - unfold getitem.
    destruct (nth_error ("COMP" :: cols) (i + 1)); [|discriminate].
    cbn [of_option Py.bind].
    destruct Hloc as [-> | ->]; [reflexivity|].
    destruct (ref_conn loc); reflexivity.
  - destruct Hloc as [-> | ->]; [reflexivity|].
    destruct (ref_conn loc); reflexivity.
Qed.

(** Only an RDAT directive binds [ref_conn] and only a CDAT directive
    binds [cal_conn]; a LOOP directive, whatever its body does, binds
    neither. *)
Lemma directive_binds nested m self loc line rest m' self' loc' rest' :
  directive nested m self loc line rest = Ok (m', self', loc', rest') ->
  (first_word line <> Some "RDAT" -> ref_conn loc' = ref_conn loc) /\
  (first_word line <> Some "CDAT" -> cal_conn loc' = cal_conn loc).
Proof.
  unfold directive, first_word, getitem.
  destruct (split line) as [|w cols]; [discriminate|].
  cbn [nth_error of_option Py.bind head].
  destruct (String.eqb w "FFLD"); [|destruct (String.eqb w "PARM");
    [|destruct (String.eqb w "LOOP");
      [|destruct (String.eqb w "RDAT") eqn:ER;
        [|destruct (String.eqb w "CDAT") eqn:EC;
          [|destruct (String.eqb w "COMP"); [|destruct (String.eqb w "GRAD")]]]]]].
  all: intros H.
  all: try (match type of H with
            | Py.bind ?e _ = _ => destruct e as [x| |] eqn:E; cbn [Py.bind] in H;
                                  try discriminate
            end).
  all: inversion H; subst; clear H.
  all: try (split; intros; reflexivity).
  - (* RDAT *)
    apply String.eqb_eq in ER. subst w.
    split; intros Hw; [contradiction Hw; reflexivity|].
    unfold RDAT in E. returned. reflexivity.
  - (* CDAT *)
    apply String.eqb_eq in EC. subst w.
    split; intros Hw; [|contradiction Hw; reflexivity].
    unfold CDAT in E. returned. reflexivity.
Qed.

Lemma runs_to_unbound tok (c c' : Config) :
  runs_to tok c c' ->
  (tok = "RDAT" -> ref_conn (snd (fst c)) = None ->
   ref_conn (snd (fst c')) = None) /\
  (tok = "CDAT" -> cal_conn (snd (fst c)) = None ->
   cal_conn (snd (fst c')) = None).
Proof.
  induction 1 as [c|fuel m self loc line rest [[[m1 self1] loc1] rest1] c' Hw Hd _ IH].
  - auto.
  - destruct (directive_binds _ _ _ _ _ _ _ _ _ _ Hd) as [Href Hcal].
    cbn [fst snd] in *. destruct IH as [IHr IHc]. split.
    + intros -> Hnone. apply IHr; [reflexivity|]. rewrite Href; assumption.
    + intros -> Hnone. apply IHc; [reflexivity|]. rewrite Hcal; assumption.
Qed.

(** What the call does once it has got somewhere where the next directive
    raises. *)
Lemma runs_to_raise tok (c c' : Config) (e : exn) :
  runs_to tok c c' ->
  (exists line rest,
      snd c' = line :: rest /\
      forall nested, directive nested (fst (fst (fst c'))) (snd (fst (fst c')))
                               (snd (fst c')) line rest = Raise e) ->
  exists fuel0, forall fuel, fuel0 <= fuel ->
    run_lines fuel (fst (fst (fst c))) (snd (fst (fst c))) (snd (fst c)) (snd c)
    = Raise e.
Proof.
  induction 1 as [[[[m self] loc] lines]
                 |fuel1 m self loc line rest [[[m1 self1] loc1] rest1] c' Hw Hd _ IH].
  - intros (line & rest & Hl & Hr). cbn [fst snd] in *. subst lines.
    exists 1. intros fuel Hle. destruct fuel as [|fuel]; [lia|].
    rewrite run_lines_unfold, Hr. reflexivity.
  - intros Hraise. destruct (IH Hraise) as [fuel0 Hfuel0]. cbn [fst snd] in *.
    exists (S (max fuel1 fuel0)). intros fuel Hle.
    destruct fuel as [|fuel]; [lia|]. rewrite run_lines_unfold.
    assert (Hn : forall m0 l0, definite (opt_loop fuel1 m0 l0) ->
                   opt_loop fuel m0 l0 = opt_loop fuel1 m0 l0).
    { intros m0 l0 H0. apply (proj2 (more_fuel fuel1)); [exact H0|lia]. }
    rewrite (directive_more_fuel _ _ Hn), Hd.
    + cbn [Py.bind fst snd]. apply Hfuel0. lia.
    + unfold definite. rewrite Hd. discriminate.
Qed.

Lemma runs_to_comp tok m self lines m' self' loc' comp rest' :
  tok = "RDAT" \/ tok = "CDAT" ->
  runs_to tok (m, self, no_locals, lines) (m', self', loc', comp :: rest') ->
  is_COMP comp = true ->
  exists fuel0, forall fuel, fuel0 <= fuel ->
    run_lines fuel m self no_locals lines = Raise NameError.
Proof.
  intros Htok Hruns Hcomp.
  apply (runs_to_raise tok _ _ NameError Hruns).
  exists comp, rest'. split; [reflexivity|]. intros nested. cbn [fst snd].
  apply COMP_unbound; [exact Hcomp|].
  destruct (runs_to_unbound tok _ _ Hruns) as [Hr Hc]. cbn [fst snd] in *.
  destruct Htok as [-> | ->]; [left; apply Hr|right; apply Hc]; reflexivity.
Qed.

(** C10.  Two statements.  (1) When a call of [run_loop_input] gets to a
    COMP directive by running directives none of which is an RDAT (or none
    of which is a CDAT), the call raises NameError: it starts with both data
    sets unbound and only its own RDAT and CDAT bind them.  (2) A LOOP
    directive whose body gets to a COMP in that way raises NameError as
    well, whatever data sets the enclosing call has bound.  (In both, any
    amount of fuel from some amount on.) *)
Theorem comp_needs_rdat_and_cdat_of_its_call :
  (forall tok m self lines sc m' self' loc' comp rest',
      tok = "RDAT" \/ tok = "CDAT" ->
      runs_to tok (m, take_score sc self, no_locals, lines)
                  (m', self', loc', comp :: rest') ->
      is_COMP comp = true ->
      exists fuel0, forall fuel, fuel0 <= fuel ->
        run_loop_input fuel m self (Some lines) sc = Raise NameError) /\
  (forall tok m self loc line rest c1 cols conv body after
          m' self' loc' comp rest',
      tok = "RDAT" \/ tok = "CDAT" ->
      split line = "LOOP" :: c1 :: cols -> float c1 = Ok conv ->
      read_loop_lines rest = Ok (body, after) ->
      runs_to tok (m, take_score (score self)
                        (begin_cycle (make_loop self conv body)),
                   no_locals, body)
                  (m', self', loc', comp :: rest') ->
      is_COMP comp = true ->
      exists fuel0, forall fuel, fuel0 <= fuel ->
        directive (opt_loop fuel) m self loc line rest = Raise NameError).
Proof.
  split.
  - intros tok m self lines sc m' self' loc' comp rest' Htok Hruns Hcomp.
    destruct (runs_to_comp _ _ _ _ _ _ _ _ _ Htok Hruns Hcomp) as [fuel0 H].
    exists fuel0. intros fuel Hle. unfold run_loop_input.
    cbn [of_option Py.bind]. apply H, Hle.
  - intros tok m self loc line rest c1 cols conv body after
           m' self' loc' comp rest' Htok Hs Hf Hread Hruns Hcomp.
    destruct (runs_to_comp _ _ _ _ _ _ _ _ _ Htok Hruns Hcomp) as [fuel0 H].
    exists (S fuel0). intros fuel Hle. destruct fuel as [|fuel]; [lia|].
    unfold directive. rewrite Hs.
    change (getitem ("LOOP" :: c1 :: cols) 0) with (Ok (A := string) "LOOP").
    cbn [Py.bind].
    replace (String.eqb "LOOP" "FFLD") with false by reflexivity.
    replace (String.eqb "LOOP" "PARM") with false by reflexivity.
    replace (String.eqb "LOOP" "LOOP") with true by reflexivity.
    unfold LOOP. rewrite Hread. cbn [Py.bind fst snd].
    change (getitem ("LOOP" :: c1 :: cols) 1) with (Ok c1).
    cbn [Py.bind]. rewrite Hf. cbn [Py.bind].
    unfold opt_loop. rewrite opt_while_unfold, keep_going_first.
    unfold cycle, run_loop_input.
    replace (loop_lines (begin_cycle (make_loop self conv body)))
      with (Some body) by reflexivity.
    replace (score (begin_cycle (make_loop self conv body)))
      with (score self) by reflexivity.
    cbn [of_option Py.bind]. rewrite H by lia. reflexivity.
Qed.

End DataSets.

Lemma comp_needs_rdat_and_cdat_of_its_call_witness :
  (exists fuel0, forall fuel, fuel0 <= fuel ->
      LoopPy.run_loop_input fuel (Fixtures.start []) LoopPy.Loop_init
        (Some ["RDAT -r ref.txt"; "COMP"]) None = Raise NameError) /\
  (exists fuel0, forall fuel, fuel0 <= fuel ->
      LoopPy.directive (LoopPy.opt_loop fuel) (Fixtures.start [])
        (LoopPy.with_score (Some 10%Q) LoopPy.Loop_init)
        (LoopPy.mkLocals (Some []) (Some []))
        "LOOP 0.02" ["COMP"; "END"] = Raise NameError).
Proof.
  split.
  - apply (proj1 comp_needs_rdat_and_cdat_of_its_call "CDAT"
             (Fixtures.start []) LoopPy.Loop_init
             ["RDAT -r ref.txt"; "COMP"] None
             (Fixtures.start [])
             (LoopPy.with_ref_args (Some ["-r"; "ref.txt"]) LoopPy.Loop_init)
             (LoopPy.mkLocals (Some []) None) "COMP" []).
    + right. reflexivity.
    + apply (LoopNotions.runs_to_step "CDAT" 0) with
        (c := (Fixtures.start [],
               LoopPy.with_ref_args (Some ["-r"; "ref.txt"]) LoopPy.Loop_init,
               LoopPy.mkLocals (Some []) None, ["COMP"])).
      * discriminate.
      * reflexivity.
      * apply LoopNotions.runs_to_here.
    + reflexivity.
  - apply (proj2 comp_needs_rdat_and_cdat_of_its_call "RDAT"
             (Fixtures.start []) (LoopPy.with_score (Some 10%Q) LoopPy.Loop_init)
             (LoopPy.mkLocals (Some []) (Some []))
             "LOOP 0.02" ["COMP"; "END"] "0.02" [] 0.02%Q ["COMP"] []
             (Fixtures.start [])
             (LoopPy.take_score (Some 10%Q)
                (LoopPy.begin_cycle
                   (LoopPy.make_loop
                      (LoopPy.with_score (Some 10%Q) LoopPy.Loop_init)
                      0.02%Q ["COMP"])))
             LoopPy.no_locals "COMP" []).
    + left. reflexivity.
    + reflexivity.
    + reflexivity.
    + reflexivity.
    + apply LoopNotions.runs_to_here.
    + reflexivity.
Defined.

(** ** loop.py: the convergence loop *)

Section Convergence.
Import LoopPy LoopNotions.
Context `{C : LoopPy.Collaborators}.

Lemma same_cycle_state_refl (a : Loop) : same_cycle_state a a.
Proof. repeat split. Qed.

Lemma same_cycle_state_trans (a b c : Loop) :
  same_cycle_state a b -> same_cycle_state b c -> same_cycle_state a c.
Proof.
  unfold same_cycle_state. intros (H1 & H2 & H3 & H4 & H5) (K1 & K2 & K3 & K4 & K5).
  repeat split; congruence.
Qed.

(** No directive touches the threshold, the cycle count, the lines or the
    previous score of the loop that runs it. *)
Lemma directive_same_cycle_state nested m self loc line rest m' self' loc' rest' :
  directive nested m self loc line rest = Ok (m', self', loc', rest') ->
  same_cycle_state self self'.
Proof.
  unfold directive, FFLD, PARM, LOOP, RDAT, CDAT, COMP, GRAD, alloc.
  intros H. returned;
    repeat match goal with
           | H : match ?x with _ => _ end = Ok _ |- _ =>
               destruct x eqn:?; try discriminate H
           end;
    returned; cbn [fst snd]; repeat split.
Qed.

Lemma run_lines_same_cycle_state (fuel : nat) :
  forall m self loc lines m' self',
    run_lines fuel m self loc lines = Ok (m', self') ->
    same_cycle_state self self'.
Proof.
  induction fuel as [|fuel IH]; intros m self loc lines m' self' H;
    [discriminate|].
  destruct lines as [|line rest].
  - inversion H; subst. apply same_cycle_state_refl.
  - rewrite run_lines_unfold in H.
    destruct (directive (opt_loop fuel) m self loc line rest)
      as [[[[m1 self1] loc1] rest1]| |] eqn:Hd; cbn [Py.bind fst snd] in H;
      try discriminate.
    eapply same_cycle_state_trans.
    + eapply directive_same_cycle_state; exact Hd.
    + eapply IH; exact H.
Qed.

(** What one cycle does to the attributes of the loop: the score it
    started with has become the previous score. *)
Lemma cycle_state (fuel : nat) m self m' self' :
  cycle fuel m self = Ok (m', self') ->
  convergence self' = convergence self /\
  current_cycle_num self' = current_cycle_num self + 1 /\
  loop_lines self' = loop_lines self /\
  score_prev self' = score self.
Proof.
  unfold cycle, run_loop_input. intros H.
  destruct (of_option TypeError (loop_lines (begin_cycle self))) as [ls| |];
    cbn [Py.bind] in H; try discriminate.
  apply run_lines_same_cycle_state in H.
  destruct H as (H1 & H2 & H3 & _ & H5).
  unfold take_score in *.
  destruct (truthy (score (begin_cycle self))); cbn in *; auto.
Qed.

Lemma relative_change_increase (p s : Q) :
  (0 < p)%Q -> (p < s)%Q ->
  exists ch, relative_change (Some p) (Some s) = Ok ch /\ (ch < 0)%Q.
Proof.
  intros Hp Hs. unfold relative_change.
  destruct (Qeq_bool p 0) eqn:E.
  - apply Qeq_bool_iff in E. rewrite E in Hp. exfalso. revert Hp. apply Qlt_irrefl.
  - eexists. split; [reflexivity|].
    apply Qlt_shift_div_r; [exact Hp|]. rewrite Qmult_0_l.
    apply (Qplus_lt_l _ _ s). ring_simplify. exact Hs.
Qed.

Lemma keep_going_below (self : Loop) (ch : Q) :
  (ch <= convergence self)%Q -> keep_going self (Some ch) = false \/ score_prev self = None.
Proof.
  intros H. unfold keep_going. destruct (score_prev self); [left|right; reflexivity].
  apply Qle_bool_iff in H. rewrite H. reflexivity.
Qed.

Lemma keep_going_above (self : Loop) (ch : Q) :
  (convergence self < ch)%Q -> keep_going self (Some ch) = true.
Proof.
  intros H. unfold keep_going. destruct (score_prev self); [|reflexivity].
  destruct (Qle_bool ch (convergence self)) eqn:E; [|reflexivity].
  apply Qle_bool_iff in E. exfalso. apply (Qlt_irrefl ch).
  eapply Qle_lt_trans; eassumption.
Qed.

(** One more cycle, then whatever the loop does from there. *)
Lemma opt_while_cycle (fuel fuel' : nat) m self change m' self' ch r :
  keep_going self change = true ->
  cycle fuel m self = Ok (m', self') ->
  relative_change (score_prev self') (score self') = Ok ch ->
  opt_while fuel' m' self' (Some ch) = Ok r ->
  opt_while (S (max fuel fuel')) m self change = Ok r.
Proof.
  intros Hk Hc Hch Ho. rewrite opt_while_unfold, Hk.
  rewrite (cycle_more_fuel fuel (max fuel fuel') m self _ Hc) by lia.
  cbn [Py.bind fst snd]. rewrite with_score_same, Hch. cbn [Py.bind].
  apply (opt_while_more_fuel fuel'); [exact Ho|lia].
Qed.

Lemma opt_while_stop (fuel : nat) m self change :
  keep_going self change = false ->
  opt_while (S fuel) m self change = Ok (m, self).
Proof. intros Hk. rewrite opt_while_unfold, Hk. reflexivity. Qed.

(** C6, as the code has it.  When a cycle of [opt_loop] ends with a score
    above the positive score it started from, the relative change is
    negative; with a threshold that is not negative the test of the [while]
    then fails and [opt_loop] returns with the state that cycle left: no
    further cycle is run. *)
Theorem opt_loop_stops_when_score_increases
        (fuel : nat) (m : Mem) (self : Loop) (change : option Q)
        (m' : Mem) (self' : Loop) (p s : Q) :
  keep_going self change = true ->
  cycle fuel m self = Ok (m', self') ->
  score self = Some p -> score self' = Some s ->
  (0 < p)%Q -> (p < s)%Q -> (0 <= convergence self)%Q ->
  (exists ch, relative_change (score_prev self') (score self') = Ok ch /\
              (ch < 0)%Q /\ keep_going self' (Some ch) = false) /\
  opt_while (S (S fuel)) m self change = Ok (m', self').
Proof.
  intros Hk Hc Hp Hs Hpos Hinc Hconv.
  destruct (cycle_state _ _ _ _ _ Hc) as (Hcv & _ & _ & Hprev).
  rewrite Hp in Hprev.
  destruct (relative_change_increase p s Hpos Hinc) as (ch & Hch & Hneg).
  assert (Hstop : keep_going self' (Some ch) = false).
  { destruct (keep_going_below self' ch) as [H|H]; [|exact H|congruence].
    rewrite Hcv. apply Qlt_le_weak. eapply Qlt_le_trans; eassumption. }
  rewrite Hprev, Hs. split; [exists ch; auto|].
  replace (S (S fuel)) with (S (max fuel (S fuel))) by lia.
  eapply opt_while_cycle; [exact Hk|exact Hc|rewrite Hprev, Hs; exact Hch|].
  apply opt_while_stop, Hstop.
Qed.

Lemma relative_change_ok (p s : Q) :
  ~ (p == 0)%Q -> relative_change (Some p) (Some s) = Ok ((p - s) / p)%Q.
Proof.
  intros Hp. unfold relative_change. destruct (Qeq_bool p 0) eqn:E; [|reflexivity].
  apply Qeq_bool_iff in E. contradiction.
Qed.

(** C1, as the code has it.  A loop with threshold 0.02 that is handed a
    score [s0] with (s0 - 10.0) / s0 > 0.02, and whose script yields 10.0,
    9.0 and 8.91 in its first three runs, returns from [opt_loop] with the
    state the third run left, after three cycles: the changes
    (s0 - 10.0) / s0 and (10.0 - 9.0) / 10.0 are above the threshold and
    (9.0 - 8.91) / 9.0 is not, so no fourth run takes place. *)
Theorem opt_loop_stops_after_third_score
        (m0 m1 m2 m3 : Mem) (self l1 l2 l3 : Loop) (s0 q1 q2 q3 : Q)
        (f1 f2 f3 : nat) :
  (convergence self == 0.02)%Q ->
  score self = Some s0 -> ~ (s0 == 0)%Q -> (0.02 < (s0 - 10.0) / s0)%Q ->
  cycle f1 m0 self = Ok (m1, l1) -> score l1 = Some q1 -> (q1 == 10.0)%Q ->
  cycle f2 m1 l1 = Ok (m2, l2) -> score l2 = Some q2 -> (q2 == 9.0)%Q ->
  cycle f3 m2 l2 = Ok (m3, l3) -> score l3 = Some q3 -> (q3 == 8.91)%Q ->
  exists fuel,
    opt_loop fuel m0 self = Ok (m3, l3) /\
    current_cycle_num l3 = current_cycle_num self + 3 /\
    score_prev l3 = Some q2.
Proof.
  intros Hconv Hs0 Hnz Hfirst Hc1 Hl1 Hq1 Hc2 Hl2 Hq2 Hc3 Hl3 Hq3.
  destruct (cycle_state _ _ _ _ _ Hc1) as (Hv1 & Hn1 & _ & Hp1).
  destruct (cycle_state _ _ _ _ _ Hc2) as (Hv2 & Hn2 & _ & Hp2).
  destruct (cycle_state _ _ _ _ _ Hc3) as (Hv3 & Hn3 & _ & Hp3).
  rewrite Hs0 in Hp1. rewrite Hl1 in Hp2. rewrite Hl2 in Hp3.
  assert (Hnz1 : ~ (q1 == 0)%Q).
  { rewrite Hq1. intros H. discriminate H. }
  assert (Hnz2 : ~ (q2 == 0)%Q).
  { rewrite Hq2. intros H. discriminate H. }
  exists (S (max f1 (S (max f2 (S (max f3 1)))))).
  split; [|split; [lia|exact Hp3]].
  unfold opt_loop.
  eapply opt_while_cycle;
    [apply keep_going_first | exact Hc1
    | rewrite Hp1, Hl1; apply relative_change_ok, Hnz | ].
  eapply opt_while_cycle;
    [ | exact Hc2 | rewrite Hp2, Hl2; apply relative_change_ok, Hnz1 | ].
  { apply keep_going_above. rewrite Hv1, Hconv, Hq1. exact Hfirst. }
  eapply opt_while_cycle;
    [ | exact Hc3 | rewrite Hp3, Hl3; apply relative_change_ok, Hnz2 | ].
  { apply keep_going_above. rewrite Hv2, Hv1, Hconv, Hq1, Hq2. reflexivity. }
  apply opt_while_stop.
  destruct (keep_going_below l3 ((q2 - q3) / q2)%Q) as [H|H];
    [|exact H|congruence].
  rewrite Hv3, Hv2, Hv1, Hconv, Hq2, Hq3. discriminate.
Qed.

End Convergence.

(** The loop of the example when it is handed 20.0: three cycles, and the
    fourth score is still waiting in the world. *)
Lemma opt_loop_stops_after_third_score_witness :
  exists fuel,
    LoopPy.opt_loop fuel (Fixtures.start Fixtures.four_scores)
                    (Fixtures.loop_002 (Some 20.0%Q))
    = Ok (Fixtures.mem [8.90%Q] [Some 10.0%Q; Some 9.0%Q; Some 8.91%Q],
          Fixtures.after_cycles 3 8.91%Q 9.0%Q) /\
    LoopPy.current_cycle_num
      (Fixtures.after_cycles 3 8.91%Q 9.0%Q)
    = LoopPy.current_cycle_num (Fixtures.loop_002 (Some 20.0%Q)) + 3 /\
    LoopPy.score_prev
      (Fixtures.after_cycles 3 8.91%Q 9.0%Q)
    = Some 9.0%Q.
Proof.
  apply (opt_loop_stops_after_third_score
           (Fixtures.start Fixtures.four_scores)
           (Fixtures.mem [9.0; 8.91; 8.90]%Q [Some 10.0%Q])
           (Fixtures.mem [8.91; 8.90]%Q [Some 10.0%Q; Some 9.0%Q])
           (Fixtures.mem [8.90%Q] [Some 10.0%Q; Some 9.0%Q; Some 8.91%Q])
           (Fixtures.loop_002 (Some 20.0%Q))
           (Fixtures.after_cycles 1 10.0%Q 20.0%Q)
           (Fixtures.after_cycles 2 9.0%Q 10.0%Q)
           (Fixtures.after_cycles 3 8.91%Q 9.0%Q)
           20.0%Q 10.0%Q 9.0%Q 8.91%Q 3 3 3);
    solve [reflexivity | discriminate].
Defined.

(** The same loop when it is handed 10.0: it returns after the cycle that
    yields 10.0, and no amount of fuel makes it return otherwise.  Handed
    nothing, it never returns: the first cycle ends in a TypeError. *)
Lemma opt_loop_four_scores_first_cycle :
  LoopPy.opt_loop 10 (Fixtures.start Fixtures.four_scores)
                  (Fixtures.loop_002 (Some 10.0%Q))
  = Ok (Fixtures.mem [9.0; 8.91; 8.90]%Q [Some 10.0%Q],
        Fixtures.after_cycles 1 10.0%Q 10.0%Q) /\
  (forall fuel r,
      LoopPy.opt_loop fuel (Fixtures.start Fixtures.four_scores)
                      (Fixtures.loop_002 (Some 10.0%Q)) = Ok r ->
      LoopPy.score (snd r) = Some 10.0%Q /\
      LoopPy.current_cycle_num (snd r) = 1 /\
      LoopPy.world (fst r) = [9.0; 8.91; 8.90]%Q) /\
  LoopPy.opt_loop 10 (Fixtures.start Fixtures.four_scores)
                  (Fixtures.loop_002 None)
  = Raise TypeError /\
  (forall fuel r,
      LoopPy.opt_loop fuel (Fixtures.start Fixtures.four_scores)
                      (Fixtures.loop_002 None) <> Ok r).
Proof.
  assert (H1 : LoopPy.opt_loop 10 (Fixtures.start Fixtures.four_scores)
                 (Fixtures.loop_002 (Some 10.0%Q))
               = Ok (Fixtures.mem [9.0; 8.91; 8.90]%Q [Some 10.0%Q],
                     Fixtures.after_cycles 1 10.0%Q 10.0%Q))
    by (vm_compute; reflexivity).
  assert (H2 : LoopPy.opt_loop 10 (Fixtures.start Fixtures.four_scores)
                 (Fixtures.loop_002 None) = Raise TypeError)
    by (vm_compute; reflexivity).
  split; [exact H1|]. split; [|split; [exact H2|]].
  - intros fuel r H.
    apply (opt_loop_determined 10 _ _ _ H1) in H; [|discriminate].
    inversion H; subst. repeat split.
  - intros fuel r H.
    apply (opt_loop_determined 10 _ _ _ H2) in H; [|discriminate].
    discriminate H.
Qed.

Lemma opt_loop_stops_when_score_increases_witness :
  (exists ch,
      LoopPy.relative_change (Some 10.0%Q) (Some 11.0%Q) = Ok ch /\
      (ch < 0)%Q /\
      LoopPy.keep_going
        (Fixtures.after_cycles 1 11.0%Q 10.0%Q)
        (Some ch) = false) /\
  LoopPy.opt_while 5 (Fixtures.start [11.0; 5.0]%Q)
                   (Fixtures.loop_002 (Some 10.0%Q)) None
  = Ok (Fixtures.mem [5.0%Q] [Some 11.0%Q],
        Fixtures.after_cycles 1 11.0%Q 10.0%Q).
Proof.
  apply (opt_loop_stops_when_score_increases 3
           (Fixtures.start [11.0; 5.0]%Q) (Fixtures.loop_002 (Some 10.0%Q)) None
           (Fixtures.mem [5.0%Q] [Some 11.0%Q])
           (Fixtures.after_cycles 1 11.0%Q 10.0%Q)
           10.0%Q 11.0%Q);
    solve [reflexivity | discriminate].
Defined.

(** Handed 10.0, with a script that yields 11.0 and then 5.0: the loop
    returns after the cycle in which the score went up, 5.0 is never asked
    for, and no amount of fuel makes it run a second cycle. *)
Lemma opt_loop_returns_on_increase :
  LoopPy.opt_loop 10 (Fixtures.start [11.0; 5.0]%Q)
                  (Fixtures.loop_002 (Some 10.0%Q))
  = Ok (Fixtures.mem [5.0%Q] [Some 11.0%Q],
        Fixtures.after_cycles 1 11.0%Q 10.0%Q) /\
  (forall fuel r,
      LoopPy.opt_loop fuel (Fixtures.start [11.0; 5.0]%Q)
                      (Fixtures.loop_002 (Some 10.0%Q)) = Ok r ->
      LoopPy.current_cycle_num (snd r) = 1 /\
      LoopPy.score_prev (snd r) = Some 10.0%Q /\
      LoopPy.score (snd r) = Some 11.0%Q).
Proof.
  assert (H1 : LoopPy.opt_loop 10 (Fixtures.start [11.0; 5.0]%Q)
                 (Fixtures.loop_002 (Some 10.0%Q))
               = Ok (Fixtures.mem [5.0%Q] [Some 11.0%Q],
                     Fixtures.after_cycles 1 11.0%Q 10.0%Q))
    by (vm_compute; reflexivity).
  split; [exact H1|].
  intros fuel r H.
  apply (opt_loop_determined 10 _ _ _ H1) in H; [|discriminate].
  inversion H; subst. repeat split.
Qed.

(** ** loop.py: what a nested loop shares with the enclosing one *)

Section NestedLoops.
Import LoopPy LoopNotions.
Context `{C : LoopPy.Collaborators}.

Lemma keeps_objects_refl (n : nat) (m : Mem) : keeps_objects n m m.
Proof. split; [reflexivity|lia]. Qed.

Lemma keeps_objects_trans (n : nat) (m1 m2 m3 : Mem) :
  keeps_objects n m1 m2 -> keeps_objects n m2 m3 -> keeps_objects n m1 m3.
Proof. intros [H1 H2] [K1 K2]. split; [congruence|lia]. Qed.

Lemma keeps_objects_world (n : nat) (m : Mem) (w : World) :
  keeps_objects n m (with_world w m).
Proof. split; [reflexivity|simpl; lia]. Qed.

Lemma alloc_keeps_objects (n : nat) (m : Mem) (f : FF) :
  n <= length (ffs m) ->
  keeps_objects n m (fst (alloc f m)) /\ fresh_from n (Some (snd (alloc f m))).
Proof.
  intros Hn. unfold alloc, keeps_objects. cbn [fst snd ffs fresh_from].
  rewrite take_app_le by exact Hn. rewrite length_app. repeat split; lia.
Qed.

Lemma store_keeps_objects (n a : nat) (m : Mem) (f : FF) :
  n <= a -> keeps_objects n m (store a f m).
Proof.
  intros Hn. unfold store, keeps_objects. cbn [ffs].
  rewrite take_insert_ge by exact Hn. rewrite length_insert. split; [reflexivity|lia].
Qed.

Lemma FFLD_stays_off m self cols m' self' n :
  FFLD m self cols = Ok (m', self') ->
  n <= length (ffs m) -> fresh_from n (ff self) ->
  keeps_objects n m m' /\ fresh_from n (ff self').
Proof.
  unfold FFLD. intros H Hn Hf.
  destruct (getitem cols 1) as [c1| |]; cbn [Py.bind] in H; try discriminate.
  destruct (String.eqb c1 "read").
  - destruct (getitem cols 2) as [c2| |]; cbn [Py.bind] in H; try discriminate.
    destruct (import_ff (world m) c2) as [f| |]; cbn [Py.bind] in H;
      try discriminate.
    destruct (alloc_keeps_objects n m f Hn) as [Hk Hfr].
    unfold alloc in *. cbn [fst snd] in *.
    destruct (readlines _ c2) as [ls| |]; cbn [Py.bind] in H; try discriminate.
    destruct (String.eqb c1 "write").
    + returned. split; [|exact Hfr].
      eapply keeps_objects_trans; [exact Hk|apply keeps_objects_world].
    + returned. split; [exact Hk|exact Hfr].
  - cbn [Py.bind] in H. destruct (String.eqb c1 "write").
    + returned. split; [apply keeps_objects_world|exact Hf].
    + returned. split; [apply keeps_objects_refl|exact Hf].
Qed.

Lemma PARM_stays_off m self cols m' self' n :
  PARM m self cols = Ok (m', self') ->
  n <= length (ffs m) -> fresh_from n (ff self) ->
  keeps_objects n m m' /\ fresh_from n (ff self').
Proof.
  unfold PARM. intros H Hn Hf. returned.
  destruct (ff self) as [r|] eqn:Er; [|discriminate].
  returned. split; [|rewrite Er; exact Hf].
  apply store_keeps_objects. exact Hf.
Qed.

Lemma GRAD_stays_off m self loc m' self' n :
  GRAD m self loc = Ok (m', self') ->
  n <= length (ffs m) -> fresh_from n (ff self) ->
  keeps_objects n m m' /\ fresh_from n (ff self').
Proof.
  unfold GRAD. intros H Hn Hf.
  destruct (local (ref_conn loc)) as [ref| |]; cbn [Py.bind] in H;
    try discriminate.
  match type of H with
  | Py.bind ?e _ = _ => destruct e as [f0| |]; cbn [Py.bind] in H;
                        try discriminate
  end.
  destruct (Gradient_run _ f0 _ _ ref) as [p| |]; cbn [Py.bind] in H;
    try discriminate.
  destruct (alloc_keeps_objects n (with_world (fst p) m) (snd p) Hn) as [Hk Hfr].
  unfold alloc in *. cbn [fst snd] in *. returned.
  split; [|exact Hfr].
  eapply keeps_objects_trans; [apply (keeps_objects_world n m (fst p))|exact Hk].
Qed.

Lemma directive_stays_off nested :
  stays_off nested ->
  forall m self loc line rest m' self' loc' rest' n,
    directive nested m self loc line rest = Ok (m', self', loc', rest') ->
    n <= length (ffs m) -> fresh_from n (ff self) ->
    keeps_objects n m m' /\ fresh_from n (ff self').
Proof.
  intros Hnested m self loc line rest m' self' loc' rest' n H Hn Hf.
  unfold directive in H.
  destruct (getitem (split line) 0) as [c0| |]; cbn [Py.bind] in H;
    try discriminate.
  destruct (String.eqb c0 "FFLD").
  { destruct (FFLD m self (split line)) as [[m1 l1]| |] eqn:E;
      cbn [Py.bind fst snd] in H; try discriminate.
    returned. eapply FFLD_stays_off; eassumption. }
  destruct (String.eqb c0 "PARM").
  { destruct (PARM m self (split line)) as [[m1 l1]| |] eqn:E;
      cbn [Py.bind fst snd] in H; try discriminate.
    returned. eapply PARM_stays_off; eassumption. }
  destruct (String.eqb c0 "LOOP").
  { unfold LOOP in H. returned. cbn [fst snd].
    match goal with
    | E : nested m ?l = Ok ?r |- _ =>
        destruct r as [m1 l1];
        destruct (Hnested m l m1 l1 n E Hn I) as [Hk _]
    end.
    split; [exact Hk|exact Hf]. }
  destruct (String.eqb c0 "RDAT").
  { unfold RDAT in H. returned. cbn [fst snd].
    split; [apply keeps_objects_world|exact Hf]. }
  destruct (String.eqb c0 "CDAT").
  { unfold CDAT in H. returned. cbn [fst snd].
    split; [apply keeps_objects_world|exact Hf]. }
  destruct (String.eqb c0 "COMP").
  { unfold COMP in H. destruct (index_o (split line)); returned; cbn [fst snd].
    - split; [apply keeps_objects_world|exact Hf].
    - split; [apply keeps_objects_refl|exact Hf]. }
  destruct (String.eqb c0 "GRAD").
  { destruct (GRAD m self loc) as [[m1 l1]| |] eqn:E;
      cbn [Py.bind fst snd] in H; try discriminate.
    returned. eapply GRAD_stays_off; eassumption. }
  returned. split; [apply keeps_objects_refl|exact Hf].
Qed.

(** A loop that starts off the first [n] objects stays off them, however
    deep the loops nested in it. *)
Lemma stays_off_fuel (fuel : nat) :
  (forall loc lines, stays_off (fun m l => run_lines fuel m l loc lines)) /\
  (forall change, stays_off (fun m l => opt_while fuel m l change)).
Proof.
  induction fuel as [|fuel [IHr IHo]].
  - split; intros; intros m l m' l' n H; discriminate H.
  - split.
    + intros loc lines m self m' self' n H Hn Hf.
      destruct lines as [|line rest].
      * inversion H; subst. split; [apply keeps_objects_refl|exact Hf].
      * rewrite run_lines_unfold in H.
        destruct (directive (opt_loop fuel) m self loc line rest)
          as [[[[m1 self1] loc1] rest1]| |] eqn:Hd; cbn [Py.bind fst snd] in H;
          try discriminate.
        destruct (directive_stays_off (opt_loop fuel) (IHo None)
                    _ _ _ _ _ _ _ _ _ n Hd Hn Hf) as [Hk1 Hf1].
        assert (Hn1 : n <= length (ffs m1)) by (destruct Hk1; lia).
        destruct (IHr loc1 rest1 m1 self1 m' self' n H Hn1 Hf1) as [Hk2 Hf2].
        split; [eapply keeps_objects_trans; eassumption|exact Hf2].
    + intros change m self m' self' n H Hn Hf.
      rewrite opt_while_unfold in H.
      destruct (keep_going self change).
      * unfold cycle, run_loop_input in H.
        destruct (of_option TypeError (loop_lines (begin_cycle self)))
          as [ls| |]; cbn [Py.bind] in H; try discriminate.
        destruct (run_lines fuel m _ no_locals ls) as [[m1 self1]| |] eqn:Hr;
          cbn [Py.bind fst snd] in H; try discriminate.
        destruct (relative_change _ _) as [ch| |]; cbn [Py.bind] in H;
          try discriminate.
        assert (Hf0 : fresh_from n
                        (ff (take_score (score (begin_cycle self))
                                        (begin_cycle self)))).
        { unfold take_score. destruct (truthy _); exact Hf. }
        destruct (IHr no_locals ls m _ m1 self1 n Hr Hn Hf0) as [Hk1 Hf1].
        assert (Hn1 : n <= length (ffs m1)) by (destruct Hk1; lia).
        destruct (IHo (Some ch) m1 _ m' self' n H Hn1 Hf1) as [Hk2 Hf2].
        split; [eapply keeps_objects_trans; eassumption|exact Hf2].
      * inversion H; subst. split; [apply keeps_objects_refl|exact Hf].
Qed.

(** What the LOOP block hands over.  When the block of a LOOP directive
    returns: the nested loop was a new Loop with no force field (nor force-field
    lines or arguments), given only the threshold, the lines up to END and
    the score of the enclosing loop; the enclosing loop is as it was except
    that its score is the final score of the nested loop; and every
    force-field object that existed before the directive is unchanged. *)
Theorem nested_loop_is_handed_the_score_only
        (fuel : nat) (m : Mem) (self : Loop) (cols rest : list string)
        (m' : Mem) (self' : Loop) (rest' : list string) :
  LOOP (opt_loop fuel) m self cols rest = Ok (m', self', rest') ->
  (exists conv body loop',
      read_loop_lines rest = Ok (body, rest') /\
      opt_loop fuel m (make_loop self conv body) = Ok (m', loop') /\
      ff (make_loop self conv body) = None /\
      ff_lines (make_loop self conv body) = None /\
      ff_args (make_loop self conv body) = None /\
      score (make_loop self conv body) = score self /\
      self' = with_score (score loop') self) /\
  ff self' = ff self /\
  take (length (ffs m)) (ffs m') = ffs m.
Proof.
  unfold LOOP. intros H.
  destruct (read_loop_lines rest) as [[body rest1]| |]; cbn [Py.bind fst snd] in H;
    try discriminate.
  destruct (getitem cols 1) as [c1| |]; cbn [Py.bind] in H; try discriminate.
  destruct (float c1) as [conv| |]; cbn [Py.bind] in H; try discriminate.
  destruct (opt_loop fuel m (make_loop self conv body)) as [[m1 l1]| |] eqn:E;
    cbn [Py.bind fst snd] in H; try discriminate.
  inversion H; subst; clear H.
  destruct (proj2 (stays_off_fuel fuel) None m _ m' l1 (length (ffs m))
                  E (Nat.le_refl _) I) as [[Hk _] _].
  split; [|split; [reflexivity|]].
  - exists conv, body, l1. repeat split; try reflexivity. exact E.
  - rewrite Hk. apply take_ge. lia.
Qed.

End NestedLoops.

Lemma nested_loop_is_handed_the_score_only_witness :
  (exists conv body loop',
      LoopPy.read_loop_lines ["RDAT -r ref.txt"; "GRAD"; "END"; "COMP"]
      = Ok (body, ["COMP"]) /\
      LoopPy.opt_loop 10 (Fixtures.mem [9.0; 8.91; 8.90]%Q [None])
        (LoopPy.make_loop
           (LoopPy.with_ff (Some 0) (LoopPy.with_score (Some 10.0%Q) LoopPy.Loop_init))
           conv body)
      = Ok (Fixtures.mem [8.90%Q] [None; Some 9.0%Q; Some 8.91%Q], loop') /\
      LoopPy.ff (LoopPy.make_loop
           (LoopPy.with_ff (Some 0) (LoopPy.with_score (Some 10.0%Q) LoopPy.Loop_init))
           conv body) = None /\
      LoopPy.ff_lines (LoopPy.make_loop
           (LoopPy.with_ff (Some 0) (LoopPy.with_score (Some 10.0%Q) LoopPy.Loop_init))
           conv body) = None /\
      LoopPy.ff_args (LoopPy.make_loop
           (LoopPy.with_ff (Some 0) (LoopPy.with_score (Some 10.0%Q) LoopPy.Loop_init))
           conv body) = None /\
      LoopPy.score (LoopPy.make_loop
           (LoopPy.with_ff (Some 0) (LoopPy.with_score (Some 10.0%Q) LoopPy.Loop_init))
           conv body) = Some 10.0%Q /\
      LoopPy.with_ff (Some 0) (LoopPy.with_score (Some 8.91%Q) LoopPy.Loop_init)
      = LoopPy.with_score (LoopPy.score loop')
          (LoopPy.with_ff (Some 0) (LoopPy.with_score (Some 10.0%Q) LoopPy.Loop_init))) /\
  LoopPy.ff (LoopPy.with_ff (Some 0) (LoopPy.with_score (Some 8.91%Q) LoopPy.Loop_init))
  = Some 0 /\
  take 1 [None; Some 9.0%Q; Some 8.91%Q] = [None (A := Q)].
Proof.
  apply (nested_loop_is_handed_the_score_only 10
           (Fixtures.mem [9.0; 8.91; 8.90]%Q [None])
           (LoopPy.with_ff (Some 0) (LoopPy.with_score (Some 10.0%Q) LoopPy.Loop_init))
           ["LOOP"; "0.02"] ["RDAT -r ref.txt"; "GRAD"; "END"; "COMP"]
           (Fixtures.mem [8.90%Q] [None; Some 9.0%Q; Some 8.91%Q])
           (LoopPy.with_ff (Some 0) (LoopPy.with_score (Some 8.91%Q) LoopPy.Loop_init))
           ["COMP"]).
  vm_compute. reflexivity.
Defined.

(** C3.  After [FFLD read], a [PARM] line at the outer level trims the
    force field that was read; the same line inside a LOOP that follows the
    same [FFLD read] raises AttributeError and returns for no amount of
    fuel.  The nested loop is made with the threshold, the lines and the
    score of the enclosing loop and without its force field, so that it
    cannot operate on the force-field object of the enclosing loop. *)
Lemma nested_loop_has_no_force_field :
  LoopPy.run_loop_input 10 (Fixtures.start []) LoopPy.Loop_init
    (Some ["FFLD read a.fld"; "PARM p.txt"]) None
  = Ok (Fixtures.mem [] [None],
        LoopPy.with_ff_lines (Some []) (LoopPy.with_ff (Some 0) LoopPy.Loop_init)) /\
  LoopPy.run_loop_input 10 (Fixtures.start []) LoopPy.Loop_init
    (Some ["FFLD read a.fld"; "LOOP 0.02"; "PARM p.txt"; "END"]) None
  = Raise AttributeError /\
  (forall fuel r,
      LoopPy.run_loop_input fuel (Fixtures.start []) LoopPy.Loop_init
        (Some ["FFLD read a.fld"; "LOOP 0.02"; "PARM p.txt"; "END"]) None
      <> Ok r) /\
  (forall conv body,
      LoopPy.ff (LoopPy.make_loop
                   (LoopPy.with_ff_lines (Some [])
                      (LoopPy.with_ff (Some 0) LoopPy.Loop_init)) conv body)
      = None).
Proof.
  assert (H2 : LoopPy.run_loop_input 10 (Fixtures.start []) LoopPy.Loop_init
                 (Some ["FFLD read a.fld"; "LOOP 0.02"; "PARM p.txt"; "END"]) None
               = Raise AttributeError)
    by (vm_compute; reflexivity).
  split; [vm_compute; reflexivity|]. split; [exact H2|]. split.
  - intros fuel r H.
    apply (run_loop_input_determined 10 _ _ _ _ _ H2) in H; [|discriminate].
    discriminate H.
  - intros conv body. reflexivity.
Qed.

(** ** calculate.py: the eigenmatrix blocks on the example disk *)

Section EigenBlocks.
Import Calculate Notions Fixtures.

(** [np.diag] of a vector is square, so the layout above is that of the
    records of [geigz], and of [geigz2] and [jeigz] after the off-diagonal
    entries were dropped. *)
Lemma diag_of_vector_square (v : list Q) :
  square (length v) (diag_of_vector v).
Proof.
  unfold square, diag_of_vector. split.
  - rewrite length_map, length_seq. reflexivity.
  - apply List.Forall_forall. intros r Hr. apply in_map_iff in Hr.
    destruct Hr as (i & <- & _). rewrite length_map, length_seq. reflexivity.
Qed.

(** One [mjeig] pair on the example disk, whose MacroModel log holds a
    2 x 2 Hessian: three records, for (1,1), (2,1) and (2,2). *)
Lemma collect_data_mjeig_layout :
  exists d1 d2 d3,
    collect_data [("mjeig", [["a.mae,a.out"]])] inps_a "." ["OPT"]
    = Ok [d1; d2; d3] /\
    map (fun d => (idx_1 d, idx_2 d)) [d1; d2; d3]
    = [(Some 1, Some 1); (Some 2, Some 1); (Some 2, Some 2)]%Z /\
    map val [d1; d2; d3] = [Some 1; Some 0; Some 2]%Q.
Proof.
  eexists _, _, _. split; [vm_compute; reflexivity|].
  split; vm_compute; reflexivity.
Qed.

End EigenBlocks.

(** ** calculate.py: the eigenmatrix commands, from the table to the
    records *)

Section EigenCommands.
Import Calculate Notions.
Context `{C : Calculate.Collaborators}.

(** C8.  A command table whose only command is [geigz] and whose first
    group lists at least one file makes [collect_data] raise NameError,
    whatever the file holds: the log is not in the cache, and the path
    handed to the constructor is built from [directory], a name bound
    nowhere, where the [jeigz] block builds it from the parameter
    [direc].  No record of the lower triangle is returned. *)
Theorem collect_data_gaussian_eigenmatrix_raises
        (inps : gmap string (option (Inp Index))) (direc : string)
        (sub_names : list string) (name_log : string)
        (group : list string) (groups : list (list string)) :
  collect_data [("geigz", (name_log :: group) :: groups)] inps direc sub_names
  = Raise NameError.
Proof.
  unfold collect_data, collect_frame, collect_command. cbn [for_each].
  unfold reference_file, jaguar_energies, jaguar_charges,
    macromodel_charges, macromodel_energies, schrodinger_structures,
    gaussian_energies, gaussian_eigenmatrix.
  cbn [String.eqb Ascii.eqb Bool.eqb is_in existsb orb Py.bind for_each].
  unfold parse_unless_cached. cbn [outs Frame_init]. rewrite lookup_empty.
  reflexivity.
Qed.

(** Reached through the cache, the [geigz] block gives the lower triangle
    of the diagonal matrix of the converted eigenvalues. *)
Lemma gaussian_eigenmatrix_cached (name_log : string) (log : Adapter)
      (ev : list Q) (fr : Frame) :
  outs fr !! name_log = Some log ->
  evals log = Some ev ->
  gaussian_eigenmatrix "geigz" [[name_log]] fr
  = Ok (extend
          (map (eig_datum "geigz" name_log None
                  (diag_of_vector
                     (map (fun e => (e * HESSIAN_CONVERSION)%Q) ev)))
               (rows_below (length ev)))
          fr).
Proof.
  intros Hout Hev. unfold gaussian_eigenmatrix.
  cbn [String.eqb Ascii.eqb Bool.eqb for_each Py.bind].
  unfold parse_unless_cached, item, attr. rewrite Hout.
  cbn [of_option Py.bind]. rewrite Hout. cbn [of_option Py.bind].
  rewrite Hev. cbn [of_option Py.bind].
  rewrite (eig_data_square _ _ _ (length ev)).
  - reflexivity.
  - pose proof (diag_of_vector_square
                  (map (fun e => (e * HESSIAN_CONVERSION)%Q) ev)) as H.
    rewrite length_map in H. exact H.
Qed.

Lemma ncols_square (n : nat) (M : Matrix) :
  square n M -> min (length M) (ncols M) = n.
Proof.
  intros [Hlen Hrows]. destruct M as [|r M']; [exact Hlen|].
  inversion Hrows as [|? ? Hr _]. unfold ncols. rewrite Hlen, Hr.
  apply Nat.min_id.
Qed.

Lemma vector_of_diag_square (n : nat) (M : Matrix) :
  square n M ->
  vector_of_diag M = Ok (map (fun i => at_ M (i, i)) (seq 0 n)).
Proof.
  intros HM. unfold vector_of_diag. rewrite (ncols_square n M HM).
  apply map_result_total. intros i Hi. apply in_seq in Hi.
  apply (entry_square n); [exact HM|lia|lia].
Qed.

(** The command [jeigz] on one pair of files, from an empty cache: when
    the constructors and the Hessian transforms return and the Hessian
    they end with is N x N, [collect_data] returns the lower triangle of
    its diagonal part: N(N+1)/2 records in row-major order, those off the
    diagonal with the value zero, with [idx_2] <= [idx_1]. *)
Lemma collect_data_jeigz_lower_triangle
      (inps : gmap string (option (Inp Index))) (direc : string)
      (sub_names : list string) (token name_in name_out : string)
      (other out : Adapter) (h0 h1 h2 h3 : Hessian) (M : Matrix) (N : nat) :
  split_on "," token = [name_in; name_out] ->
  name_in <> name_out ->
  parse JaguarIn (path_join direc name_in) = Ok other ->
  parse JaguarOut (path_join direc name_out) = Ok out ->
  Hessian_of other out = Ok h0 ->
  mass_weight_hessian h0 = Ok h1 ->
  mass_weight_eigenvectors h1 = Ok h2 ->
  diagonalize h2 = Ok h3 ->
  hess h3 = Some M ->
  square N M ->
  let D := diag_of_vector (map (fun i => at_ M (i, i)) (seq 0 N)) in
  collect_data [("jeigz", [[token]])] inps direc sub_names
  = Ok (map (eig_datum "jeigz" name_in (Some name_out) D) (rows_below N)) /\
  length (rows_below N) = N * (N + 1) / 2 /\
  (forall i j, In (i, j) (rows_below N) <-> j <= i < N) /\
  StronglySorted row_major (rows_below N).
Proof.
  intros Htok Hne Hin Hout H0 H1 H2 H3 HM Hsq D.
  split; [|split; [|split]].
  - unfold collect_data, collect_frame, collect_command. cbn [for_each].
    unfold reference_file, jaguar_energies, jaguar_charges,
      macromodel_charges, macromodel_energies, schrodinger_structures,
      gaussian_energies, gaussian_eigenmatrix, gaussian_eigenmatrix_2,
      macromodel_gaussian_eigenmatrix, schrodinger_eigenmatrix.
    cbn [String.eqb Ascii.eqb Bool.eqb is_in existsb orb Py.bind for_each].
    rewrite Htok. cbn [unpack2 Py.bind].
    unfold parse_unless_cached at 1. cbn [outs Frame_init].
    rewrite lookup_empty. cbn [Py.bind]. rewrite Hin. cbn [Py.bind outs].
    unfold item at 1. rewrite lookup_insert_eq. cbn [of_option Py.bind].
    unfold parse_unless_cached. cbn [outs].
    rewrite lookup_insert_ne by exact Hne. rewrite lookup_empty.
    cbn [Py.bind]. rewrite Hout. cbn [Py.bind outs].
    unfold item, attr. rewrite lookup_insert_eq. cbn [of_option Py.bind].
    rewrite H0. cbn [Py.bind]. rewrite H1. cbn [Py.bind].
    rewrite H2. cbn [Py.bind]. rewrite H3. cbn [Py.bind].
    rewrite HM. cbn [of_option Py.bind].
    rewrite (vector_of_diag_square N M Hsq). cbn [Py.bind].
    rewrite (eig_data_square _ _ _ N).
    + reflexivity.
    + pose proof (diag_of_vector_square
                    (map (fun i => at_ M (i, i)) (seq 0 N))) as H.
      rewrite length_map, length_seq in H. exact H.
  - pose proof (rows_below_length N) as Hlen.
    apply Nat.div_unique_exact; lia.
  - intros i j. apply rows_below_In.
  - apply rows_below_sorted.
Qed.

End EigenCommands.

(** ** loop.py: reading the script *)

Section Script.
Import LoopPy LoopNotions.
Context `{C : LoopPy.Collaborators}.

Lemma before_no_sep (c : ascii) (s : string) :
  forall k, String.get k (before c s) <> Some c.
Proof.
  induction s as [|a s IH]; intros k; simpl; [discriminate|].
  destruct (Ascii.eqb a c) eqn:E; simpl; [discriminate|].
  destruct k as [|k]; [|apply IH].
  intros H. inversion H; subst. rewrite Ascii.eqb_refl in E. discriminate.
Qed.

Lemma lstrip_get (c d : ascii) (s : string) :
  (forall k, String.get k s <> Some d) ->
  forall k, String.get k (lstrip c s) <> Some d.
Proof.
  induction s as [|a s IH]; intros H k; simpl; [discriminate|].
  destruct (Ascii.eqb a c).
  - apply IH. intros j. apply (H (S j)).
  - apply H.
Qed.

Lemma rstrip_get (c d : ascii) (s : string) :
  (forall k, String.get k s <> Some d) ->
  forall k, String.get k (rstrip c s) <> Some d.
Proof.
  induction s as [|a s IH]; intros H k; simpl; [discriminate|].
  assert (Hs : forall j, String.get j s <> Some d) by (intros j; apply (H (S j))).
  specialize (IH Hs).
  destruct (rstrip c s) as [|b r] eqn:E.
  - destruct (Ascii.eqb a c); simpl; [discriminate|].
    destruct k as [|k]; [apply (H 0)|destruct k; discriminate].
  - destruct k as [|k]; [apply (H 0)|]. apply IH.
Qed.

Lemma lstrip_head (c : ascii) (s : string) :
  String.get 0 (lstrip c s) <> Some c.
Proof.
  induction s as [|a s IH]; simpl; [discriminate|].
  destruct (Ascii.eqb a c) eqn:E; [exact IH|].
  simpl. intros H. inversion H; subst. rewrite Ascii.eqb_refl in E. discriminate.
Qed.

Lemma rstrip_head (c : ascii) (s : string) :
  String.get 0 s <> Some c -> String.get 0 (rstrip c s) <> Some c.
Proof.
  destruct s as [|a s]; simpl; [discriminate|]. intros H.
  destruct (rstrip c s).
  - destruct (Ascii.eqb a c) eqn:E; simpl; [discriminate|exact H].
  - exact H.
Qed.

(** X1.  Whatever the file holds, every line [read_loop_input] returns is
    non-empty, has no [#] in it and does not start with a newline; the
    lines come in the order of the file, each being the text before the
    first [#] of a line of the file, stripped of newlines at both ends. *)
Theorem read_loop_input_lines (w : World) (filename : string)
        (lines : list string) :
  read_loop_input w filename = Ok lines ->
  exists raw kept,
    readlines w filename = Ok raw /\
    sublist kept raw /\
    lines = map command_text kept /\
    Forall (fun l => l <> "" /\ String.get 0 l <> Some "010"%char /\
                     forall k, String.get k l <> Some "#"%char) lines.
Proof.
  unfold read_loop_input. intros H.
  destruct (readlines w filename) as [raw| |]; cbn [Py.bind] in H;
    try discriminate.
  inversion H; subst; clear H.
  exists raw, (List.filter (fun x => negb (String.eqb (command_text x) "")) raw).
  split; [reflexivity|]. split; [|split; [reflexivity|]].
  - induction raw as [|x raw IH]; simpl; [constructor|].
    destruct (negb (String.eqb (command_text x) ""));
      [apply sublist_skip|apply sublist_cons]; exact IH.
  - apply List.Forall_forall. intros l Hl. apply in_map_iff in Hl.
    destruct Hl as (x & <- & Hx). apply filter_In in Hx. destruct Hx as [_ Hx].
    apply Bool.negb_true_iff, String.eqb_neq in Hx.
    split; [exact Hx|]. unfold command_text, strip. split.
    + apply rstrip_head, lstrip_head.
    + apply rstrip_get, lstrip_get, before_no_sep.
Qed.

End Script.

(** ** loop.py: lines the interpreter skips, and lines it cannot read *)

Section Lines.
Import LoopPy LoopNotions LoopWords.
Context `{C : LoopPy.Collaborators}.

Lemma first_word_getitem (line w : string) :
  first_word line = Some w -> getitem (split line) 0 = Ok w.
Proof.
  unfold first_word, getitem. destruct (split line); simpl; [discriminate|].
  intros H; inversion H; reflexivity.
Qed.

(** X2.  A line whose first word is none of FFLD, PARM, LOOP, RDAT, CDAT,
    COMP and GRAD changes nothing: running a script that starts with it is
    running the rest of the script. *)
Theorem unrecognized_line_is_skipped
        (fuel : nat) (m : Mem) (self : Loop) (loc : Locals)
        (line w : string) (rest : list string) :
  first_word line = Some w -> recognized w = false ->
  run_lines (S fuel) m self loc (line :: rest) = run_lines fuel m self loc rest.
Proof.
  intros Hw Hr. rewrite run_lines_unfold. unfold directive.
  rewrite (first_word_getitem _ _ Hw). cbn [Py.bind].
  unfold recognized in Hr. cbn [existsb] in Hr.
  repeat (apply Bool.orb_false_elim in Hr; destruct Hr as [-> Hr]).
  reflexivity.
Qed.

(** X3.  A line of the file that is not empty before its first [#] but has
    no word there (blanks only) is kept by [read_loop_input], and a script
    that starts with it raises IndexError. *)
Theorem blank_line_raises_IndexError
        (fuel : nat) (m : Mem) (input x : string) (more : list string) :
  readlines (world m) input = Ok (x :: more) ->
  command_text x <> "" -> split (command_text x) = [] ->
  main (S fuel) m input = Raise IndexError.
Proof.
  intros Hread Hne Hsplit. unfold main, read_loop_input. rewrite Hread.
  cbn [Py.bind List.filter]. apply String.eqb_neq in Hne. rewrite Hne.
  cbn [negb map]. unfold run_loop_input. cbn [of_option Py.bind].
  rewrite run_lines_unfold. unfold directive. rewrite Hsplit. reflexivity.
Qed.

Lemma goes_in_body_getitem (line : string) :
  goes_in_body line ->
  exists w, getitem (split line) 0 = Ok w /\ String.eqb w "END" = false.
Proof.
  intros (w & Hw & Hne). exists w. split; [apply first_word_getitem, Hw|].
  apply String.eqb_neq, Hne.
Qed.

Lemma read_loop_lines_body (body : list string) (e : string) (after : list string) :
  Forall goes_in_body body -> first_word e = Some "END" ->
  read_loop_lines (body ++ e :: after) = Ok (body, after).
Proof.
  intros Hbody He. induction Hbody as [|line body Hline _ IH]; cbn [app read_loop_lines].
  - rewrite (first_word_getitem _ _ He). reflexivity.
  - destruct (goes_in_body_getitem _ Hline) as (w & Hg & Hend).
    rewrite Hg. cbn [Py.bind]. rewrite Hend, IH. reflexivity.
Qed.

Lemma read_loop_lines_dry (lines : list string) :
  Forall goes_in_body lines -> read_loop_lines lines = Raise StopIteration.
Proof.
  induction 1 as [|line lines Hline _ IH]; cbn [read_loop_lines]; [reflexivity|].
  destruct (goes_in_body_getitem _ Hline) as (w & Hg & Hend).
  rewrite Hg. cbn [Py.bind]. rewrite Hend, IH. reflexivity.
Qed.

Lemma LOOP_line (nested : Mem -> Loop -> result (Mem * Loop))
      m self loc line cols rest :
  split line = "LOOP" :: cols ->
  directive nested m self loc line rest
  = (r <- LOOP nested m self ("LOOP" :: cols) rest ;;
     Ok (fst (fst r), snd (fst r), loc, snd r)).
Proof. intros Hs. unfold directive. rewrite Hs. reflexivity. Qed.

(** X4.  The body of a LOOP directive is the lines up to the first line
    whose first word is END, and the script goes on after that line: the
    directive does with the lines before the first END, and leaves in the
    iterator the lines after it, whatever comes later (further END lines
    included). *)
Theorem LOOP_body_ends_at_first_END
        (nested : Mem -> Loop -> result (Mem * Loop))
        (m : Mem) (self : Loop) (loc : Locals)
        (line c1 : string) (cols body : list string) (e : string)
        (after : list string) (conv : Q) :
  split line = "LOOP" :: c1 :: cols -> float c1 = Ok conv ->
  Forall goes_in_body body -> first_word e = Some "END" ->
  directive nested m self loc line (body ++ e :: after)
  = (r <- nested m (make_loop self conv body) ;;
     Ok (fst r, with_score (score (snd r)) self, loc, after)).
Proof.
  intros Hs Hf Hbody He. rewrite (LOOP_line _ _ _ _ _ _ _ Hs). unfold LOOP.
  rewrite (read_loop_lines_body _ _ _ Hbody He). cbn [Py.bind fst snd getitem
    nth_error of_option]. rewrite Hf. cbn [Py.bind].
  destruct (nested m (make_loop self conv body)) as [[m1 l1]| |]; reflexivity.
Qed.

(** X5.  A LOOP directive with no END line after it raises StopIteration
    (when every line after it has a first word): the exception of the
    iterator is not the one [run_loop_input] catches to return. *)
Theorem LOOP_without_END_raises_StopIteration
        (fuel : nat) (m : Mem) (self : Loop) (loc : Locals)
        (line : string) (cols rest : list string) :
  split line = "LOOP" :: cols -> Forall goes_in_body rest ->
  run_lines (S fuel) m self loc (line :: rest) = Raise StopIteration.
Proof.
  intros Hs Hrest. rewrite run_lines_unfold, (LOOP_line _ _ _ _ _ _ _ Hs).
  unfold LOOP. rewrite (read_loop_lines_dry _ Hrest). reflexivity.
Qed.

(** X6.  A LOOP directive inside the body of a LOOP directive cannot be
    run.  The body of the outer one ends at the first END, which was meant
    for the inner one; the inner one is then left without an END, and the
    first cycle of the outer loop raises StopIteration. *)
Theorem LOOP_inside_LOOP_raises_StopIteration
        (fuel : nat) (m : Mem) (self : Loop) (loc : Locals)
        (outer c1 : string) (cols : list string) (conv : Q)
        (inner : string) (cols' xs : list string) (e : string)
        (after : list string) :
  split outer = "LOOP" :: c1 :: cols -> float c1 = Ok conv ->
  split inner = "LOOP" :: cols' ->
  Forall goes_in_body xs -> first_word e = Some "END" ->
  directive (opt_loop (S (S fuel))) m self loc outer (inner :: xs ++ e :: after)
  = Raise StopIteration.
Proof.
  intros Hs Hf Hs' Hxs He.
  assert (Hinner : goes_in_body inner).
  { exists "LOOP". unfold first_word. rewrite Hs'. split; [reflexivity|discriminate]. }
  rewrite (LOOP_line _ _ _ _ _ _ _ Hs). unfold LOOP.
  change (inner :: xs ++ e :: after) with ((inner :: xs) ++ e :: after).
  assert (Hall : Forall goes_in_body (inner :: xs))
    by (constructor; assumption).
  rewrite (read_loop_lines_body _ _ _ Hall He).
  cbn [Py.bind fst snd getitem nth_error of_option]. rewrite Hf. cbn [Py.bind].
  unfold opt_loop. rewrite opt_while_unfold, keep_going_first.
  unfold cycle, run_loop_input.
  replace (loop_lines (begin_cycle (make_loop self conv (inner :: xs))))
    with (Some (inner :: xs)) by reflexivity.
  cbn [of_option Py.bind].
  rewrite run_lines_unfold, (LOOP_line _ _ _ _ _ _ _ Hs'). unfold LOOP.
  rewrite (read_loop_lines_dry _ Hxs). reflexivity.
Qed.

End Lines.

(** ** loop.py: when the convergence loop returns, and when it cannot *)

Section Returns.
Import LoopPy LoopNotions LoopWords.
Context `{C : LoopPy.Collaborators}.




(** X8.  A loop that has no score when [opt_loop] is called on it (no
    comparison was made before the LOOP directive) does not survive its
    first cycle: if the script of the loop runs through, computing the
    change raises TypeError, whatever score the script gave. *)
Theorem opt_loop_without_score_raises_TypeError
        (fuel : nat) (m : Mem) (self : Loop) (r : Mem * Loop) :
  score self = None ->
  cycle fuel m self = Ok r ->
  opt_loop (S fuel) m self = Raise TypeError.
Proof.
  intros Hs Hc. destruct r as [m1 l1].
  unfold opt_loop. rewrite opt_while_unfold, keep_going_first, Hc.
  cbn [Py.bind fst snd]. rewrite with_score_same.
  destruct (cycle_state _ _ _ _ _ Hc) as (_ & _ & _ & Hp).
  rewrite Hp, Hs. reflexivity.
Qed.

(** X9.  A loop whose score is zero when a cycle starts does not survive
    that cycle: if the script runs through and leaves a score, computing
    the change divides by zero. *)
Theorem opt_loop_from_zero_raises_ZeroDivisionError
        (fuel : nat) (m : Mem) (self : Loop) (m' : Mem) (self' : Loop)
        (p s : Q) :
  score self = Some p -> (p == 0)%Q ->
  cycle fuel m self = Ok (m', self') -> score self' = Some s ->
  opt_loop (S fuel) m self = Raise ZeroDivisionError.
Proof.
  intros Hs Hz Hc Hs'.
  unfold opt_loop. rewrite opt_while_unfold, keep_going_first, Hc.
  cbn [Py.bind fst snd]. rewrite with_score_same.
  destruct (cycle_state _ _ _ _ _ Hc) as (_ & _ & _ & Hp).
  rewrite Hp, Hs, Hs'. unfold relative_change.
  apply Qeq_bool_iff in Hz. rewrite Hz. reflexivity.
Qed.

End Returns.

(** ** loop.py: the words of a directive and the data directives *)

Section Words.
Import LoopPy LoopNotions LoopWords.
Context `{C : LoopPy.Collaborators}.

Lemma words_from_words (s : string) :
  (forall k c, String.get k (fst (words_from s)) = Some c -> is_space c = false) /\
  Forall is_word (snd (words_from s)).
Proof.
  induction s as [|a s [IHw IHws]]; cbn [words_from].
  - split; [intros k c H; destruct k; discriminate|constructor].
  - destruct (words_from s) as [w ws]. cbn [fst snd] in *.
    destruct (is_space a) eqn:Ea; cbn [fst snd].
    + split; [intros k c H; destruct k; discriminate|].
      destruct w as [|b w]; [exact IHws|].
      constructor; [|exact IHws]. split; [discriminate|exact IHw].
    + split; [|exact IHws]. intros k c H. destruct k as [|k].
      * inversion H; subst. exact Ea.
      * apply (IHw k c H).
Qed.

Lemma split_words (s : string) : Forall is_word (split s).
Proof.
  unfold split. pose proof (words_from_words s) as [Hw Hws].
  destruct (words_from s) as [w ws]. cbn [fst snd] in *.
  destruct w as [|b w]; [exact Hws|].
  constructor; [|exact Hws]. split; [discriminate|exact Hw].
Qed.

Lemma words_from_word (w s : string) :
  (forall k c, String.get k w = Some c -> is_space c = false) ->
  words_from (w ++ s)%string
  = ((w ++ fst (words_from s))%string, snd (words_from s)).
Proof.
  induction w as [|a w IH]; intros Hw.
  - change ("" ++ s)%string with s.
    change ("" ++ fst (words_from s))%string with (fst (words_from s)).
    destruct (words_from s); reflexivity.
  - change (String a w ++ s)%string with (String a (w ++ s)%string).
    cbn [words_from]. rewrite IH by (intros k c H; apply (Hw (S k) c H)).
    rewrite (Hw 0 a eq_refl). reflexivity.
Qed.

Lemma append_empty (w : string) : (w ++ "")%string = w.
Proof.
  induction w as [|a w IH]; [reflexivity|].
  change (String a w ++ "")%string with (String a (w ++ "")%string).
  rewrite IH. reflexivity.
Qed.

Lemma split_join (ws : list string) :
  Forall is_word ws -> split (join " " ws) = ws.
Proof.
  induction 1 as [|w ws [Hne Hw] Hws IH]; [reflexivity|].
  destruct ws as [|w' ws].
  - cbn [join]. unfold split. rewrite <- (append_empty w) at 1.
    rewrite words_from_word by exact Hw. cbn [words_from fst snd].
    rewrite append_empty. destruct w; [contradiction|reflexivity].
  - change (join " " (w :: w' :: ws))
      with (w ++ String " " (join " " (w' :: ws)))%string.
    unfold split in *. rewrite words_from_word by exact Hw.
    cbn [words_from]. destruct (words_from (join " " (w' :: ws))) as [v vs].
    replace (is_space " ") with true by reflexivity. cbn [fst snd].
    rewrite append_empty. destruct w as [|a w]; [contradiction|].
    cbn [String.append]. destruct v; rewrite IH; reflexivity.
Qed.

Lemma args_of_split (line : string) : args_of (split line) = tl (split line).
Proof.
  unfold args_of. apply split_join.
  pose proof (split_words line) as H. destruct (split line); [constructor|].
  inversion H; assumption.
Qed.

(** X10.  RDAT and CDAT hand to [calculate.main] exactly the words that
    follow the first word of the line: joining them with blanks and
    splitting again changes nothing.  RDAT keeps these words in [ref_args]
    and binds the reference data, CDAT keeps them in [ff_args] and binds the
    computed data; neither touches the other data set. *)
Theorem RDAT_CDAT_arguments (m : Mem) (self : Loop) (loc : Locals) (line : string) :
  RDAT m self loc (split line)
  = (r <- calculate_main (world m) (tl (split line)) ;;
     Ok (with_world (fst r) m, with_ref_args (Some (tl (split line))) self,
         mkLocals (Some (snd r)) (cal_conn loc))) /\
  CDAT m self loc (split line)
  = (r <- calculate_main (world m) (tl (split line)) ;;
     Ok (with_world (fst r) m, with_ff_args (Some (tl (split line))) self,
         mkLocals (ref_conn loc) (Some (snd r)))).
Proof.
  unfold RDAT, CDAT. rewrite args_of_split. split; reflexivity.
Qed.

(** X11.  A script made of an RDAT line, a CDAT line and the line COMP: the
    reference data are computed first, the force-field data in the world
    the first computation left, and the score of the loop becomes what the
    comparator returns on the two, in that order; nothing is written. *)
Theorem RDAT_CDAT_COMP_scores
        (m : Mem) (self : Loop) (sc : option Q) (l1 l2 l3 : string)
        (a1 a2 : list string) (w1 w2 : World) (ref cal : list Datum) (s : Q) :
  split l1 = "RDAT" :: a1 -> split l2 = "CDAT" :: a2 -> split l3 = ["COMP"] ->
  calculate_main (world m) a1 = Ok (w1, ref) ->
  calculate_main w1 a2 = Ok (w2, cal) ->
  compare_data ref cal = Ok s ->
  run_loop_input 4 m self (Some [l1; l2; l3]) sc
  = Ok (with_world w2 m,
        with_score (Some s)
          (with_ff_args (Some a2) (with_ref_args (Some a1) (take_score sc self)))).
Proof.
  intros H1 H2 H3 Hr Hc Hs.
  unfold run_loop_input. cbn [of_option Py.bind].
  rewrite run_lines_unfold. unfold directive at 1.
  pose proof (args_of_split l1) as A1. pose proof (args_of_split l2) as A2.
  rewrite H1 in *. cbn [getitem nth_error of_option Py.bind tl] in *.
  replace (String.eqb "RDAT" "FFLD") with false by reflexivity.
  replace (String.eqb "RDAT" "PARM") with false by reflexivity.
  replace (String.eqb "RDAT" "LOOP") with false by reflexivity.
  replace (String.eqb "RDAT" "RDAT") with true by reflexivity.
  unfold RDAT. rewrite A1, Hr. cbn [Py.bind fst snd].
  rewrite run_lines_unfold. unfold directive at 1.
  rewrite H2 in *. cbn [getitem nth_error of_option Py.bind tl] in *.
  replace (String.eqb "CDAT" "FFLD") with false by reflexivity.
  replace (String.eqb "CDAT" "PARM") with false by reflexivity.
  replace (String.eqb "CDAT" "LOOP") with false by reflexivity.
  replace (String.eqb "CDAT" "RDAT") with false by reflexivity.
  replace (String.eqb "CDAT" "CDAT") with true by reflexivity.
  unfold CDAT. rewrite A2. cbn [world with_world]. rewrite Hc.
  cbn [Py.bind fst snd].
  rewrite run_lines_unfold. unfold directive at 1. rewrite H3.
  cbn [getitem nth_error of_option Py.bind].
  replace (String.eqb "COMP" "FFLD") with false by reflexivity.
  replace (String.eqb "COMP" "PARM") with false by reflexivity.
  replace (String.eqb "COMP" "LOOP") with false by reflexivity.
  replace (String.eqb "COMP" "RDAT") with false by reflexivity.
  replace (String.eqb "COMP" "CDAT") with false by reflexivity.
  replace (String.eqb "COMP" "COMP") with true by reflexivity.
  unfold COMP. cbn [index_o String.eqb Ascii.eqb Bool.eqb option_map].
  cbn [local of_option ref_conn cal_conn Py.bind]. rewrite Hs.
  cbn [Py.bind fst snd]. reflexivity.
Qed.

End Words.

(** ** calculate.py: reference files, line by line *)

Section ReferenceLines.
Import Calculate Notions CalcWords.
Context `{C : Calculate.Collaborators}.

Lemma read_reference_line_skipped (line : string) (data : list Datum) :
  skipped line -> read_reference_line line data = Ok data.
Proof.
  unfold skipped, read_reference_line. intros [->|Hlen]; [reflexivity|].
  destruct (startswith "-" line); [reflexivity|].
  destruct (split (before "#" line)) as [|a [|b [|c [|d l]]]]; try reflexivity.
  contradiction Hlen. reflexivity.
Qed.

Lemma for_each_skipped (lines : list string) :
  Forall skipped lines ->
  forall data, for_each lines read_reference_line data = Ok data.
Proof.
  induction 1 as [|line lines Hline _ IH]; intros data; cbn [for_each];
    [reflexivity|].
  rewrite (read_reference_line_skipped _ _ Hline). cbn [Py.bind]. apply IH.
Qed.

(** X12.  A reference file in which every line starts with [-], or has
    other than three columns before its first [#] (comment lines and blank
    lines among them), gives no record and no error. *)
Theorem read_reference_of_skipped_lines (filename : string) (lines : list string) :
  open_lines filename = Ok lines -> Forall skipped lines ->
  read_reference filename = Ok [].
Proof.
  intros Hopen Hall. unfold read_reference. rewrite Hopen. cbn [Py.bind].
  apply for_each_skipped, Hall.
Qed.

Lemma set_atm_nums_keeps (atm_nums : list string) :
  forall i datum d,
    set_atm_nums i atm_nums datum = Ok d ->
    val d = val datum /\ wht d = wht datum /\ lbl d = lbl datum /\
    com d = com datum /\ src_1 d = src_1 datum /\ src_2 d = src_2 datum.
Proof.
  induction atm_nums as [|a rest IH]; simpl; intros i datum d H.
  - inversion H; subst; repeat split.
  - destruct (int a) as [n| |]; simpl in H; try discriminate.
    apply IH in H. simpl in H. exact H.
Qed.

Lemma lbl_to_data_attrs_keeps (datum : Datum) (l : string) (d : Datum) :
  lbl_to_data_attrs datum l = Ok d ->
  val d = val datum /\ wht d = wht datum /\ lbl d = lbl datum /\
  com d = com datum /\ src_1 d = src_1 datum /\ src_2 d = src_2 datum.
Proof.
  unfold lbl_to_data_attrs. intros H. returned; simpl;
    try match goal with
        | E : set_atm_nums _ _ _ = Ok _ |- _ =>
            apply set_atm_nums_keeps in E; simpl in E; exact E
        end; repeat split.
Qed.

(** X13.  Reading one line of a reference file either leaves the records
    as they are or adds one record at the end; the record added carries
    the three columns of the line (the label as it is written, the weight
    and the value as floats), has no command, no source file and no second
    index, and its type is the text of the label before its first [_]. *)
Theorem read_reference_line_adds_one_record
        (line : string) (data data' : list Datum) :
  read_reference_line line data = Ok data' ->
  data' = data \/
  exists l w v fw fv d,
    split (before "#" line) = [l; w; v] /\
    float w = Ok fw /\ float v = Ok fv /\
    data' = data ++ [d] /\
    lbl d = Some l /\ wht d = Some fw /\ val d = Some fv /\
    com d = None /\ src_1 d = None /\ src_2 d = None /\ idx_2 d = None /\
    typ d = head (split_on "_" l).
Proof.
  unfold read_reference_line. intros H.
  destruct (startswith "-" line); [left; inversion H; reflexivity|].
  destruct (split (before "#" line)) as [|l [|w [|v [|x cols]]]];
    try (left; inversion H; reflexivity).
  destruct (float w) as [fw| |] eqn:Ew; cbn [Py.bind] in H; try discriminate.
  destruct (float v) as [fv| |] eqn:Ev; cbn [Py.bind] in H; try discriminate.
  destruct (lbl_to_data_attrs _ l) as [d| |] eqn:E; cbn [Py.bind] in H;
    try discriminate.
  inversion H; subst; clear H. right. exists l, w, v, fw, fv, d.
  destruct (lbl_to_data_attrs_keeps _ _ _ E) as (H1 & H2 & H3 & H4 & H5 & H6).
  pose proof (lbl_to_data_attrs_idx_2 _ _ _ E) as H7.
  cbn in H1, H2, H3, H4, H5, H6, H7.
  repeat (split; [first [reflexivity | assumption]|]).
  unfold lbl_to_data_attrs in E.
  destruct (split_on "_" l) as [|p0 parts]; [discriminate|].
  cbn [getitem nth_error of_option Py.bind head] in *.
  returned; simpl;
    try match goal with
        | E : set_atm_nums _ _ _ = Ok _ |- _ =>
            apply set_atm_nums_idx in E; simpl in E; apply E
        end; reflexivity.
Qed.

(** X14.  A line with three columns whose weight and value are floats but
    whose label has neither three nor four parts between its [_] raises
    NameError: the index field is read without having been assigned. *)
Theorem read_reference_line_malformed_label
        (line l w v : string) (fw fv : Q) (data : list Datum) :
  startswith "-" line = false ->
  split (before "#" line) = [l; w; v] ->
  float w = Ok fw -> float v = Ok fv ->
  length (split_on "_" l) <> 3 -> length (split_on "_" l) <> 4 ->
  read_reference_line line data = Raise NameError.
Proof.
  intros Hs Hcols Hw Hv H3 H4. unfold read_reference_line.
  rewrite Hs, Hcols, Hw, Hv. cbn [Py.bind]. unfold lbl_to_data_attrs.
  apply Nat.eqb_neq in H3, H4. rewrite H3, H4.
  destruct (split_on "_" l) as [|p0 parts] eqn:E; [|reflexivity].
  destruct l; simpl in E; [discriminate|].
  destruct (Ascii.eqb _ _); [discriminate|].
  destruct (split_on "_" l); discriminate.
Qed.

Lemma set_atm_nums_sets (atm_nums : list string) :
  forall (ns : list Z) (i : nat) (datum : Datum),
    map_result int atm_nums = Ok ns ->
    exists d,
      set_atm_nums i atm_nums datum = Ok d /\
      (forall k, k < length ns -> atm d !! (i + k + 1) = nth_error ns k) /\
      (forall j, j <= i \/ i + length ns < j -> atm d !! j = atm datum !! j).
Proof.
  induction atm_nums as [|a rest IH]; intros ns i datum H; cbn in H.
  - inversion H; subst. exists datum. split; [reflexivity|].
    split; [intros k Hk; simpl in Hk; lia|reflexivity].
  - destruct (int a) as [n| |] eqn:Ea; cbn [Py.bind] in H; try discriminate.
    destruct (map_result int rest) as [ns'| |] eqn:Er; cbn [Py.bind] in H;
      try discriminate.
    inversion H; subst; clear H.
    destruct (IH ns' (S i) (setattr_atm (i + 1) n datum) eq_refl)
      as (d & Hd & Hset & Hold).
    exists d. cbn [set_atm_nums]. rewrite Ea. cbn [Py.bind].
    split; [exact Hd|]. split.
    + intros k Hk. destruct k as [|k].
      * rewrite Hold by (left; lia). cbn [setattr_atm atm nth_error].
        replace (i + 0 + 1) with (i + 1) by lia. apply lookup_insert_eq.
      * cbn [length] in Hk. replace (i + S k + 1) with (S i + k + 1) by lia.
        rewrite Hset by lia. reflexivity.
    + intros j Hj. cbn [length] in Hj. rewrite Hold by lia.
      cbn [setattr_atm atm]. apply lookup_insert_ne. lia.
Qed.

(** X15.  A label of four parts [t_x_i_a] whose atom field [a] is made of
    integers joined by [-] and whose index field [i] starts with an
    integer (and, when it has exactly two parts, has an integer second
    part): the type becomes [t], the first index the first integer of [i],
    the k-th integer of [a] is stored under [atm_k], and the atom
    attributes beyond these are as they were. *)
Theorem lbl_to_data_attrs_four_parts
        (datum : Datum) (l t x i a i0 : string) (rest : list string)
        (n0 : Z) (ns : list Z) :
  split_on "_" l = [t; x; i; a] ->
  split_on "-" i = i0 :: rest -> int i0 = Ok n0 ->
  (forall i1, rest = [i1] -> exists n1, int i1 = Ok n1) ->
  map_result int (split_on "-" a) = Ok ns ->
  exists d,
    lbl_to_data_attrs datum l = Ok d /\
    typ d = Some t /\ idx_1 d = Some n0 /\
    (forall k, k < length ns -> atm d !! (k + 1) = nth_error ns k) /\
    (forall j, length ns < j -> atm d !! j = atm datum !! j).
Proof.
  intros Hl Hi H0 H1 Ha. unfold lbl_to_data_attrs. rewrite Hl.
  cbn [getitem nth_error of_option Py.bind length Nat.eqb].
  replace (getitem_Z [t; x; i; a] (-2)) with (Ok i) by reflexivity.
  replace (getitem_Z [t; x; i; a] (-1)) with (Ok a) by reflexivity.
  cbn [Py.bind].
  destruct (set_atm_nums_sets _ ns 0 (with_typ t datum) Ha)
    as (d0 & Hd0 & Hset & Hold).
  rewrite Hd0. cbn [Py.bind of_option].
  destruct (set_atm_nums_idx _ _ _ _ Hd0) as (_ & _ & Ht). cbn in Ht.
  rewrite Hi. cbn [getitem nth_error of_option Py.bind]. rewrite H0.
  cbn [Py.bind].
  exists (with_idx_1 n0 d0).
  assert (Hres : (if Nat.eqb (length (i0 :: rest)) 2
                  then i1 <- getitem (i0 :: rest) 1 ;;
                       _ <- int i1 ;; Ok (with_idx_1 n0 d0)
                  else Ok (with_idx_1 n0 d0)) = Ok (with_idx_1 n0 d0)).
  { destruct rest as [|i1 [|i2 rest]]; try reflexivity.
    destruct (H1 i1 eq_refl) as (n1 & E1).
    cbn [length Nat.eqb getitem nth_error of_option Py.bind]. rewrite E1.
    reflexivity. }
  split; [exact Hres|]. cbn.
  split; [exact Ht|]. split; [reflexivity|]. split.
  - intros k Hk. apply (Hset k Hk).
  - intros j Hj. apply Hold. right. lia.
Qed.

End ReferenceLines.

(** ** calculate.py: the order of the commands of a file *)

Section RouterOrder.
Import Calculate Notions CalcWords.

Let put (command : string) (sorted : gmap string (list string))
    (filename : string) : gmap string (list string) :=
  match sorted !! filename with
  | Some cs => <[filename := cs ++ [command]]> sorted
  | None => <[filename := [command]]> sorted
  end.

Let look (sorted : gmap string (list string)) (f : string) : list string :=
  default [] (sorted !! f).

Let full (sorted : gmap string (list string)) : Prop :=
  forall f, sorted !! f <> Some [].

Lemma put_look (command : string) (sorted : gmap string (list string))
      (filename f : string) :
  look (put command sorted filename) f =
  look sorted f ++ (if String.eqb f filename then [command] else []).
Proof.
  unfold look, put. destruct (String.eqb_spec f filename) as [->|Hne].
  - destruct (sorted !! filename) as [cs|] eqn:E; rewrite lookup_insert_eq;
      reflexivity.
  - destruct (sorted !! filename) as [cs|] eqn:E;
      (rewrite lookup_insert_ne by congruence); rewrite app_nil_r; reflexivity.
Qed.

Lemma put_full (command : string) (sorted : gmap string (list string))
      (filename : string) :
  full sorted -> full (put command sorted filename).
Proof.
  unfold full, put. intros Hfull f.
  destruct (sorted !! filename) as [cs|] eqn:E;
    (destruct (decide (filename = f)) as [->|Hne];
     [rewrite lookup_insert_eq|rewrite lookup_insert_ne by exact Hne; apply Hfull]).
  - intros H. inversion H as [H']. destruct cs; discriminate.
  - discriminate.
Qed.

Lemma put_filenames (command f : string) (filenames : list string) :
  forall sorted,
    look (foldl (put command) sorted filenames) f =
    look sorted f ++ map (fun _ => command) (List.filter (String.eqb f) filenames)
    /\ (full sorted -> full (foldl (put command) sorted filenames)).
Proof.
  induction filenames as [|x l IH]; intros sorted; cbn [foldl List.filter].
  - cbn [map]. rewrite app_nil_r. auto.
  - destruct (IH (put command sorted x)) as [Hl Hf]. split.
    + rewrite Hl, put_look, <- app_assoc. f_equal.
      destruct (String.eqb f x); reflexivity.
    + intros H. apply Hf, put_full, H.
Qed.

Lemma put_tokens (command f : string) (tokens : list string) :
  forall sorted,
    look (foldl (fun s token => foldl (put command) s (split_on "," token))
                sorted tokens) f =
    look sorted f ++
    map (fun _ => command)
        (List.filter (String.eqb f) (flat_map (split_on ",") tokens))
    /\ (full sorted ->
        full (foldl (fun s token => foldl (put command) s (split_on "," token))
                    sorted tokens)).
Proof.
  induction tokens as [|t l IH]; intros sorted; cbn [foldl flat_map].
  - cbn [List.filter map]. rewrite app_nil_r. auto.
  - destruct (IH (foldl (put command) sorted (split_on "," t))) as [Hl Hf].
    destruct (put_filenames command f (split_on "," t) sorted) as [Hl' Hf'].
    split.
    + rewrite Hl, Hl', <- app_assoc, List.filter_app, List.map_app. reflexivity.
    + intros H. apply Hf, Hf', H.
Qed.

Lemma put_commands (f : string) (commands : list (string * list (list string))) :
  forall sorted,
    look (foldl (fun s (entry : string * list (list string)) =>
                   let (command, groups_filenames) := entry in
                   foldl (fun s token => foldl (put command) s (split_on "," token))
                         s (concat groups_filenames))
                sorted commands) f =
    look sorted f ++ commands_for commands f
    /\ (full sorted ->
        full (foldl (fun s (entry : string * list (list string)) =>
                   let (command, groups_filenames) := entry in
                   foldl (fun s token => foldl (put command) s (split_on "," token))
                         s (concat groups_filenames))
                sorted commands)).
Proof.
  induction commands as [|[command groups] l IH]; intros sorted;
    cbn [foldl].
  - unfold commands_for. cbn [flat_map]. rewrite app_nil_r. auto.
  - match goal with
    | |- look (foldl _ ?s l) f = _ /\ _ => destruct (IH s) as [Hl Hf]
    end.
    destruct (put_tokens command f (concat groups) sorted) as [Hl' Hf'].
    split.
    + rewrite Hl, Hl', <- app_assoc. reflexivity.
    + intros H. apply Hf, Hf', H.
Qed.

(** X16.  What the inverted map holds for a filename is the commands of
    the table in the order in which the table yields them, each repeated
    as many times as the filename occurs among its groups; the filename is
    a key exactly when that list is not empty. *)
Theorem sort_commands_by_filename_order
        (commands : list (string * list (list string))) (filename : string) :
  default [] (sort_commands_by_filename commands !! filename) =
    commands_for commands filename /\
  (sort_commands_by_filename commands !! filename = None <->
   commands_for commands filename = []).
Proof.
  destruct (put_commands filename commands ∅) as [Hl Hf].
  assert (Hlook : look (sort_commands_by_filename commands) filename =
                  commands_for commands filename).
  { etransitivity; [exact Hl|]. unfold look. rewrite lookup_empty. reflexivity. }
  assert (Hfull : full (sort_commands_by_filename commands)).
  { apply Hf. intros f. rewrite lookup_empty. discriminate. }
  split; [exact Hlook|]. unfold look in Hlook. specialize (Hfull filename).
  destruct (sort_commands_by_filename commands !! filename) as [cs|].
  - cbn in Hlook. split; [discriminate|]. intros H. rewrite H in Hlook.
    subst cs. contradiction Hfull. reflexivity.
  - cbn in Hlook. split; auto.
Qed.

End RouterOrder.

(** ** calculate.py: commands that are skipped, and commands that raise *)

Section Commands.
Import Calculate Notions CalcWords.
Context `{C : Calculate.Collaborators}.

Lemma is_in_cons (x y : string) (l : list string) :
  is_in x (y :: l) = (String.eqb x y || is_in x l)%bool.
Proof. reflexivity. Qed.

Lemma is_in_one_of (x : string) (l : list string) :
  is_in x l = true -> In x l.
Proof.
  unfold is_in. intros H. apply existsb_exists in H.
  destruct H as (y & Hy & Heq). apply String.eqb_eq in Heq. subst. exact Hy.
Qed.

Ltac not_handled H :=
  unfold handled in H; rewrite ?is_in_cons in H;
  repeat (apply Bool.orb_false_elim in H;
          let H1 := fresh "Hcom" in destruct H as [H1 H]);
  clear H.

Ltac skip_tests :=
  rewrite ?is_in_cons;
  repeat match goal with
         | H : String.eqb ?com _ = false |- _ => rewrite !H; clear H
         | H : String.eqb ?com _ = false |- _ => clear H
         end;
  cbn [is_in existsb orb Py.bind].

Lemma collect_command_not_handled
      (inps : gmap string (option (Inp Index))) (direc : string)
      (sub_names : list string) (com : string)
      (groups : list (list string)) (fr : Frame) :
  handled com = false ->
  collect_command inps direc sub_names (com, groups) fr = Ok fr.
Proof.
  intros H. not_handled H.
  unfold collect_command, reference_file, jaguar_energies, jaguar_charges,
    macromodel_charges, macromodel_energies, schrodinger_structures,
    gaussian_energies, gaussian_eigenmatrix, gaussian_eigenmatrix_2,
    macromodel_gaussian_eigenmatrix, schrodinger_eigenmatrix.
  skip_tests. reflexivity.
Qed.

(** X17.  A command that none of the blocks of [collect_data] tests for
    is passed over: the records collected are those collected from the
    table without such commands. *)
Theorem collect_data_skips_unknown_commands
        (coms : list (string * list (list string)))
        (inps : gmap string (option (Inp Index)))
        (direc : string) (sub_names : list string) :
  collect_data coms inps direc sub_names =
  collect_data (List.filter (fun entry => handled (fst entry)) coms)
               inps direc sub_names.
Proof.
  unfold collect_data, collect_frame. f_equal.
  generalize Frame_init.
  induction coms as [|[com groups] coms IH]; intros fr; [reflexivity|].
  cbn [List.filter fst for_each]. destruct (handled com) eqn:E.
  - cbn [for_each]. destruct (collect_command _ _ _ _ _) as [fr'| |];
      cbn [Py.bind]; [apply IH|reflexivity|reflexivity].
  - rewrite (collect_command_not_handled _ _ _ _ _ _ E). cbn [Py.bind].
    apply IH.
Qed.

Ltac one_of H :=
  apply is_in_one_of in H; cbn [In] in H;
  repeat (destruct H as [<-|H]); [..|contradiction H].

Ltac blocks :=
  unfold collect_command, reference_file, jaguar_energies, jaguar_charges,
    macromodel_charges, macromodel_energies, schrodinger_structures,
    gaussian_energies, gaussian_eigenmatrix, gaussian_eigenmatrix_2,
    macromodel_gaussian_eigenmatrix, schrodinger_eigenmatrix;
  cbn [is_in existsb orb String.eqb Ascii.eqb Bool.eqb Py.bind for_each
       enumerate enumerate_from].

(** X18.  A MacroModel or Schrodinger-structure command ([mq], [mqh],
    [me], [me2], [meo], [ja], [jb], [jt], [ma], [mb], [mt]) whose first
    file is not a key of [inps] raises KeyError, whatever has been
    collected before. *)
Theorem collect_command_file_not_in_inps
        (inps : gmap string (option (Inp Index))) (direc : string)
        (sub_names : list string) (com filename : string)
        (group : list string) (groups : list (list string)) (fr : Frame) :
  needs_inps com = true ->
  inps !! filename = None ->
  collect_command inps direc sub_names (com, (filename :: group) :: groups) fr
  = Raise KeyError.
Proof.
  intros Hcom Hin. unfold needs_inps in Hcom. one_of Hcom;
    blocks; unfold inp, item; rewrite Hin; reflexivity.
Qed.

(** X19.  An eigenmatrix command that takes pairs of files ([geigz2],
    [mgeig], [jeigz], [mjeig]) whose first token does not hold exactly one
    comma raises ValueError. *)
Theorem collect_command_token_not_a_pair
        (inps : gmap string (option (Inp Index))) (direc : string)
        (sub_names : list string) (com token : string)
        (group : list string) (groups : list (list string)) (fr : Frame) :
  takes_pair com = true ->
  length (split_on "," token) <> 2 ->
  collect_command inps direc sub_names (com, (token :: group) :: groups) fr
  = Raise ValueError.
Proof.
  intros Hcom Hlen.
  assert (Hun : unpack2 (split_on "," token) = Raise ValueError).
  { destruct (split_on "," token) as [|a [|b [|c l]]]; try reflexivity.
    contradiction Hlen. reflexivity. }
  unfold takes_pair in Hcom. one_of Hcom; blocks; rewrite Hun; reflexivity.
Qed.

(** X20.  Under [jq], [jqh] and [geigz] a first file that is not in the
    cache raises NameError: the path handed to the constructor is built
    from [directory], a name that is bound nowhere. *)
Theorem collect_command_unbound_directory
        (inps : gmap string (option (Inp Index))) (direc : string)
        (sub_names : list string) (com filename : string)
        (group : list string) (groups : list (list string)) (fr : Frame) :
  joins_directory com = true ->
  outs fr !! filename = None ->
  collect_command inps direc sub_names (com, (filename :: group) :: groups) fr
  = Raise NameError.
Proof.
  intros Hcom Hout. unfold joins_directory in Hcom. one_of Hcom;
    blocks; unfold parse_unless_cached; rewrite Hout; reflexivity.
Qed.

End Commands.

(** ** calculate.py: what every block keeps of the frame *)

Section Invariant.
Import Calculate Notions CalcWords.
Context `{C : Calculate.Collaborators}.

Variable R : Frame -> Frame -> Prop.
Hypothesis R_refl : forall fr, R fr fr.
Hypothesis R_trans : forall a b c, R a b -> R b c -> R a c.
Hypothesis R_extend : forall fr ds, R fr (extend ds fr).
Hypothesis R_typ : forall fr t, R fr (set_typ t fr).
Hypothesis R_ind : forall fr i, R fr (set_ind i fr).
Hypothesis R_parse :
  forall key k path fr, reaches R fr (parse_unless_cached key key k path fr).

Lemma R_append (fr : Frame) (d : Datum) : R fr (append d fr).
Proof. exact (R_extend fr [d]). Qed.

Lemma reaches_ok (fr fr' : Frame) : R fr fr' -> reaches R fr (Ok fr').
Proof. intros H fr1 E. inversion E; subst. exact H. Qed.

Lemma reaches_from (fr fr1 : Frame) (r : result Frame) :
  R fr fr1 -> reaches R fr1 r -> reaches R fr r.
Proof. intros H H1 fr' E. eapply R_trans; [exact H|]. apply H1, E. Qed.

Lemma reaches_bind_fr (fr : Frame) (r : result Frame)
      (k : Frame -> result Frame) :
  reaches R fr r -> (forall fr1, reaches R fr1 (k fr1)) ->
  reaches R fr (Py.bind r k).
Proof.
  intros Hr Hk fr' E. destruct r as [fr1| |]; cbn [Py.bind] in E;
    try discriminate.
  eapply R_trans; [apply Hr; reflexivity|]. apply (Hk fr1), E.
Qed.

Lemma reaches_bind_val {A} (fr : Frame) (e : result A)
      (k : A -> result Frame) :
  (forall a, reaches R fr (k a)) -> reaches R fr (Py.bind e k).
Proof.
  intros Hk fr' E. destruct e as [a| |]; cbn [Py.bind] in E;
    try discriminate.
  apply (Hk a), E.
Qed.

Lemma reaches_for_each {A} (l : list A) (body : A -> Frame -> result Frame) :
  (forall a fr, reaches R fr (body a fr)) ->
  forall fr, reaches R fr (for_each l body fr).
Proof.
  intros Hbody. induction l as [|a l IH]; intros fr; cbn [for_each].
  - apply reaches_ok, R_refl.
  - apply reaches_bind_fr; [apply Hbody|exact IH].
Qed.

Ltac frame_step :=
  lazymatch goal with
  | |- reaches _ _ (Ok _) =>
      apply reaches_ok; solve [apply R_refl | apply R_append | apply R_extend]
  | |- reaches _ _ (Raise _) => intros ? ?; discriminate
  | |- reaches _ _ (data_list_append _ _) => intros ? ?; discriminate
  | |- reaches _ _ (for_each _ _ _) => apply reaches_for_each; intros
  | |- reaches _ _ (Py.bind (parse_unless_cached _ _ _ _ _) _) =>
      apply reaches_bind_fr; [apply R_parse | intros]
  | |- reaches _ _ (Py.bind _ _) => apply reaches_bind_val; intros
  | |- reaches _ _ (if ?b then _ else _) => destruct b
  | |- reaches _ _ (match ?p with _ => _ end) => destruct p; cbn beta iota
  | |- reaches _ _ ((match ?p with _ => _ end) _) => destruct p; cbn beta iota
  end.

Ltac frames := repeat frame_step.

Lemma R_set (fr : Frame) (a b c : bool) (t1 t2 t3 : string) :
  R fr (if a then set_typ t1 fr
        else if b then set_typ t2 fr
        else if c then set_typ t3 fr else fr).
Proof. destruct a, b, c; auto. Qed.

Lemma reference_file_reaches direc com groups fr :
  reaches R fr (reference_file direc com groups fr).
Proof. unfold reference_file. frames. Qed.

Lemma jaguar_energies_reaches direc com groups fr :
  reaches R fr (jaguar_energies direc com groups fr).
Proof.
  unfold jaguar_energies. destruct (is_in _ _); [|frames]. cbv zeta.
  eapply reaches_from; [|frames].
  destruct (String.eqb com "je"), (String.eqb com "jeo"); auto.
Qed.

Lemma jaguar_charges_reaches com groups fr :
  reaches R fr (jaguar_charges com groups fr).
Proof. unfold jaguar_charges, jaguar_charges_of, jaguar_charge. frames. Qed.

Lemma macromodel_charges_reaches inps com groups fr :
  reaches R fr (macromodel_charges inps com groups fr).
Proof. unfold macromodel_charges. frames. Qed.

Lemma macromodel_energies_reaches inps com groups fr :
  reaches R fr (macromodel_energies inps com groups fr).
Proof.
  unfold macromodel_energies. destruct (is_in _ _); [|frames]. cbv zeta.
  eapply reaches_from; [|frames].
  destruct (String.eqb com "me"), (String.eqb com "meo"); auto;
    (eapply R_trans; [apply R_typ|apply R_ind]).
Qed.

Lemma schrodinger_structures_reaches inps sub_names com groups fr :
  reaches R fr (schrodinger_structures inps sub_names com groups fr).
Proof.
  unfold schrodinger_structures. destruct (is_in _ _); [|frames]. cbv zeta.
  eapply reaches_from; [|frames]. apply R_set.
Qed.

Lemma gaussian_energies_reaches com groups fr :
  reaches R fr (gaussian_energies com groups fr).
Proof.
  unfold gaussian_energies. destruct (is_in _ _); [|frames]. cbv zeta.
  eapply reaches_from; [|frames].
  destruct (String.eqb com "ge"), (String.eqb com "geo"); auto.
Qed.

Lemma gaussian_eigenmatrix_reaches com groups fr :
  reaches R fr (gaussian_eigenmatrix com groups fr).
Proof. unfold gaussian_eigenmatrix. frames. Qed.

Lemma gaussian_eigenmatrix_2_reaches com groups fr :
  reaches R fr (gaussian_eigenmatrix_2 com groups fr).
Proof. unfold gaussian_eigenmatrix_2. frames. Qed.

Lemma macromodel_gaussian_eigenmatrix_reaches inps com groups fr :
  reaches R fr (macromodel_gaussian_eigenmatrix inps com groups fr).
Proof. unfold macromodel_gaussian_eigenmatrix. frames. Qed.

Lemma schrodinger_eigenmatrix_reaches inps direc com groups fr :
  (String.eqb com "mjeig" = true ->
   forall t s k path fr, reaches R fr (parse_unless_cached t s k path fr)) ->
  reaches R fr (schrodinger_eigenmatrix inps direc com groups fr).
Proof.
  intros Hmj. unfold schrodinger_eigenmatrix.
  destruct (is_in _ _); [|frames].
  apply reaches_for_each. intros group fr0.
  apply reaches_for_each. intros token fr1.
  apply reaches_bind_val. intros [name_other name_out].
  assert (Hfirst : forall (e : result (Frame * Adapter))
                          (k : Frame * Adapter -> result Frame),
             (forall p, e = Ok p -> R fr1 (fst p)) ->
             (forall p, reaches R (fst p) (k p)) ->
             reaches R fr1 (Py.bind e k)).
  { intros e k He Hk fr' E. destruct e as [p| |]; cbn [Py.bind] in E;
      try discriminate.
    eapply R_trans; [apply He; reflexivity|]. apply (Hk p), E. }
  apply Hfirst.
  - intros p. destruct (String.eqb com "mjeig") eqn:Emj.
    + destruct (inp inps name_other) as [i| |]; cbn [Py.bind];
        try discriminate.
      destruct (parse_unless_cached _ _ _ _ _) as [fr2| |] eqn:Ep;
        cbn [Py.bind]; try discriminate.
      destruct (item _ _); cbn [Py.bind]; try discriminate.
      intros E. inversion E; subst. cbn [fst].
      apply (Hmj eq_refl _ _ _ _ _ _ Ep).
    + destruct (String.eqb com "jeigz"); [|discriminate].
      destruct (parse_unless_cached _ _ _ _ _) as [fr2| |] eqn:Ep;
        cbn [Py.bind]; try discriminate.
      destruct (item _ _); cbn [Py.bind]; try discriminate.
      intros E. inversion E; subst. cbn [fst].
      apply (R_parse _ _ _ _ _ Ep).
  - intros [fr2 other]. cbn [fst]. frames.
Qed.

Lemma collect_command_reaches inps direc sub_names entry fr :
  (String.eqb (fst entry) "mjeig" = true ->
   forall t s k path fr, reaches R fr (parse_unless_cached t s k path fr)) ->
  reaches R fr (collect_command inps direc sub_names entry fr).
Proof.
  destruct entry as [com groups]. cbn [fst]. intros Hmj.
  unfold collect_command.
  apply reaches_bind_fr; [apply reference_file_reaches|intros].
  apply reaches_bind_fr; [apply jaguar_energies_reaches|intros].
  apply reaches_bind_fr; [apply jaguar_charges_reaches|intros].
  apply reaches_bind_fr; [apply macromodel_charges_reaches|intros].
  apply reaches_bind_fr; [apply macromodel_energies_reaches|intros].
  apply reaches_bind_fr; [apply schrodinger_structures_reaches|intros].
  apply reaches_bind_fr; [apply gaussian_energies_reaches|intros].
  apply reaches_bind_fr; [apply gaussian_eigenmatrix_reaches|intros].
  apply reaches_bind_fr; [apply gaussian_eigenmatrix_2_reaches|intros].
  apply reaches_bind_fr; [apply macromodel_gaussian_eigenmatrix_reaches|intros].
  apply schrodinger_eigenmatrix_reaches, Hmj.
Qed.

End Invariant.

Section Frames.
Import Calculate Notions CalcWords.
Context `{C : Calculate.Collaborators}.

Lemma appends_same (fr fr' : Frame) :
  data fr' = data fr -> parsed fr' = parsed fr -> appends fr fr'.
Proof.
  intros Hd Hp. split; exists []; rewrite app_nil_r; assumption.
Qed.

Lemma appends_refl (fr : Frame) : appends fr fr.
Proof. apply appends_same; reflexivity. Qed.

Lemma appends_trans (a b c : Frame) : appends a b -> appends b c -> appends a c.
Proof.
  intros [[ds1 Hd1] [ps1 Hp1]] [[ds2 Hd2] [ps2 Hp2]]. split.
  - exists (ds1 ++ ds2). rewrite Hd2, Hd1, app_assoc. reflexivity.
  - exists (ps1 ++ ps2). rewrite Hp2, Hp1, app_assoc. reflexivity.
Qed.

Lemma appends_extend (fr : Frame) (ds : list Datum) : appends fr (extend ds fr).
Proof. split; [exists ds|exists []; cbn; rewrite app_nil_r]; reflexivity. Qed.

Lemma appends_parse (t s : string) (k : Kind) (path : result string)
      (fr : Frame) :
  reaches appends fr (parse_unless_cached t s k path fr).
Proof.
  intros fr' E. unfold parse_unless_cached in E.
  destruct (outs fr !! t); [inversion E; apply appends_refl|].
  destruct path as [p| |]; cbn [Py.bind] in E; try discriminate.
  destruct (parse k p) as [a| |]; cbn [Py.bind] in E; try discriminate.
  inversion E; subst; clear E. split; cbn.
  - exists []. rewrite app_nil_r. reflexivity.
  - eexists. reflexivity.
Qed.

Lemma collect_command_appends inps direc sub_names entry fr :
  reaches appends fr (collect_command inps direc sub_names entry fr).
Proof.
  apply collect_command_reaches.
  - apply appends_refl.
  - apply appends_trans.
  - apply appends_extend.
  - intros; apply appends_same; reflexivity.
  - intros; apply appends_same; reflexivity.
  - intros; apply appends_parse.
  - intros _ t s k path fr0. apply appends_parse.
Qed.

Lemma for_each_app {A S} (l1 l2 : list A) (body : A -> S -> result S) (s : S) :
  for_each (l1 ++ l2) body s = Py.bind (for_each l1 body s) (for_each l2 body).
Proof.
  revert s. induction l1 as [|a l1 IH]; intros s; cbn [for_each app Py.bind].
  - reflexivity.
  - destruct (body a s) as [s'| |]; cbn [Py.bind]; [apply IH|reflexivity..].
Qed.

(** X21.  When [collect_data] returns the records of a table, it returns
    the records of any front part of the table as well, and those records
    are the first ones of the whole: a later command neither drops nor
    changes nor reorders what an earlier one has collected. *)
Theorem collect_data_keeps_earlier_records
        (coms_1 coms_2 : list (string * list (list string)))
        (inps : gmap string (option (Inp Index)))
        (direc : string) (sub_names : list string) (ds : list Datum) :
  collect_data (coms_1 ++ coms_2) inps direc sub_names = Ok ds ->
  exists ds_1 ds_2,
    collect_data coms_1 inps direc sub_names = Ok ds_1 /\ ds = ds_1 ++ ds_2.
Proof.
  unfold collect_data, collect_frame. rewrite for_each_app. intros H.
  destruct (for_each coms_1 _ Frame_init) as [fr1| |]; cbn [Py.bind] in H;
    try discriminate.
  destruct (for_each coms_2 _ fr1) as [fr2| |] eqn:E2; cbn [Py.bind] in H;
    try discriminate.
  inversion H; subst; clear H.
  assert (Happ : appends fr1 fr2).
  { refine (reaches_for_each appends appends_refl appends_trans coms_2 _ _ fr1 fr2 E2).
    intros entry fr. apply collect_command_appends. }
  destruct Happ as [[ds2 Hds] _]. exists (data fr1), ds2.
  split; [reflexivity|exact Hds].
Qed.

Lemma fills_cache_same (fr fr' : Frame) :
  outs fr' = outs fr -> parsed fr' = parsed fr -> fills_cache fr fr'.
Proof.
  unfold fills_cache. intros -> ->. split; [reflexivity|].
  exists []. rewrite app_nil_r. cbn. split; [reflexivity|lia].
Qed.

Lemma fills_cache_refl (fr : Frame) : fills_cache fr fr.
Proof. apply fills_cache_same; reflexivity. Qed.

Lemma fills_cache_trans (a b c : Frame) :
  fills_cache a b -> fills_cache b c -> fills_cache a c.
Proof.
  intros [H1 (ps1 & P1 & S1)] [H2 (ps2 & P2 & S2)].
  split; [etransitivity; eassumption|].
  exists (ps1 ++ ps2). rewrite P2, P1, app_assoc, length_app.
  split; [reflexivity|lia].
Qed.

Lemma fills_cache_parse (key : string) (k : Kind) (path : result string)
      (fr : Frame) :
  reaches fills_cache fr (parse_unless_cached key key k path fr).
Proof.
  intros fr' E. unfold parse_unless_cached in E.
  destruct (outs fr !! key) eqn:Eo; [inversion E; apply fills_cache_refl|].
  destruct path as [p|e|]; cbn [Py.bind] in E; try discriminate.
  destruct (parse k p) as [a|e|]; cbn [Py.bind] in E; try discriminate.
  inversion E; subst; clear E. split; cbn.
  - apply insert_subseteq, Eo.
  - exists [(k, p)]. split; [reflexivity|].
    rewrite map_size_insert_None by exact Eo. cbn. lia.
Qed.

(** X22.  A command other than [mjeig], run from any state of
    [collect_data]: every object that was in the cache is still there
    under its name, as it was, and each constructor call of the command
    puts under a name that was not in the cache the object it built, so
    that the calls made are as many as the names added.  No name is
    constructed twice and no cached object is replaced.  (Two names that
    lead to one path are two entries, each constructed once.) *)
Theorem collect_command_fills_cache
        (inps : gmap string (option (Inp Index))) (direc : string)
        (sub_names : list string) (entry : string * list (list string))
        (fr fr' : Frame) :
  fst entry <> "mjeig" ->
  collect_command inps direc sub_names entry fr = Ok fr' ->
  outs fr ⊆ outs fr' /\
  exists ps, parsed fr' = parsed fr ++ ps /\
             size (outs fr') = size (outs fr) + length ps.
Proof.
  intros Hne E. revert fr' E.
  change (reaches fills_cache fr
            (collect_command inps direc sub_names entry fr)).
  apply collect_command_reaches.
  - apply fills_cache_refl.
  - apply fills_cache_trans.
  - intros; apply fills_cache_same; reflexivity.
  - intros; apply fills_cache_same; reflexivity.
  - intros; apply fills_cache_same; reflexivity.
  - intros; apply fills_cache_parse.
  - intros Heq. apply String.eqb_eq in Heq. contradiction.
Qed.

End Frames.

(** ** calculate.py: the records of the charge commands *)

Section ChargeRecords.
Import Calculate Notions CalcWords.
Context `{C : Calculate.Collaborators}.

Lemma extend_nil (fr : Frame) : extend [] fr = fr.
Proof. destruct fr. unfold extend. cbn. rewrite app_nil_r. reflexivity. Qed.

Lemma extend_append (d : Datum) (ds : list Datum) (fr : Frame) :
  extend ds (append d fr) = extend (d :: ds) fr.
Proof. unfold extend, append. cbn. rewrite <- app_assoc. reflexivity. Qed.

Lemma extend_extend (ds1 ds2 : list Datum) (fr : Frame) :
  extend ds2 (extend ds1 fr) = extend (ds1 ++ ds2) fr.
Proof. unfold extend. cbn. rewrite <- app_assoc. reflexivity. Qed.

Lemma jaguar_charge_jq (filename : string) (i : nat) (s : Structure)
      (l : list Atom) :
  forall fr,
    for_each l (jaguar_charge "jq" filename i s) fr =
    Ok (extend (map (fun a => charge_datum "jq" filename i a (partial_charge a))
                    (List.filter use_charge l)) fr).
Proof.
  induction l as [|a l IH]; intros fr; cbn [for_each List.filter map].
  - rewrite extend_nil. reflexivity.
  - unfold jaguar_charge at 1.
    replace (String.eqb "jq" "jqh") with false by reflexivity.
    replace (String.eqb "jq" "jq") with true by reflexivity.
    destruct (use_charge a); cbn [Py.bind orb map].
    + rewrite IH, extend_append. reflexivity.
    + apply IH.
Qed.

(** X23.  Under [jq] the loop over the atoms of a structure never fails
    and adds, in the order of the atoms, one record for each atom that is
    used for charges (the property [b_q_use_charge] absent or not zero),
    hydrogens included, with the charge of the atom as its value. *)
Theorem jq_records_every_used_atom (filename : string) (i : nat) (s : Structure)
        (fr : Frame) :
  jaguar_charges_of "jq" filename (i, s) fr =
  Ok (extend (map (fun a => charge_datum "jq" filename i a (partial_charge a))
                  (charged false s)) fr).
Proof.
  unfold jaguar_charges_of, charged. rewrite jaguar_charge_jq.
  do 3 f_equal. clear. induction (atoms s) as [|a l IH]; cbn; [reflexivity|].
  rewrite Bool.andb_true_r. destruct (use_charge a); rewrite IH; reflexivity.
Qed.

Lemma sum_hydrogens_folded (s : Structure) (atom : Atom) (bonded : list Z) :
  (forall h, In h (aliph_hyds s) ->
             (1 <= index h <= Z.of_nat (length (atoms s)))%Z) ->
  forall q,
    sum_hydrogens s (map index (aliph_hyds s)) bonded q =
    Ok (fold_left
          (fun q b =>
             if existsb (Z.eqb b) (map index (aliph_hyds s))
             then (q + partial_charge
                         (nth (Z.to_nat (b - 1)) (atoms s) atom))%Q
             else q)
          bonded q).
Proof.
  intros Hin. unfold sum_hydrogens.
  induction bonded as [|b l IH]; intros q; cbn [for_each fold_left];
    [reflexivity|].
  destruct (existsb (Z.eqb b) (map index (aliph_hyds s))) eqn:E.
  - apply existsb_exists in E. destruct E as (x & Hx & Heq).
    apply Z.eqb_eq in Heq. subst x. apply in_map_iff in Hx.
    destruct Hx as (h & Hh & Hx). specialize (Hin h Hx). rewrite Hh in Hin.
    unfold getitem_Z, getitem.
    replace (0 <=? b - 1)%Z with true by (symmetry; apply Z.leb_le; lia).
    destruct (nth_error (atoms s) (Z.to_nat (b - 1))) as [a|] eqn:En.
    + cbn [of_option Py.bind]. rewrite (nth_error_nth _ _ atom En). apply IH.
    + apply nth_error_None in En. lia.
  - cbn [Py.bind]. apply IH.
Qed.

Lemma jaguar_charge_jqh (filename : string) (i : nat) (s : Structure)
      (l : list Atom) :
  (forall h, In h (aliph_hyds s) ->
             (1 <= index h <= Z.of_nat (length (atoms s)))%Z) ->
  forall fr,
    for_each l (jaguar_charge "jqh" filename i s) fr =
    Ok (extend (map (fun a => charge_datum "jqh" filename i a (folded s a))
                    (List.filter
                       (fun a => use_charge a &&
                                 (negb true || negb (atom_in a (aliph_hyds s))))
                       l)) fr).
Proof.
  intros Hin. induction l as [|a l IH]; intros fr;
    cbn [for_each List.filter map].
  - rewrite extend_nil. reflexivity.
  - unfold jaguar_charge at 1.
    replace (String.eqb "jqh" "jqh") with true by reflexivity.
    replace (String.eqb "jqh" "jq") with false by reflexivity.
    destruct (use_charge a); cbn [Py.bind orb andb negb map].
    + rewrite (sum_hydrogens_folded s a _ Hin). cbn [Py.bind].
      destruct (atom_in a (aliph_hyds s)); cbn [negb map Py.bind].
      * apply IH.
      * rewrite IH, extend_append. reflexivity.
    + apply IH.
Qed.

(** X24.  Under [jqh], in a structure whose aliphatic hydrogens have
    indices that are positions of its atoms (from 1 to the number of
    atoms), the loop over the atoms adds, in the order of the atoms, one
    record for each atom that is used for charges and is not an aliphatic
    hydrogen; its value is the charge of the atom plus, for each bonded
    index that is the index of an aliphatic hydrogen, the charge of the
    atom at that position. *)
Theorem jqh_records_fold_hydrogens (filename : string) (i : nat) (s : Structure)
        (fr : Frame) :
  (forall h, In h (aliph_hyds s) ->
             (1 <= index h <= Z.of_nat (length (atoms s)))%Z) ->
  jaguar_charges_of "jqh" filename (i, s) fr =
  Ok (extend (map (fun a => charge_datum "jqh" filename i a (folded s a))
                  (charged true s)) fr).
Proof.
  intros Hin. unfold jaguar_charges_of, charged.
  apply jaguar_charge_jqh, Hin.
Qed.

Lemma macromodel_charge_atoms (com filename : string) (n : nat)
      (s : Structure) (l : list Atom) :
  forall fr,
    for_each l (fun atom fr =>
      if use_charge atom then
        if (String.eqb com "mq" || negb (atom_in atom (aliph_hyds s)))%bool
        then Ok (append (mkDatum (Some (partial_charge atom)) None None
                                 (Some com) (Some "q") (Some filename)
                                 None (Some (succ n)) None
                                 {[ 1 := index atom ]}) fr)
        else Ok fr
      else Ok fr) fr =
    Ok (extend (map (fun a => charge_datum com filename n a (partial_charge a))
                    (List.filter
                       (fun a => use_charge a &&
                                 (negb (negb (String.eqb com "mq"))
                                  || negb (atom_in a (aliph_hyds s))))
                       l)) fr).
Proof.
  induction l as [|a l IH]; intros fr; cbn [for_each List.filter map].
  - rewrite extend_nil. reflexivity.
  - rewrite Bool.negb_involutive.
    destruct (use_charge a); cbn [andb Py.bind].
    + destruct (String.eqb com "mq" || negb (atom_in a (aliph_hyds s)))%bool;
        cbn [Py.bind map].
      * rewrite IH, extend_append, Bool.negb_involutive. reflexivity.
      * rewrite IH, Bool.negb_involutive. reflexivity.
    + rewrite IH, Bool.negb_involutive. reflexivity.
Qed.

(** X25.  The MacroModel charges of one file whose [inps] entry names a
    .mae that is in the cache, or that the constructor returns: for each
    selected structure, in order, one record for each atom that is used
    for charges and, under [mqh], is not an aliphatic hydrogen.  The value
    is the charge of the atom itself under both commands: [mqh] leaves the
    hydrogens out without summing them. *)
Theorem macromodel_charges_records
        (inps : gmap string (option (Inp Index))) (com filename : string)
        (i : Inp Index) (mae : Adapter) (ss : list Structure)
        (sel : list (nat * Structure)) (fr : Frame) :
  is_in com ["mq"; "mqh"] = true ->
  inps !! filename = Some (Some i) ->
  outs fr !! name_mae i = Some mae \/
  (outs fr !! name_mae i = None /\
   parse Mae (path_join (directory i) (name_mae i)) = Ok mae) ->
  structures mae = Some ss ->
  select_structures ss (_index_output_mae i) "pre" = Ok sel ->
  exists fr',
    macromodel_charges inps com [[filename]] fr = Ok fr' /\
    outs fr' !! name_mae i = Some mae /\
    data fr' =
    data fr ++
    flat_map (fun '(str_num, s) =>
                map (fun a => charge_datum com filename str_num a
                                           (partial_charge a))
                    (charged (negb (String.eqb com "mq")) s))
             sel.
Proof.
  intros Hcom Hin Hmae Hss Hsel.
  assert (Hloop : forall fr0,
             for_each sel (fun '(str_num, structure) =>
               for_each (atoms structure) (fun atom fr =>
                 if use_charge atom then
                   if (String.eqb com "mq"
                       || negb (atom_in atom (aliph_hyds structure)))%bool
                   then Ok (append (mkDatum (Some (partial_charge atom)) None
                                            None (Some com) (Some "q")
                                            (Some filename) None
                                            (Some (succ str_num)) None
                                            {[ 1 := index atom ]}) fr)
                   else Ok fr
                 else Ok fr)) fr0 =
             Ok (extend
                   (flat_map (fun '(str_num, s) =>
                      map (fun a => charge_datum com filename str_num a
                                                 (partial_charge a))
                          (charged (negb (String.eqb com "mq")) s))
                      sel) fr0)).
  { clear. induction sel as [|[n s] sel IH]; intros fr0;
      cbn [for_each flat_map].
    - rewrite extend_nil. reflexivity.
    - rewrite macromodel_charge_atoms. cbn [Py.bind].
      rewrite IH, extend_extend. reflexivity. }
  unfold macromodel_charges. rewrite Hcom.
  cbn [for_each]. unfold inp, item, attr. rewrite Hin.
  cbn [of_option Py.bind]. unfold parse_unless_cached.
  destruct Hmae as [Hout|[Hout Hparse]]; rewrite Hout.
  - cbn [Py.bind]. rewrite Hout. cbn [of_option Py.bind]. rewrite Hss.
    cbn [of_option Py.bind]. rewrite Hsel. cbn [Py.bind]. rewrite Hloop.
    cbn [Py.bind]. eexists. split; [reflexivity|].
    split; [exact Hout|reflexivity].
  - cbn [Py.bind]. rewrite Hparse. cbn [Py.bind outs].
    rewrite lookup_insert_eq. cbn [of_option Py.bind]. rewrite Hss.
    cbn [of_option Py.bind]. rewrite Hsel. cbn [Py.bind]. rewrite Hloop.
    cbn [Py.bind]. eexists. split; [reflexivity|].
    split; [cbn; apply lookup_insert_eq|reflexivity].
Qed.

End ChargeRecords.

(** ** calculate.py: the records of the reference files and of the Jaguar
    energies *)

Section EnergyRecords.
Import Calculate Notions CalcWords.
Context `{C : Calculate.Collaborators}.

Ltac other_blocks :=
  unfold collect_command, reference_file, jaguar_charges,
    macromodel_charges, macromodel_energies, schrodinger_structures,
    gaussian_energies, gaussian_eigenmatrix, gaussian_eigenmatrix_2,
    macromodel_gaussian_eigenmatrix, schrodinger_eigenmatrix;
  cbn [is_in existsb orb String.eqb Ascii.eqb Bool.eqb Py.bind].

Lemma reference_files (direc : string) (recs : string -> list Datum)
      (group : list string) :
  (forall f, In f group -> read_reference (path_join direc f) = Ok (recs f)) ->
  forall fr,
    for_each group (fun filename fr =>
      ds <- read_reference (path_join direc filename) ;;
      Ok (extend ds fr)) fr =
    Ok (extend (flat_map recs group) fr).
Proof.
  induction group as [|f group IH]; intros Hall fr; cbn [for_each flat_map].
  - rewrite extend_nil. reflexivity.
  - rewrite (Hall f) by (left; reflexivity). cbn [Py.bind].
    rewrite IH by (intros; apply Hall; right; assumption).
    rewrite extend_extend. reflexivity.
Qed.

(** X26.  The command [r]: when every file of its groups, joined to
    [direc], is read as a reference file, the records of the files are
    added in the order of the files, group after group, and nothing else
    of the frame changes. *)
Theorem collect_command_reference
        (inps : gmap string (option (Inp Index))) (direc : string)
        (sub_names : list string) (groups : list (list string))
        (recs : string -> list Datum) (fr : Frame) :
  (forall f, In f (concat groups) ->
             read_reference (path_join direc f) = Ok (recs f)) ->
  collect_command inps direc sub_names ("r", groups) fr =
  Ok (extend (flat_map recs (concat groups)) fr).
Proof.
  intros Hall.
  assert (H : forall fr,
             for_each groups (fun group_filenames =>
               for_each group_filenames (fun filename fr =>
                 ds <- read_reference (path_join direc filename) ;;
                 Ok (extend ds fr))) fr =
             Ok (extend (flat_map recs (concat groups)) fr)).
  { clear fr. induction groups as [|group groups IH]; intros fr;
      cbn [for_each concat flat_map].
    - rewrite extend_nil. reflexivity.
    - rewrite (reference_files direc recs)
        by (intros; apply Hall; cbn [concat]; apply in_or_app; left; assumption).
      cbn [Py.bind].
      rewrite IH
        by (intros; apply Hall; cbn [concat]; apply in_or_app; right; assumption).
      rewrite extend_extend, flat_map_app. reflexivity. }
  other_blocks. unfold jaguar_energies.
  cbn [is_in existsb orb String.eqb Ascii.eqb Bool.eqb Py.bind].
  rewrite H. reflexivity.
Qed.

(** The bodies of the three loops of the Jaguar energies. *)
Let structure_body (com filename : string) (grp_num : nat)
  : nat * Structure -> Frame -> result Frame :=
  fun '(str_num, struct) fr =>
    p <- item (props struct) "r_j_Gas_Phase_Energy" ;;
    let e := (p * HARTREE_TO_KJMOL)%Q in
    t <- local (v_typ fr) ;;
    Ok (append (mkDatum (Some e) None None (Some com) (Some t)
                        (Some filename) None (Some (succ grp_num))
                        (Some (succ str_num)) ∅) fr).

Let file_body (direc com : string) (grp_num : nat)
  : string -> Frame -> result Frame :=
  fun filename fr =>
    fr <- parse_unless_cached filename filename Mae
            (Ok (path_join direc filename)) fr ;;
    mae <- item (outs fr) filename ;;
    ss <- attr (structures mae) ;;
    for_each (enumerate ss) (structure_body com filename grp_num) fr.

Let group_body (direc com : string)
  : nat * list string -> Frame -> result Frame :=
  fun '(grp_num, group_filenames) =>
    for_each group_filenames (file_body direc com grp_num).

Let has_energy (s : Structure) (e : Q) : Prop :=
  props s !! "r_j_Gas_Phase_Energy" = Some e.

Lemma structure_body_records (com t filename : string) (grp_num : nat)
      (ss : list Structure) (es : list Q) :
  Forall2 has_energy ss es ->
  forall n fr,
    v_typ fr = Some t ->
    for_each (enumerate_from n ss) (structure_body com filename grp_num) fr =
    Ok (extend (map (fun '(str_num, e) =>
                       energy_datum com t filename grp_num str_num
                                    (e * HARTREE_TO_KJMOL)%Q)
                    (enumerate_from n es)) fr).
Proof.
  induction 1 as [|s e ss es Hs _ IH]; intros n fr Ht;
    cbn [enumerate_from for_each map].
  - rewrite extend_nil. reflexivity.
  - unfold structure_body at 1, item, local. rewrite Hs, Ht.
    cbn [of_option Py.bind]. rewrite IH by exact Ht.
    rewrite extend_append. reflexivity.
Qed.

Lemma file_body_records (direc com t filename : string) (grp_num : nat)
      (a : Adapter) (ss : list Structure) (es : list Q) (fr : Frame) :
  v_typ fr = Some t ->
  found Mae direc fr filename = Ok a ->
  structures a = Some ss ->
  Forall2 has_energy ss es ->
  exists fr',
    file_body direc com grp_num filename fr = Ok fr' /\
    data fr' =
      data fr ++ map (fun '(str_num, e) =>
                        energy_datum com t filename grp_num str_num
                                     (e * HARTREE_TO_KJMOL)%Q)
                     (enumerate es) /\
    v_typ fr' = Some t /\
    forall f, found Mae direc fr' f = found Mae direc fr f.
Proof.
  intros Ht Hfound Hss Hes. unfold file_body, parse_unless_cached.
  unfold found in Hfound. destruct (outs fr !! filename) as [a0|] eqn:Eo.
  - inversion Hfound; subst a0. cbn [Py.bind]. unfold item. rewrite Eo.
    cbn [of_option Py.bind]. rewrite Hss. unfold attr.
    cbn [of_option Py.bind]. unfold enumerate.
    eexists.
    split; [exact (structure_body_records com t filename grp_num ss es Hes 0 fr Ht)|].
    cbn. auto.
  - cbn [Py.bind]. rewrite Hfound. cbn [Py.bind outs]. unfold item.
    rewrite lookup_insert_eq. cbn [of_option Py.bind]. rewrite Hss.
    unfold attr. cbn [of_option Py.bind]. unfold enumerate.
    eexists.
    split; [refine (structure_body_records com t filename grp_num ss es Hes 0 _ _);
            exact Ht|].
    split; [reflexivity|].
    split; [exact Ht|]. intros f. unfold found. cbn [outs extend].
    destruct (decide (filename = f)) as [<-|Hne].
    + rewrite lookup_insert_eq, Eo, Hfound. reflexivity.
    + rewrite lookup_insert_ne by exact Hne. reflexivity.
Qed.

Lemma group_body_records (direc com t : string) (energies : string -> list Q)
      (grp_num : nat) (group : list string) :
  forall fr,
    v_typ fr = Some t ->
    (forall f, In f group ->
               exists a ss, found Mae direc fr f = Ok a /\
                            structures a = Some ss /\
                            Forall2 has_energy ss (energies f)) ->
    exists fr',
      for_each group (file_body direc com grp_num) fr = Ok fr' /\
      data fr' =
        data fr ++
        flat_map (fun f =>
                    map (fun '(str_num, e) =>
                           energy_datum com t f grp_num str_num
                                        (e * HARTREE_TO_KJMOL)%Q)
                        (enumerate (energies f)))
                 group /\
      v_typ fr' = Some t /\
      forall f, found Mae direc fr' f = found Mae direc fr f.
Proof.
  induction group as [|f group IH]; intros fr Ht Hall;
    cbn [for_each flat_map].
  - exists fr. rewrite app_nil_r. auto.
  - destruct (Hall f (or_introl eq_refl)) as (a & ss & Hf & Hss & Hes).
    destruct (file_body_records direc com t f grp_num a ss _ fr Ht Hf Hss Hes)
      as (fr1 & E1 & D1 & T1 & F1).
    rewrite E1. cbn [Py.bind].
    destruct (IH fr1 T1) as (fr2 & E2 & D2 & T2 & F2).
    { intros f' Hin. rewrite F1. apply Hall. right. exact Hin. }
    exists fr2. split; [exact E2|]. split.
    + rewrite D2, D1, <- app_assoc. reflexivity.
    + split; [exact T2|]. intros f'. rewrite F2. apply F1.
Qed.

Lemma groups_records (direc com t : string) (energies : string -> list Q)
      (groups : list (list string)) :
  forall g fr,
    v_typ fr = Some t ->
    (forall f, In f (concat groups) ->
               exists a ss, found Mae direc fr f = Ok a /\
                            structures a = Some ss /\
                            Forall2 has_energy ss (energies f)) ->
    exists fr',
      for_each (enumerate_from g groups) (group_body direc com) fr = Ok fr' /\
      data fr' = data fr ++ energy_data com t energies g groups /\
      v_typ fr' = Some t /\
      forall f, found Mae direc fr' f = found Mae direc fr f.
Proof.
  unfold energy_data.
  induction groups as [|group groups IH]; intros g fr Ht Hall;
    cbn [enumerate_from for_each flat_map].
  - exists fr. rewrite app_nil_r. auto.
  - unfold group_body at 1.
    destruct (group_body_records direc com t energies g group fr Ht)
      as (fr1 & E1 & D1 & T1 & F1).
    { intros f Hin. apply Hall. cbn [concat]. apply in_or_app. left. exact Hin. }
    rewrite E1. cbn [Py.bind].
    destruct (IH (S g) fr1 T1) as (fr2 & E2 & D2 & T2 & F2).
    { intros f Hin. rewrite F1. apply Hall. cbn [concat]. apply in_or_app.
      right. exact Hin. }
    exists fr2. split; [exact E2|]. split.
    + rewrite D2, D1, <- app_assoc. reflexivity.
    + split; [exact T2|]. intros f. rewrite F2. apply F1.
Qed.

(** X27.  The Jaguar energy commands.  When each file of the groups is in
    the cache or is returned by the constructor for the file joined to
    [direc], and each of its structures has a gas-phase energy, the command
    adds one record per structure, file after file and group after group:
    the value is the energy times the Hartree-to-kJ/mol factor, the first
    index the number of the group and the second the number of the
    structure in its file, both counted from 1.  The type is [e] under
    [je], [eo] under [jeo], and under [je2] the type an earlier command
    has left. *)
Theorem collect_command_jaguar_energies
        (inps : gmap string (option (Inp Index))) (direc : string)
        (sub_names : list string) (com t : string)
        (groups : list (list string)) (energies : string -> list Q)
        (fr : Frame) :
  (com = "je" /\ t = "e") \/ (com = "jeo" /\ t = "eo") \/
  (com = "je2" /\ v_typ fr = Some t) ->
  (forall f, In f (concat groups) ->
             exists a ss,
               found Mae direc fr f = Ok a /\ structures a = Some ss /\
               Forall2 (fun s e => props s !! "r_j_Gas_Phase_Energy" = Some e)
                       ss (energies f)) ->
  exists fr',
    collect_command inps direc sub_names (com, groups) fr = Ok fr' /\
    data fr' = data fr ++ energy_data com t energies 0 groups /\
    v_typ fr' = Some t.
Proof.
  intros Hcom Hall.
  assert (Hje : exists fr',
             jaguar_energies direc com groups fr = Ok fr' /\
             data fr' = data fr ++ energy_data com t energies 0 groups /\
             v_typ fr' = Some t).
  { unfold jaguar_energies.
    destruct Hcom as [[-> ->]|[[-> ->]|[-> Ht]]];
      cbn [is_in existsb orb String.eqb Ascii.eqb Bool.eqb].
    - destruct (groups_records direc "je" "e" energies groups 0
                  (set_typ "e" fr) eq_refl Hall) as (fr' & E & D & T & _).
      exists fr'. auto.
    - destruct (groups_records direc "jeo" "eo" energies groups 0
                  (set_typ "eo" fr) eq_refl Hall) as (fr' & E & D & T & _).
      exists fr'. auto.
    - destruct (groups_records direc "je2" t energies groups 0 fr Ht Hall)
        as (fr' & E & D & T & _).
      exists fr'. auto. }
  destruct Hje as (fr' & E & D & T). exists fr'. split; [|auto].
  destruct Hcom as [[-> _]|[[-> _]|[-> _]]]; other_blocks; rewrite E;
    reflexivity.
Qed.

(** X28.  Under [je2] with no type left by an earlier command, the first
    structure that has a gas-phase energy raises NameError
    (UnboundLocalError): the block reads [typ] without having assigned
    it. *)
Theorem collect_command_je2_without_typ
        (inps : gmap string (option (Inp Index))) (direc : string)
        (sub_names : list string) (filename : string) (group : list string)
        (groups : list (list string)) (a : Adapter) (s : Structure)
        (ss : list Structure) (e : Q) (fr : Frame) :
  v_typ fr = None ->
  found Mae direc fr filename = Ok a ->
  structures a = Some (s :: ss) ->
  props s !! "r_j_Gas_Phase_Energy" = Some e ->
  collect_command inps direc sub_names ("je2", (filename :: group) :: groups) fr
  = Raise NameError.
Proof.
  intros Ht Hfound Hss He. other_blocks. unfold jaguar_energies.
  cbn [is_in existsb orb String.eqb Ascii.eqb Bool.eqb Py.bind for_each
       enumerate enumerate_from].
  unfold parse_unless_cached. unfold found in Hfound.
  destruct (outs fr !! filename) as [a0|] eqn:Eo.
  - inversion Hfound; subst a0. cbn [Py.bind]. unfold item, attr, local.
    rewrite Eo. cbn [of_option Py.bind]. rewrite Hss.
    cbn [of_option Py.bind enumerate enumerate_from for_each]. rewrite He.
    cbn [of_option Py.bind]. rewrite Ht. reflexivity.
  - cbn [Py.bind]. rewrite Hfound. cbn [Py.bind outs]. unfold item, attr, local.
    rewrite lookup_insert_eq. cbn [of_option Py.bind]. rewrite Hss.
    cbn [of_option Py.bind enumerate enumerate_from for_each]. rewrite He.
    cbn [of_option Py.bind v_typ]. rewrite Ht. reflexivity.
Qed.

End EnergyRecords.

(** ** loop.py: the force field of a loop *)

Section ForceField.
Import LoopPy LoopNotions.
Context `{C : LoopPy.Collaborators}.

(** X29.  [FFLD read a] followed by [FFLD write b]: the force field
    imported from [a] becomes a new object that the loop refers to, the
    lines of [a] are kept, and what is exported to [b] is the parameters of
    that force field together with those lines; the score is not
    touched. *)
Theorem FFLD_read_then_write
        (fuel : nat) (m : Mem) (self : Loop) (line_1 line_2 a b : string)
        (f : FF) (ls : list string) (w' : World) :
  split line_1 = ["FFLD"; "read"; a] ->
  split line_2 = ["FFLD"; "write"; b] ->
  import_ff (world m) a = Ok f ->
  readlines (world m) a = Ok ls ->
  export_ff (world m) b (params f) (Some ls) = Ok w' ->
  3 <= fuel ->
  run_loop_input fuel m self (Some [line_1; line_2]) None =
  Ok (mkMem w' (ffs m ++ [f]),
      with_ff_lines (Some ls) (with_ff (Some (length (ffs m))) self)).
Proof.
  intros H1 H2 Hf Hls Hw Hfuel.
  destruct fuel as [|[|[|fuel]]]; try lia.
  unfold run_loop_input. cbn [take_score truthy of_option Py.bind].
  rewrite run_lines_unfold. unfold directive. rewrite H1.
  cbn [getitem nth_error of_option Py.bind String.eqb Ascii.eqb Bool.eqb].
  unfold FFLD.
  cbn [getitem nth_error of_option Py.bind String.eqb Ascii.eqb Bool.eqb].
  rewrite Hf. cbn [Py.bind alloc world]. rewrite Hls.
  cbn [Py.bind fst snd].
  rewrite run_lines_unfold. unfold directive. rewrite H2.
  cbn [getitem nth_error of_option Py.bind String.eqb Ascii.eqb Bool.eqb].
  unfold FFLD.
  cbn [getitem nth_error of_option Py.bind String.eqb Ascii.eqb Bool.eqb
       deref ff with_ff with_ff_lines ffs].
  rewrite list_lookup_middle by reflexivity.
  cbn [of_option Py.bind world ff_lines with_ff_lines]. rewrite Hw.
  cbn [Py.bind fst snd]. reflexivity.
Qed.

(** X30.  A loop that has no force field (none has been read since the
    loop was made): a [PARM] line and an [FFLD write] line that names a
    file both raise AttributeError. *)
Theorem no_force_field_raises_AttributeError
        (nested : Mem -> Loop -> result (Mem * Loop))
        (m : Mem) (self : Loop) (loc : Locals)
        (line : string) (rest cols : list string) (b : string) :
  ff self = None ->
  split line = "PARM" :: cols \/ split line = "FFLD" :: "write" :: b :: cols ->
  directive nested m self loc line rest = Raise AttributeError.
Proof.
  intros Hff [Hl|Hl]; unfold directive; rewrite Hl;
    cbn [getitem nth_error of_option Py.bind String.eqb Ascii.eqb Bool.eqb].
  - unfold PARM. rewrite Hff. reflexivity.
  - unfold FFLD.
    cbn [getitem nth_error of_option Py.bind String.eqb Ascii.eqb Bool.eqb].
    rewrite Hff. reflexivity.
Qed.

End ForceField.

(** ** The statements at work *)

Lemma read_loop_input_lines_witness :
  exists raw kept,
    @LoopPy.readlines LoopWords.on_disk
       ({[ "loop.in" := LoopWords.loop_in ]} : gmap string (list string))
       "loop.in" = Ok raw /\
    sublist kept raw /\
    ["RDAT -r ref.txt "; "CDAT -me a.mae -mb a.mae"; "COMP"]
    = map LoopPy.command_text kept /\
    Forall (fun l => l <> "" /\ String.get 0 l <> Some "010"%char /\
                     forall k, String.get k l <> Some "#"%char)
           ["RDAT -r ref.txt "; "CDAT -me a.mae -mb a.mae"; "COMP"].
Proof.
  apply (@read_loop_input_lines LoopWords.on_disk
           ({[ "loop.in" := LoopWords.loop_in ]} : gmap string (list string))
           "loop.in").
  vm_compute. reflexivity.
Defined.

Lemma unrecognized_line_is_skipped_witness :
  @LoopPy.run_lines LoopWords.on_disk 2 (LoopWords.disk_with "loop.in" [])
     LoopPy.Loop_init LoopPy.no_locals ["SIMP 3"; "RDAT -r ref.txt"]
  = @LoopPy.run_lines LoopWords.on_disk 1 (LoopWords.disk_with "loop.in" [])
     LoopPy.Loop_init LoopPy.no_locals ["RDAT -r ref.txt"].
Proof.
  apply (@unrecognized_line_is_skipped LoopWords.on_disk 1
           (LoopWords.disk_with "loop.in" []) LoopPy.Loop_init
           LoopPy.no_locals "SIMP 3" "SIMP" ["RDAT -r ref.txt"]);
    reflexivity.
Defined.

Lemma blank_line_raises_IndexError_witness :
  @LoopPy.main LoopWords.on_disk 1
     (LoopWords.disk_with "loop.in" [("  " ++ LoopWords.nl)%string; "COMP"])
     "loop.in"
  = Raise IndexError.
Proof.
  apply (@blank_line_raises_IndexError LoopWords.on_disk 0
           (LoopWords.disk_with "loop.in" [("  " ++ LoopWords.nl)%string; "COMP"])
           "loop.in" ("  " ++ LoopWords.nl)%string ["COMP"]).
  - reflexivity.
  - vm_compute. discriminate.
  - reflexivity.
Defined.

Lemma LOOP_body_ends_at_first_END_witness :
  @LoopPy.directive LoopWords.on_disk (fun m l => Ok (m, l))
     (LoopWords.disk_with "loop.in" []) LoopPy.Loop_init LoopPy.no_locals
     "LOOP 0.5" (["RDAT -r ref.txt"; "COMP"] ++ "END" :: ["COMP"; "END"])
  = (r <- (fun m l => Ok (m, l)) (LoopWords.disk_with "loop.in" [])
            (LoopPy.make_loop LoopPy.Loop_init 0.5%Q
               ["RDAT -r ref.txt"; "COMP"]) ;;
     Ok (fst r, LoopPy.with_score (LoopPy.score (snd r)) LoopPy.Loop_init,
         LoopPy.no_locals, ["COMP"; "END"])).
Proof.
  apply (@LOOP_body_ends_at_first_END LoopWords.on_disk (fun m l => Ok (m, l))
           (LoopWords.disk_with "loop.in" []) LoopPy.Loop_init LoopPy.no_locals
           "LOOP 0.5" "0.5" [] ["RDAT -r ref.txt"; "COMP"] "END"
           ["COMP"; "END"] 0.5%Q).
  - reflexivity.
  - reflexivity.
  - repeat constructor.
    + exists "RDAT". split; [reflexivity|discriminate].
    + exists "COMP". split; [reflexivity|discriminate].
  - reflexivity.
Defined.

Lemma LOOP_without_END_raises_StopIteration_witness :
  @LoopPy.run_lines LoopWords.on_disk 1 (LoopWords.disk_with "loop.in" [])
     LoopPy.Loop_init LoopPy.no_locals ["LOOP 0.5"; "RDAT -r ref.txt"; "COMP"]
  = Raise StopIteration.
Proof.
  apply (@LOOP_without_END_raises_StopIteration LoopWords.on_disk 0
           (LoopWords.disk_with "loop.in" []) LoopPy.Loop_init LoopPy.no_locals
           "LOOP 0.5" ["0.5"] ["RDAT -r ref.txt"; "COMP"]).
  - reflexivity.
  - repeat constructor.
    + exists "RDAT". split; [reflexivity|discriminate].
    + exists "COMP". split; [reflexivity|discriminate].
Defined.

Lemma LOOP_inside_LOOP_raises_StopIteration_witness :
  @LoopPy.directive LoopWords.on_disk (@LoopPy.opt_loop LoopWords.on_disk 2)
     (LoopWords.disk_with "loop.in" []) LoopPy.Loop_init LoopPy.no_locals
     "LOOP 0.5" ("LOOP 0.1" :: ["COMP"] ++ "END" :: ["END"])
  = Raise StopIteration.
Proof.
  apply (@LOOP_inside_LOOP_raises_StopIteration LoopWords.on_disk 0
           (LoopWords.disk_with "loop.in" []) LoopPy.Loop_init LoopPy.no_locals
           "LOOP 0.5" "0.5" [] 0.5%Q "LOOP 0.1" ["0.1"] ["COMP"] "END" ["END"]).
  - reflexivity.
  - reflexivity.
  - reflexivity.
  - repeat constructor. exists "COMP". split; [reflexivity|discriminate].
  - reflexivity.
Defined.


Lemma opt_loop_without_score_raises_TypeError_witness :
  @LoopPy.opt_loop Fixtures.scripted 4 (Fixtures.start Fixtures.four_scores)
     (Fixtures.loop_002 None)
  = Raise TypeError.
Proof.
  apply (@opt_loop_without_score_raises_TypeError Fixtures.scripted 3
           (Fixtures.start Fixtures.four_scores) (Fixtures.loop_002 None)
           (Fixtures.mem [9.0; 8.91; 8.90]%Q [Some 10.0%Q],
            LoopPy.with_ref_args (Some ["-r"; "ref.txt"])
              (LoopPy.with_score (Some 10.0%Q)
                 (LoopPy.with_ff (Some 0)
                    (LoopPy.begin_cycle (Fixtures.loop_002 None)))))).
  - reflexivity.
  - vm_compute. reflexivity.
Defined.

Lemma opt_loop_from_zero_raises_ZeroDivisionError_witness :
  @LoopPy.opt_loop Fixtures.scripted 4 (Fixtures.start Fixtures.four_scores)
     (Fixtures.loop_002 (Some 0%Q))
  = Raise ZeroDivisionError.
Proof.
  apply (@opt_loop_from_zero_raises_ZeroDivisionError Fixtures.scripted 3
           (Fixtures.start Fixtures.four_scores) (Fixtures.loop_002 (Some 0%Q))
           (Fixtures.mem [9.0; 8.91; 8.90]%Q [Some 10.0%Q])
           (LoopPy.with_ref_args (Some ["-r"; "ref.txt"])
              (LoopPy.with_score (Some 10.0%Q)
                 (LoopPy.with_ff (Some 0)
                    (LoopPy.begin_cycle (Fixtures.loop_002 (Some 0%Q))))))
           0%Q 10.0%Q).
  - reflexivity.
  - reflexivity.
  - vm_compute. reflexivity.
  - reflexivity.
Defined.

Lemma RDAT_CDAT_COMP_scores_witness :
  @LoopPy.run_loop_input LoopWords.on_disk 4
     (LoopWords.disk_with "loop.in" []) LoopPy.Loop_init
     (Some ["RDAT -r ref.txt"; "CDAT -me a.mae"; "COMP"]) None
  = Ok (LoopWords.disk_with "loop.in" [],
        LoopPy.with_score (Some 4%Q)
          (LoopPy.with_ff_args (Some ["-me"; "a.mae"])
             (LoopPy.with_ref_args (Some ["-r"; "ref.txt"])
                (LoopPy.take_score None LoopPy.Loop_init)))).
Proof.
  apply (@RDAT_CDAT_COMP_scores LoopWords.on_disk
           (LoopWords.disk_with "loop.in" []) LoopPy.Loop_init None
           "RDAT -r ref.txt" "CDAT -me a.mae" "COMP"
           ["-r"; "ref.txt"] ["-me"; "a.mae"]
           ({[ "loop.in" := [] ]} : gmap string (list string))
           ({[ "loop.in" := [] ]} : gmap string (list string))
           (map (fun a => mkDatum None None (Some a) None None None None None
                                  None ∅) ["-r"; "ref.txt"])
           (map (fun a => mkDatum None None (Some a) None None None None None
                                  None ∅) ["-me"; "a.mae"])
           4%Q);
    reflexivity.
Defined.

Lemma FFLD_read_then_write_witness :
  @LoopPy.run_loop_input LoopWords.on_disk 3
     (LoopWords.disk_with "a.fld" ["x"; "y"]) LoopPy.Loop_init
     (Some ["FFLD read a.fld"; "FFLD write b.fld"]) None
  = Ok (@LoopPy.mkMem LoopWords.on_disk
          (<["b.fld" := ["x"; "y"]]>
             ({[ "a.fld" := ["x"; "y"] ]} : gmap string (list string)))
          (@LoopPy.ffs LoopWords.on_disk (LoopWords.disk_with "a.fld" ["x"; "y"])
             ++ [["x"; "y"]]),
        LoopPy.with_ff_lines (Some ["x"; "y"])
          (LoopPy.with_ff
             (Some (length (@LoopPy.ffs LoopWords.on_disk
                              (LoopWords.disk_with "a.fld" ["x"; "y"]))))
             LoopPy.Loop_init)).
Proof.
  apply (@FFLD_read_then_write LoopWords.on_disk 3
           (LoopWords.disk_with "a.fld" ["x"; "y"]) LoopPy.Loop_init
           "FFLD read a.fld" "FFLD write b.fld" "a.fld" "b.fld"
           ["x"; "y"] ["x"; "y"]
           (<["b.fld" := ["x"; "y"]]>
              ({[ "a.fld" := ["x"; "y"] ]} : gmap string (list string))));
    solve [reflexivity | lia].
Defined.

Lemma no_force_field_raises_AttributeError_witness :
  @LoopPy.directive LoopWords.on_disk (fun m l => Ok (m, l))
     (LoopWords.disk_with "keep.txt" []) LoopPy.Loop_init LoopPy.no_locals
     "PARM keep.txt" []
  = Raise AttributeError.
Proof.
  apply (@no_force_field_raises_AttributeError LoopWords.on_disk
           (fun m l => Ok (m, l)) (LoopWords.disk_with "keep.txt" [])
           LoopPy.Loop_init LoopPy.no_locals "PARM keep.txt" [] ["keep.txt"] "").
  - reflexivity.
  - left. reflexivity.
Defined.

Lemma read_reference_of_skipped_lines_witness :
  @Calculate.read_reference CalcWords.jaguar_disk "./notes.txt" = Ok [].
Proof.
  apply (@read_reference_of_skipped_lines CalcWords.jaguar_disk "./notes.txt"
           CalcWords.ref_txt).
  - reflexivity.
  - repeat (constructor 2;
            [first [left; reflexivity | right; vm_compute; discriminate]|]).
    constructor 1.
Defined.

Lemma read_reference_line_adds_one_record_witness :
  [mkDatum (Some 1.534%Q) (Some 1.0%Q) (Some "b_1_1-2") None (Some "b")
           None None (Some 1%Z) None ∅] = [] \/
  exists l w v fw fv d,
    split (before "#" "b_1_1-2 1.0 1.534 # a bond") = [l; w; v] /\
    float w = Ok fw /\ float v = Ok fv /\
    [mkDatum (Some 1.534%Q) (Some 1.0%Q) (Some "b_1_1-2") None (Some "b")
             None None (Some 1%Z) None ∅] = [] ++ [d] /\
    lbl d = Some l /\ wht d = Some fw /\ val d = Some fv /\
    com d = None /\ src_1 d = None /\ src_2 d = None /\ idx_2 d = None /\
    typ d = head (split_on "_" l).
Proof.
  apply (read_reference_line_adds_one_record "b_1_1-2 1.0 1.534 # a bond" []).
  vm_compute. reflexivity.
Defined.

Lemma read_reference_line_malformed_label_witness :
  Calculate.read_reference_line "bond 1.0 1.534" [] = Raise NameError.
Proof.
  apply (read_reference_line_malformed_label "bond 1.0 1.534" "bond" "1.0"
           "1.534" 1.0%Q 1.534%Q []);
    solve [reflexivity | vm_compute; discriminate].
Defined.

Lemma lbl_to_data_attrs_four_parts_witness :
  exists d,
    Calculate.lbl_to_data_attrs Datum_init "t_1_2_6-7-8-9" = Ok d /\
    typ d = Some "t" /\ idx_1 d = Some 2%Z /\
    (forall k, k < length [6; 7; 8; 9]%Z ->
               atm d !! (k + 1) = nth_error [6; 7; 8; 9]%Z k) /\
    (forall j, length [6; 7; 8; 9]%Z < j -> atm d !! j = atm Datum_init !! j).
Proof.
  apply (lbl_to_data_attrs_four_parts Datum_init "t_1_2_6-7-8-9" "t" "1" "2"
           "6-7-8-9" "2" [] 2%Z [6; 7; 8; 9]%Z).
  - reflexivity.
  - reflexivity.
  - reflexivity.
  - discriminate.
  - reflexivity.
Defined.

Lemma collect_command_file_not_in_inps_witness :
  @Calculate.collect_command Fixtures.disk Fixtures.inps_a "." ["OPT"]
     ("me", [["b.mae"; "a.mae"]]) Calculate.Frame_init
  = Raise KeyError.
Proof.
  apply (@collect_command_file_not_in_inps Fixtures.disk Fixtures.inps_a "."
           ["OPT"] "me" "b.mae" ["a.mae"] [] Calculate.Frame_init);
    reflexivity.
Defined.

Lemma collect_command_token_not_a_pair_witness :
  @Calculate.collect_command Fixtures.disk Fixtures.inps_a "." ["OPT"]
     ("jeigz", [["a.in"]]) Calculate.Frame_init
  = Raise ValueError.
Proof.
  apply (@collect_command_token_not_a_pair Fixtures.disk Fixtures.inps_a "."
           ["OPT"] "jeigz" "a.in" [] [] Calculate.Frame_init).
  - reflexivity.
  - vm_compute. discriminate.
Defined.

Lemma collect_command_unbound_directory_witness :
  @Calculate.collect_command CalcWords.jaguar_disk ∅ "." ["OPT"]
     ("jq", [["a.mae"]]) Calculate.Frame_init
  = Raise NameError.
Proof.
  apply (@collect_command_unbound_directory CalcWords.jaguar_disk ∅ "."
           ["OPT"] "jq" "a.mae" [] [] Calculate.Frame_init);
    reflexivity.
Defined.

Lemma collect_data_keeps_earlier_records_witness :
  exists ds_1 ds_2,
    @Calculate.collect_data CalcWords.jaguar_disk
       [("je", [["a.mae"]])] ∅ "." ["OPT"] = Ok ds_1 /\
    [ CalcWords.energy_datum "je" "e" "a.mae" 0 0 2625.5%Q;
      CalcWords.energy_datum "je" "e" "a.mae" 0 1 5251.0%Q;
      CalcWords.energy_datum "jeo" "eo" "a.mae" 0 0 2625.5%Q;
      CalcWords.energy_datum "jeo" "eo" "a.mae" 0 1 5251.0%Q ]
    = ds_1 ++ ds_2.
Proof.
  apply (@collect_data_keeps_earlier_records CalcWords.jaguar_disk
           [("je", [["a.mae"]])] [("jeo", [["a.mae"]])] ∅ "." ["OPT"]).
  vm_compute. reflexivity.
Defined.

Lemma collect_command_fills_cache_witness :
  Calculate.outs Calculate.Frame_init ⊆ Calculate.outs CalcWords.je_frame /\
  exists ps,
    Calculate.parsed CalcWords.je_frame
    = Calculate.parsed Calculate.Frame_init ++ ps /\
    size (Calculate.outs CalcWords.je_frame)
    = size (Calculate.outs Calculate.Frame_init) + length ps.
Proof.
  apply (@collect_command_fills_cache CalcWords.jaguar_disk ∅ "." []
           ("je", [["a.mae"; "b.mae"; "a.mae"]])
           Calculate.Frame_init CalcWords.je_frame).
  - discriminate.
  - vm_compute. reflexivity.
Defined.

Lemma jqh_records_fold_hydrogens_witness :
  @Calculate.jaguar_charges_of "jqh" "a.mae" (0, Fixtures.methylene)
     Calculate.Frame_init
  = Ok (Calculate.extend
          (map (fun a => Notions.charge_datum "jqh" "a.mae" 0 a
                           (CalcWords.folded Fixtures.methylene a))
               (CalcWords.charged true Fixtures.methylene))
          Calculate.Frame_init).
Proof.
  apply (jqh_records_fold_hydrogens "a.mae" 0 Fixtures.methylene
           Calculate.Frame_init).
  intros h [<-|[<-|[]]]; vm_compute; split; discriminate.
Defined.

Lemma macromodel_charges_records_witness :
  exists fr',
    @Calculate.macromodel_charges Fixtures.disk Fixtures.inps_a "mqh"
       [["a.mae"]] CalcWords.methylene_frame = Ok fr' /\
    Calculate.outs fr' !! "a.mae"
    = Some (Calculate.mkAdapter (Some [Fixtures.methylene]) None None None
                                None None None) /\
    Calculate.data fr' =
    Calculate.data CalcWords.methylene_frame ++
    flat_map (fun '(str_num, s) =>
                map (fun a => Notions.charge_datum "mqh" "a.mae" str_num a
                                (Calculate.partial_charge a))
                    (CalcWords.charged (negb (String.eqb "mqh" "mq")) s))
             [(0, Fixtures.methylene)].
Proof.
  apply (@macromodel_charges_records Fixtures.disk Fixtures.inps_a "mqh"
           "a.mae" Fixtures.a_mae
           (Calculate.mkAdapter (Some [Fixtures.methylene]) None None None
                                None None None)
           [Fixtures.methylene] [(0, Fixtures.methylene)]
           CalcWords.methylene_frame).
  - reflexivity.
  - reflexivity.
  - left. reflexivity.
  - reflexivity.
  - reflexivity.
Defined.

Lemma collect_command_reference_witness :
  @Calculate.collect_command CalcWords.jaguar_disk ∅ "." ["OPT"]
     ("r", [["bonds.txt"]; ["bonds.txt"]]) Calculate.Frame_init
  = Ok (Calculate.extend
          (flat_map (fun _ => CalcWords.bonds)
                    (concat [["bonds.txt"]; ["bonds.txt"]]))
          Calculate.Frame_init).
Proof.
  apply (@collect_command_reference CalcWords.jaguar_disk ∅ "." ["OPT"]
           [["bonds.txt"]; ["bonds.txt"]] (fun _ => CalcWords.bonds)
           Calculate.Frame_init).
  intros f [<-|[<-|[]]]; vm_compute; reflexivity.
Defined.

Lemma collect_command_jaguar_energies_witness :
  exists fr',
    @Calculate.collect_command CalcWords.jaguar_disk ∅ "." ["OPT"]
       ("jeo", [["a.mae"; "b.mae"]; ["a.mae"]]) Calculate.Frame_init = Ok fr' /\
    Calculate.data fr' =
    Calculate.data Calculate.Frame_init ++
    @CalcWords.energy_data CalcWords.jaguar_disk "jeo" "eo"
       (fun _ => [1; 2]%Q) 0 [["a.mae"; "b.mae"]; ["a.mae"]] /\
    Calculate.v_typ fr' = Some "eo".
Proof.
  apply (@collect_command_jaguar_energies CalcWords.jaguar_disk ∅ "." ["OPT"]
           "jeo" "eo" [["a.mae"; "b.mae"]; ["a.mae"]] (fun _ => [1; 2]%Q)
           Calculate.Frame_init).
  - right. left. split; reflexivity.
  - intros f [<-|[<-|[<-|[]]]];
      (eexists; eexists; split; [reflexivity|]; split; [reflexivity|];
       repeat constructor).
Defined.

Lemma collect_command_je2_without_typ_witness :
  @Calculate.collect_command CalcWords.jaguar_disk ∅ "." ["OPT"]
     ("je2", [["a.mae"]]) Calculate.Frame_init
  = Raise NameError.
Proof.
  apply (@collect_command_je2_without_typ CalcWords.jaguar_disk ∅ "." ["OPT"]
           "a.mae" [] [] CalcWords.two_structures
           (Calculate.mkStructure {[ "r_j_Gas_Phase_Energy" := 1%Q ]} [] [])
           [Calculate.mkStructure {[ "r_j_Gas_Phase_Energy" := 2%Q ]} [] []]
           1%Q Calculate.Frame_init);
    reflexivity.
Defined.
